(** * Ride lifecycle, dispatch, fares and ratings of the ride-hailing backend

    A shallow embedding of the request handlers of [routes/ride.js], of the
    driver routes (accept-ride, withdraw, availability and the listings),
    of the availability events of the socket and of [calculateFare] from
    the Google Maps utilities, with the properties of the design document
    and further properties of the code stated over them.

    Conventions of the embedding.
    - In the handlers a JavaScript number is an exact rational ([Q]) and
      [Math.round] rounds to the closest integer, ties towards plus
      infinity.  Where the last digit of a result is at stake, in the
      rounding of [calculateFare], the function is given over IEEE 754
      doubles as well ([Double], [Fare64]).
    - An object literal used as a table is read with the property lookup
      of the language: own properties first, then those every object
      inherits ([Object_prototype]).
    - A Mongo collection is a list of documents; [findById] returns the
      first document with the given [_id] and an update changes that same
      document.
    - [new Date()] is a clock value handed to the handler.
    - A handler runs in the monad [Handler]: it threads the store and may
      reply early ([return res.status(..).json(..)]). *)

From Stdlib Require Import List String ZArith QArith Qround Qminmax Lia Lqa Bool.
From Stdlib Require Import Permutation Sorted SpecFloat.
Import ListNotations.
Local Open Scope string_scope.
Local Open Scope Q_scope.

Set Implicit Arguments.

(* ------------------------------------------------------------------ *)
(** ** JavaScript numbers *)

(** [Math.round(x)]: the integer closest to [x], the larger one on a tie. *)
Definition Math_round (x : Q) : Q := inject_Z (Qfloor (x + (1 # 2))).

(** [Math.min] and [Math.max] on two numbers. *)
Definition Math_min (x y : Q) : Q := if Qle_bool x y then x else y.
Definition Math_max (x y : Q) : Q := if Qle_bool x y then y else x.

(** [a > b] on numbers. *)
Definition Qgt_bool (a b : Q) : bool := negb (Qle_bool a b).

(** Truthiness of a possibly absent number: [undefined] and [0] are falsy. *)
Definition truthy (v : option Q) : bool :=
  match v with
  | None => false
  | Some q => negb (Qeq_bool q 0)
  end.

(** Sum of a list of numbers ([$sum], [reduce]). *)
Fixpoint Qsum (l : list Q) : Q :=
  match l with
  | [] => 0
  | x :: t => x + Qsum t
  end.

(* ------------------------------------------------------------------ *)
(** ** Property lookup in an object literal *)

(** The property names every object inherits from [Object.prototype]. *)
Definition Object_prototype : list string :=
  [ "constructor"; "__defineGetter__"; "__defineSetter__"; "hasOwnProperty";
    "__lookupGetter__"; "__lookupSetter__"; "isPrototypeOf";
    "propertyIsEnumerable"; "toString"; "valueOf"; "__proto__";
    "toLocaleString" ].

Definition is_inherited (k : string) : bool :=
  existsb (String.eqb k) Object_prototype.

(* ------------------------------------------------------------------ *)
(** ** Fare engine: [calculateFare] of utils/googleMaps.js *)

Module Fare.

Record Rates := { base : Q; perKm : Q; perMin : Q }.

Record t := {
  baseFare : Q;
  distanceFare : Q;
  timeFare : Q;
  totalFare : Q;
  surgeMultiplier : Q
}.

(** Own-property lookup in an object literal used as a table. *)
Fixpoint lookup (A : Type) (k : string) (o : list (string * A)) : option A :=
  match o with
  | [] => None
  | (k', v) :: rest => if String.eqb k k' then Some v else lookup k rest
  end.

Definition carRates : Rates := {| base := 50; perKm := 15; perMin := 2 |}.

Definition baseFares : list (string * Rates) :=
  [ ("Bike",  {| base := 20;  perKm := 8;  perMin := 1 |});
    ("Auto",  {| base := 30;  perKm := 12; perMin := 1.5 |});
    ("Car",   carRates);
    ("Truck", {| base := 100; perKm := 25; perMin := 3 |}) ].

(** [baseFares[vehicleType] || baseFares['Car']] for a vehicle type that is
    not the name of an inherited property ([is_inherited]): the type is
    then a key of the table or the lookup is [undefined] and the rates are
    those of "Car".  For an inherited name the lookup finds a member of
    [Object.prototype] and there are no rates; [Fare64.calculateFare] has
    that case, and the properties stated over [rates_for] exclude it. *)
Definition rates_for (vehicleType : string) : Rates :=
  match lookup vehicleType baseFares with
  | Some r => r
  | None => carRates
  end.

(** [calculateFare] with exact arithmetic, for the handlers, which pass the
    fare on as it comes.  In doubles a component can come out a cent away
    from this one; [Fare64.calculateFare] is the function on doubles. *)
Definition calculateFare (distance duration : Q) (vehicleType : string)
           (surge : Q) : t :=
  let rates := rates_for vehicleType in
  let baseFare := base rates in
  let distanceFare := distance * perKm rates in
  let timeFare := duration * perMin rates in
  let totalFare := (baseFare + distanceFare + timeFare) * surge in
  {| baseFare := baseFare;
     distanceFare := Math_round (distanceFare * 100) / 100;
     timeFare := Math_round (timeFare * 100) / 100;
     totalFare := Math_round (totalFare * 100) / 100;
     surgeMultiplier := surge |}.

(** The default of the fourth parameter: [surgeMultiplier = 1]. *)
Definition calculateFare3 (distance duration : Q) (vehicleType : string) : t :=
  calculateFare distance duration vehicleType 1.

End Fare.

(* ------------------------------------------------------------------ *)
(** ** IEEE 754 doubles

    The numbers of the language as they are: binary64, every operation
    the exact result rounded to the closest double, ties to even. *)

Module Double.

Definition prec : Z := 53.
Definition emax : Z := 1024.

Definition t : Set := spec_float.

(** The doubles are the values in canonical form; the operations below
    return such values. *)
Definition is_double (x : t) : bool := valid_binary prec emax x.

Definition NaN : t := S754_nan.

(** An integer as a double; exact below 2^53. *)
Definition of_Z (n : Z) : t := binary_normalize prec emax n 0 false.

Definition add : t -> t -> t := SFadd prec emax.
Definition mul : t -> t -> t := SFmul prec emax.
Definition div : t -> t -> t := SFdiv prec emax.

(** The double a decimal literal stands for, as the fraction [n / d] of
    two integers below 2^53: the double closest to it. *)
Definition decimal (n : Z) (d : positive) : t := div (of_Z n) (of_Z (Zpos d)).

(** The number a finite double is. *)
Definition value (x : t) : Q :=
  match x with
  | S754_finite s m e =>
      let z := if s then Zneg m else Zpos m in
      if (0 <=? e)%Z then inject_Z (z * 2 ^ e) else z # (2 ^ Z.to_pos (- e))
  | _ => 0
  end.

(** [Math.round(x)]: the integer closest to [x], the larger one on a tie;
    a double with no fractional part, a zero, an infinity and NaN are
    returned as they are. *)
Definition Math_round (x : t) : t :=
  match x with
  | S754_finite s m e =>
      if (0 <=? e)%Z then x
      else
        let n := Qfloor (value x + (1 # 2)) in
        if (n =? 0)%Z then S754_zero s else of_Z n
  | _ => x
  end.

End Double.

Declare Scope double_scope.
Delimit Scope double_scope with double.
Infix "+" := Double.add : double_scope.
Infix "*" := Double.mul : double_scope.
Infix "/" := Double.div : double_scope.

(* ------------------------------------------------------------------ *)
(** ** [calculateFare] in doubles *)

Module Fare64.

Record Rates := { base : Double.t; perKm : Double.t; perMin : Double.t }.

(** What reading a property gives where a number is expected. *)
Inductive Value := undefined | Num (x : Double.t).

Definition ToNumber (v : Value) : Double.t :=
  match v with
  | undefined => Double.NaN
  | Num x => x
  end.

Record t := {
  baseFare : Value;
  distanceFare : Double.t;
  timeFare : Double.t;
  totalFare : Double.t;
  surgeMultiplier : Double.t
}.

Definition carRates : Rates :=
  {| base := Double.of_Z 50; perKm := Double.of_Z 15; perMin := Double.of_Z 2 |}.

Definition baseFares : list (string * Rates) :=
  [ ("Bike",  {| base := Double.of_Z 20;  perKm := Double.of_Z 8;
                 perMin := Double.of_Z 1 |});
    ("Auto",  {| base := Double.of_Z 30;  perKm := Double.of_Z 12;
                 perMin := Double.decimal 15 10 |});
    ("Car",   carRates);
    ("Truck", {| base := Double.of_Z 100; perKm := Double.of_Z 25;
                 perMin := Double.of_Z 3 |}) ].

(** [baseFares[vehicleType] || baseFares['Car']].  An own property of the
    table is a rates object.  A name of [Object_prototype] finds the
    inherited member, a function or an object: it is truthy, so there is
    no fallback, and it has no [base], [perKm] or [perMin]; that is
    [None].  Any other name is [undefined] and the rates are those of
    "Car". *)
Definition rates_for (vehicleType : string) : option Rates :=
  match Fare.lookup vehicleType baseFares with
  | Some r => Some r
  | None => if is_inherited vehicleType then None else Some carRates
  end.

(** [rates.base], [rates.perKm], [rates.perMin] *)
Definition field (f : Rates -> Double.t) (rates : option Rates) : Value :=
  match rates with
  | Some r => Num (f r)
  | None => undefined
  end.

(** [Math.round(x * 100) / 100] *)
Definition round_100 (x : Double.t) : Double.t :=
  (Double.Math_round (x * Double.of_Z 100) / Double.of_Z 100)%double.

Definition calculateFare (distance duration : Double.t) (vehicleType : string)
           (surgeMultiplier : Double.t) : t :=
  let rates := rates_for vehicleType in
  let baseFare := field base rates in
  let distanceFare := (distance * ToNumber (field perKm rates))%double in
  let timeFare := (duration * ToNumber (field perMin rates))%double in
  let totalFare :=
    ((ToNumber baseFare + distanceFare + timeFare) * surgeMultiplier)%double in
  {| baseFare := baseFare;
     distanceFare := round_100 distanceFare;
     timeFare := round_100 timeFare;
     totalFare := round_100 totalFare;
     surgeMultiplier := surgeMultiplier |}.

End Fare64.

(* ------------------------------------------------------------------ *)
(** ** Documents: the Ride, User, Payment and Notification models *)

Definition ObjectId := nat.
Definition Time := nat.
Bind Scope nat_scope with ObjectId Time.

(** The values of [status] on a ride, as the queries of the routes name
    them. *)
Inductive RideStatus :=
| pending | searching | accepted | arrived | started | completed | cancelled.

Definition status_name (s : RideStatus) : string :=
  match s with
  | pending => "pending" | searching => "searching" | accepted => "accepted"
  | arrived => "arrived" | started => "started" | completed => "completed"
  | cancelled => "cancelled"
  end.

Definition status_eqb (a b : RideStatus) : bool :=
  String.eqb (status_name a) (status_name b).

Definition all_statuses : list RideStatus :=
  [pending; searching; accepted; arrived; started; completed; cancelled].

(** The status a request body names, if it names one. *)
Definition status_of_name (n : string) : option RideStatus :=
  find (fun s => String.eqb (status_name s) n) all_statuses.

(** [names.includes(x)] on an array of strings. *)
Definition includes (names : list string) (x : string) : bool :=
  existsb (String.eqb x) names.

Module Ride.

Record Place := { address : string; coordinates : Q * Q }.

Record Route := { distance : Q; duration : Q }.

Record Pricing := {
  baseFare : Q;
  distanceFare : Q;
  timeFare : Q;
  totalFare : Q;
  finalAmount : Q
}.

(** [rating.userRating]: every path of the sub-document is optional. *)
Record UserRating := {
  rating : option Q;
  feedback : option string;
  date : option Time
}.

Record TrackingEntry := {
  at_coordinates : Q * Q;
  speed : Q;
  heading : Q;
  timestamp : Time
}.

Record Cancellation := {
  cancelledBy : string;
  reason : string;
  cancellationFee : Q
}.

Record PaymentInfo := { method : string; payment_status : string }.

Record t := {
  _id : ObjectId;
  user : ObjectId;
  driver : option ObjectId;
  rideType : string;
  pickup : Place;
  destination : Place;
  route : Route;
  pricing : Pricing;
  passengers : nat;
  scheduledTime : option Time;
  payment : PaymentInfo;
  status : RideStatus;
  actualPickupTime : option Time;
  userRating : UserRating;
  tracking : list TrackingEntry;
  cancellation : option Cancellation
}.

Definition set_status (s : RideStatus) (r : t) : t :=
  {| _id := _id r; user := user r; driver := driver r; rideType := rideType r;
     pickup := pickup r; destination := destination r; route := route r;
     pricing := pricing r; passengers := passengers r;
     scheduledTime := scheduledTime r; payment := payment r;
     status := s;
     actualPickupTime := actualPickupTime r; userRating := userRating r;
     tracking := tracking r; cancellation := cancellation r |}.

Definition set_driver (d : option ObjectId) (r : t) : t :=
  {| _id := _id r; user := user r; driver := d; rideType := rideType r;
     pickup := pickup r; destination := destination r; route := route r;
     pricing := pricing r; passengers := passengers r;
     scheduledTime := scheduledTime r; payment := payment r;
     status := status r;
     actualPickupTime := actualPickupTime r; userRating := userRating r;
     tracking := tracking r; cancellation := cancellation r |}.

Definition set_actualPickupTime (p : option Time) (r : t) : t :=
  {| _id := _id r; user := user r; driver := driver r; rideType := rideType r;
     pickup := pickup r; destination := destination r; route := route r;
     pricing := pricing r; passengers := passengers r;
     scheduledTime := scheduledTime r; payment := payment r;
     status := status r;
     actualPickupTime := p; userRating := userRating r;
     tracking := tracking r; cancellation := cancellation r |}.

Definition set_userRating (u : UserRating) (r : t) : t :=
  {| _id := _id r; user := user r; driver := driver r; rideType := rideType r;
     pickup := pickup r; destination := destination r; route := route r;
     pricing := pricing r; passengers := passengers r;
     scheduledTime := scheduledTime r; payment := payment r;
     status := status r;
     actualPickupTime := actualPickupTime r; userRating := u;
     tracking := tracking r; cancellation := cancellation r |}.

Definition set_tracking (l : list TrackingEntry) (r : t) : t :=
  {| _id := _id r; user := user r; driver := driver r; rideType := rideType r;
     pickup := pickup r; destination := destination r; route := route r;
     pricing := pricing r; passengers := passengers r;
     scheduledTime := scheduledTime r; payment := payment r;
     status := status r;
     actualPickupTime := actualPickupTime r; userRating := userRating r;
     tracking := l; cancellation := cancellation r |}.

Definition set_cancellation (c : option Cancellation) (r : t) : t :=
  {| _id := _id r; user := user r; driver := driver r; rideType := rideType r;
     pickup := pickup r; destination := destination r; route := route r;
     pricing := pricing r; passengers := passengers r;
     scheduledTime := scheduledTime r; payment := payment r;
     status := status r;
     actualPickupTime := actualPickupTime r; userRating := userRating r;
     tracking := tracking r; cancellation := c |}.

(** Modelled from the spec: the schema of models/Ride.js is absent; a
    ride is created in [pending] (section 3, Lifecycle), with no driver,
    no rating, an empty tracking log and no cancellation record. *)
Definition default_status : RideStatus := pending.

(** Modelled from the spec: the order of the driver-initiated transitions
    is in models/Ride.js, which is absent.  Section 4.1: accepted, arrived,
    started, completed, each reached from the one before. *)
Definition next_status (s : RideStatus) : option RideStatus :=
  match s with
  | accepted => Some arrived
  | arrived => Some started
  | started => Some completed
  | _ => None
  end.

(** Modelled from the spec: [updateStatus] is a method of models/Ride.js,
    which is absent.  Section 4.1: a transition of the driver-initiated
    chain sets the status, and an out-of-order transition fails
    (InvalidTransition).  [None] is that failure. *)
Definition updateStatus (r : t) (s : RideStatus) : option t :=
  match next_status (status r) with
  | Some s' => if status_eqb s s' then Some (set_status s r) else None
  | None => None
  end.

(** Modelled from the spec: [cancelRide] is a method of models/Ride.js,
    which is absent.  Section 3: the cancellation record holds the actor,
    the reason and the fee, and the ride moves to [cancelled]; the guard
    against terminal states is the caller's. *)
Definition cancelRide (r : t) (actor why : string) (fee : Q) : t :=
  set_cancellation
    (Some {| cancelledBy := actor; reason := why; cancellationFee := fee |})
    (set_status cancelled r).

(** Modelled from the spec: [addTrackingLocation] is a method of
    models/Ride.js, which is absent.  Section 3: the tracking log is an
    ordered sequence of coordinates, speed, heading and timestamp, and
    "tracking entries [are] only appended while status is started
    (completed rides may retain history)": the method appends one entry to
    the log of a started ride and leaves any other ride as it is. *)
Definition addTrackingLocation (r : t) (c : Q * Q) (sp hd : Q) (now : Time) : t :=
  if status_eqb (status r) started
  then set_tracking
         (tracking r ++
          [{| at_coordinates := c; speed := sp; heading := hd; timestamp := now |}])
         r
  else r.

End Ride.

Module User.

Record DriverInfo := {
  vehicleType : string;
  vehicleNumber : string;
  isAvailable : bool;
  rating : Q
}.

Record t := {
  _id : ObjectId;
  fullName : string;
  phone : string;
  role : string;
  driverInfo : DriverInfo
}.

Definition set_isAvailable (b : bool) (u : t) : t :=
  {| _id := _id u; fullName := fullName u; phone := phone u; role := role u;
     driverInfo :=
       {| vehicleType := vehicleType (driverInfo u);
          vehicleNumber := vehicleNumber (driverInfo u);
          isAvailable := b;
          rating := rating (driverInfo u) |} |}.

Definition set_rating (q : Q) (u : t) : t :=
  {| _id := _id u; fullName := fullName u; phone := phone u; role := role u;
     driverInfo :=
       {| vehicleType := vehicleType (driverInfo u);
          vehicleNumber := vehicleNumber (driverInfo u);
          isAvailable := isAvailable (driverInfo u);
          rating := q |} |}.

End User.

Module Payment.

Record t := {
  _id : ObjectId;
  user : ObjectId;
  type : string;
  amount : Q;
  method : string;
  status : string;
  description : string
}.

End Payment.

Module Notification.

Record t := {
  user : ObjectId;
  title : string;
  message : string;
  type : string;
  rideId : ObjectId
}.

End Notification.

(** Socket.IO rooms: everyone ([io.emit]), [user_<id>] and [ride_<id>]. *)
Inductive Room := Everyone | UserRoom (u : ObjectId) | RideRoom (r : ObjectId).

(** A Socket.IO emission: the room, the event name and the ride it is
    about. *)
Record Event := { room : Room; event : string; about : ObjectId }.

(** The collections and the outgoing events. *)
Record World := {
  rides : list Ride.t;
  users : list User.t;
  payments : list Payment.t;
  notifications : list Notification.t;
  emitted : list Event
}.

Definition set_rides (l : list Ride.t) (w : World) : World :=
  {| rides := l; users := users w; payments := payments w;
     notifications := notifications w; emitted := emitted w |}.

Definition set_users (l : list User.t) (w : World) : World :=
  {| rides := rides w; users := l; payments := payments w;
     notifications := notifications w; emitted := emitted w |}.

Definition set_payments (l : list Payment.t) (w : World) : World :=
  {| rides := rides w; users := users w; payments := l;
     notifications := notifications w; emitted := emitted w |}.

Definition set_notifications (l : list Notification.t) (w : World) : World :=
  {| rides := rides w; users := users w; payments := payments w;
     notifications := l; emitted := emitted w |}.

Definition set_emitted (l : list Event) (w : World) : World :=
  {| rides := rides w; users := users w; payments := payments w;
     notifications := notifications w; emitted := l |}.

(** First document of a collection with the given key. *)
Fixpoint find_doc (A : Type) (key : A -> ObjectId) (i : ObjectId) (l : list A)
  : option A :=
  match l with
  | [] => None
  | x :: t => if Nat.eqb (key x) i then Some x else find_doc key i t
  end.

(** Apply an update to that document. *)
Fixpoint update_doc (A : Type) (key : A -> ObjectId) (i : ObjectId)
         (f : A -> A) (l : list A) : list A :=
  match l with
  | [] => []
  | x :: t => if Nat.eqb (key x) i then f x :: t else x :: update_doc key i f t
  end.

(* ------------------------------------------------------------------ *)
(** ** Responses and the handler monad *)

Inductive Payload :=
| NoData
| RideCreated (rideId : ObjectId) (status : RideStatus)
              (estimatedFare estimatedDistance estimatedDuration : Q)
| RideCancelled (cancellationFee refundAmount : Q)
| StatusUpdated (rideId : ObjectId) (status : RideStatus)
| RideAccepted (rideId : ObjectId)
| WithdrawalRequested (withdrawalId : ObjectId) (amount : Q) (status : string).

(** [res.status(http).json({ status, message, data })]. *)
Record Response := {
  http : nat;
  status : string;
  message : string;
  data : Payload
}.

Definition error (code : nat) (msg : string) : Response :=
  {| http := code; status := "error"; message := msg; data := NoData |}.

Definition success (code : nat) (msg : string) (d : Payload) : Response :=
  {| http := code; status := "success"; message := msg; data := d |}.

(** What a step of a handler body does: goes on with a value, replies and
    returns, or throws into the enclosing [catch]. *)
Inductive Outcome (A : Type) :=
| Return (a : A)
| Replied (r : Response)
| Thrown.

Arguments Return {A} a.
Arguments Replied {A} r.
Arguments Thrown {A}.

Definition Handler (A : Type) : Type := World -> World * Outcome A.

Definition ret (A : Type) (a : A) : Handler A := fun w => (w, Return a).

Definition bind (A B : Type) (m : Handler A) (k : A -> Handler B) : Handler B :=
  fun w =>
    match m w with
    | (w', Return a) => k a w'
    | (w', Replied r) => (w', Replied r)
    | (w', Thrown) => (w', Thrown)
    end.

Definition reply (A : Type) (r : Response) : Handler A := fun w => (w, Replied r).

Definition throw (A : Type) : Handler A := fun w => (w, Thrown).

Arguments reply {A} r.
Arguments throw {A}.

Definition gets (A : Type) (f : World -> A) : Handler A := fun w => (w, Return (f w)).

Definition modify (f : World -> World) : Handler unit := fun w => (f w, Return tt).

Declare Scope handler_scope.
Delimit Scope handler_scope with handler.
Notation "x <- m ;; k" := (bind m (fun x => k))
  (at level 61, m at next level, right associativity) : handler_scope.
Notation "m ;; k" := (bind m (fun _ => k))
  (at level 61, right associativity) : handler_scope.
Local Open Scope handler_scope.

(** [try { body } catch (error) { res.status(500).json(onError) }] *)
Definition try_catch (body : Handler Response) (onError : Response)
  : World -> World * Response :=
  fun w =>
    match body w with
    | (w', Return r) => (w', r)
    | (w', Replied r) => (w', r)
    | (w', Thrown) => (w', onError)
    end.

(** *** Mongoose and Socket.IO operations *)

Definition Ride_findById (i : ObjectId) : Handler (option Ride.t) :=
  gets (fun w => find_doc Ride._id i (rides w)).

(** [new Ride(..).save()] *)
Definition Ride_create (r : Ride.t) : Handler unit :=
  modify (fun w => set_rides (rides w ++ [r]) w).

(** [doc.save()] on a loaded ride: the modified paths are written to the
    stored document. *)
Definition Ride_save (doc : Ride.t) (changes : Ride.t -> Ride.t) : Handler unit :=
  modify (fun w => set_rides (update_doc Ride._id (Ride._id doc) changes (rides w)) w).

Definition User_findById (i : ObjectId) : Handler (option User.t) :=
  gets (fun w => find_doc User._id i (users w)).

(** [User.findByIdAndUpdate(id, paths)] and [user.save()]. *)
Definition User_update (i : ObjectId) (changes : User.t -> User.t) : Handler unit :=
  modify (fun w => set_users (update_doc User._id i changes (users w)) w).

Definition Payment_create (p : Payment.t) : Handler unit :=
  modify (fun w => set_payments (payments w ++ [p]) w).

Definition Notification_create (n : Notification.t) : Handler unit :=
  modify (fun w => set_notifications (notifications w ++ [n]) w).

(** [if (io) { io.to(room).emit(event, ..) }] *)
Definition emit (io : bool) (e : Event) : Handler unit :=
  if io then modify (fun w => set_emitted (emitted w ++ [e]) w) else ret tt.

(** What a handler gets besides the request: the clock, whether the
    Socket.IO server is attached to the app, and the [ObjectId] of the
    document it creates. *)
Record Ctx := { now : Time; io : bool; newId : ObjectId }.

(** [a.toString() !== b.toString()] on two ids. *)
Definition differs (a b : ObjectId) : bool := negb (Nat.eqb a b).

(** [!ride.driver || ride.driver.toString() !== req.user._id.toString()] *)
Definition not_assigned_to (r : Ride.t) (u : User.t) : bool :=
  match Ride.driver r with
  | None => true
  | Some d => differs d (User._id u)
  end.

(* ------------------------------------------------------------------ *)
(** ** routes/ride.js *)

Module RideRoutes.

(** The body of a ride request, after [validateRideRequest]. *)
Record RideRequest := {
  rideType : string;
  pickup : Ride.Place;
  destination : Ride.Place;
  passengers : nat;
  scheduledTime : option Time;
  paymentMethod : string
}.

(** [POST /request].  [distanceResult] is what [getDistanceAndDuration]
    answered: [None] when [success] is false. *)
Definition request_body (ctx : Ctx) (req_user : User.t) (body : RideRequest)
           (distanceResult : option Ride.Route) : Handler Response :=
  match distanceResult with
  | None => reply (error 400 "Unable to calculate route")
  | Some est =>
      let fare :=
        Fare.calculateFare3 (Ride.distance est) (Ride.duration est) (rideType body) in
      let ride :=
        {| Ride._id := newId ctx;
           Ride.user := User._id req_user;
           Ride.driver := None;
           Ride.rideType := rideType body;
           Ride.pickup := pickup body;
           Ride.destination := destination body;
           Ride.route := est;
           Ride.pricing :=
             {| Ride.baseFare := Fare.baseFare fare;
                Ride.distanceFare := Fare.distanceFare fare;
                Ride.timeFare := Fare.timeFare fare;
                Ride.totalFare := Fare.totalFare fare;
                Ride.finalAmount := Fare.totalFare fare |};
           Ride.passengers := passengers body;
           Ride.scheduledTime := scheduledTime body;
           Ride.payment :=
             {| Ride.method := paymentMethod body; Ride.payment_status := "pending" |};
           Ride.status := Ride.default_status;
           Ride.actualPickupTime := None;
           Ride.userRating :=
             {| Ride.rating := None; Ride.feedback := None; Ride.date := None |};
           Ride.tracking := [];
           Ride.cancellation := None |} in
      Ride_create ride ;;
      emit (io ctx)
           {| room := Everyone; event := "new-ride-request"; about := Ride._id ride |} ;;
      ret (success 201 "Ride request created successfully"
             (RideCreated (Ride._id ride) (Ride.status ride)
                (Ride.finalAmount (Ride.pricing ride))
                (Ride.distance (Ride.route ride))
                (Ride.duration (Ride.route ride))))
  end.

Definition request ctx req_user body distanceResult :=
  try_catch (request_body ctx req_user body distanceResult)
            (error 500 "Failed to create ride request").

(** The cancellation fee of [POST /:rideId/cancel]: 10% or 50 at most. *)
Definition cancellation_fee (ride : Ride.t) : Q :=
  if status_eqb (Ride.status ride) accepted || status_eqb (Ride.status ride) arrived
  then Math_min (Ride.finalAmount (Ride.pricing ride) * 0.1) 50
  else 0.

(** [POST /:rideId/cancel].  The refund branch of the source computes an
    amount and does nothing with it; it is left out.  The id the
    notification text quotes is its [rideId]. *)
Definition cancel_body (ctx : Ctx) (req_user : User.t) (rideId : ObjectId)
           (reason : string) : Handler Response :=
  found <- Ride_findById rideId ;;
  match found with
  | None => reply (error 404 "Ride not found")
  | Some ride =>
      if differs (Ride.user ride) (User._id req_user)
      then reply (error 403 "Unauthorized to cancel this ride")
      else if includes ["completed"; "cancelled"] (status_name (Ride.status ride))
      then reply (error 400 "Cannot cancel completed or already cancelled ride")
      else
        let cancellationFee := cancellation_fee ride in
        Ride_save ride (fun r => Ride.cancelRide r "user" reason cancellationFee) ;;
        match Ride.driver ride with
        | Some d =>
            Notification_create
              {| Notification.user := d;
                 Notification.title := "Ride Cancelled";
                 Notification.message := "Ride has been cancelled by the user";
                 Notification.type := "ride_update";
                 Notification.rideId := Ride._id ride |}
        | None => ret tt
        end ;;
        ret (success 200 "Ride cancelled successfully"
               (RideCancelled cancellationFee
                  (Math_max 0 (Ride.finalAmount (Ride.pricing ride) - cancellationFee))))
  end.

Definition cancel ctx req_user rideId reason :=
  try_catch (cancel_body ctx req_user rideId reason)
            (error 500 "Failed to cancel ride").

(** [$match { driver, status: 'completed',
              'rating.userRating.rating': { $exists: true } }] *)
Definition rated_completed_of (d : ObjectId) (r : Ride.t) : bool :=
  match Ride.driver r with
  | Some d' => Nat.eqb d' d
  | None => false
  end
  && status_eqb (Ride.status r) completed
  && match Ride.rating (Ride.userRating r) with Some _ => true | None => false end.

(** The ratings the [$avg] accumulator sees. *)
Fixpoint ratings_of (l : list Ride.t) : list Q :=
  match l with
  | [] => []
  | r :: t =>
      match Ride.rating (Ride.userRating r) with
      | Some q => q :: ratings_of t
      | None => ratings_of t
      end
  end.

(** [Ride.aggregate([{ $match }, { $group: { _id: null,
    averageRating: { $avg } } }])]: one group when a ride matches, none
    otherwise. *)
Definition aggregate_averageRating (d : ObjectId) (l : list Ride.t) : list Q :=
  match filter (rated_completed_of d) l with
  | [] => []
  | m => [Qsum (ratings_of m) / inject_Z (Z.of_nat (List.length m))]
  end.

(** "Update driver's average rating" *)
Definition update_driver_rating (assigned : option ObjectId) : Handler unit :=
  match assigned with
  | None => ret tt
  | Some d =>
      driver <- User_findById d ;;
      match driver with
      | None => ret tt
      | Some _ =>
          totalRating <- gets (fun w => aggregate_averageRating d (rides w)) ;;
          match totalRating with
          | g :: _ => User_update d (User.set_rating (Math_round (g * 10) / 10))
          | [] => ret tt
          end
      end
  end.

(** [POST /:rideId/rate].  [valid] is the validator the schema of
    models/Ride.js (absent) puts on [rating.userRating.rating]; a
    [save()] that fails validation throws. *)
Definition rate_body (valid : option Q -> bool) (ctx : Ctx) (req_user : User.t)
           (rideId : ObjectId) (rating : option Q) (feedback : option string)
  : Handler Response :=
  found <- Ride_findById rideId ;;
  match found with
  | None => reply (error 404 "Ride not found")
  | Some ride =>
      if differs (Ride.user ride) (User._id req_user)
      then reply (error 403 "Unauthorized to rate this ride")
      else if negb (status_eqb (Ride.status ride) completed)
      then reply (error 400 "Can only rate completed rides")
      else if truthy (Ride.rating (Ride.userRating ride))
      then reply (error 400 "Ride already rated")
      else if negb (valid rating) then throw
      else
        Ride_save ride
          (Ride.set_userRating
             {| Ride.rating := rating; Ride.feedback := feedback;
                Ride.date := Some (now ctx) |}) ;;
        update_driver_rating (Ride.driver ride) ;;
        ret (success 200 "Ride rated successfully" NoData)
  end.

Definition rate valid ctx req_user rideId rating feedback :=
  try_catch (rate_body valid ctx req_user rideId rating feedback)
            (error 500 "Failed to rate ride").

Definition validStatuses : list string :=
  ["accepted"; "arrived"; "started"; "completed"].

(** [PATCH /:rideId/status].  The confirmation e-mail is sent to an
    external collaborator and changes no document. *)
Definition update_status_body (ctx : Ctx) (req_user : User.t) (rideId : ObjectId)
           (status : string) : Handler Response :=
  found <- Ride_findById rideId ;;
  match found with
  | None => reply (error 404 "Ride not found")
  | Some ride =>
      if not_assigned_to ride req_user
      then reply (error 403 "Unauthorized to update ride status")
      else if negb (includes validStatuses status)
      then reply (error 400 "Invalid status")
      else
        match status_of_name status with
        | None => throw
        | Some s =>
            match Ride.updateStatus ride s with
            | None => throw
            | Some ride' =>
                Ride_save ride (Ride.set_status s) ;;
                Notification_create
                  {| Notification.user := Ride.user ride;
                     Notification.title := "Ride Status Update";
                     Notification.message :=
                       "Your ride status has been updated to " ++ status;
                     Notification.type := "ride_update";
                     Notification.rideId := Ride._id ride |} ;;
                ret (success 200 "Ride status updated successfully"
                       (StatusUpdated (Ride._id ride') (Ride.status ride')))
            end
        end
  end.

Definition update_status ctx req_user rideId status :=
  try_catch (update_status_body ctx req_user rideId status)
            (error 500 "Failed to update ride status").

(** [POST /:rideId/track] *)
Definition track_body (ctx : Ctx) (req_user : User.t) (rideId : ObjectId)
           (coordinates : Q * Q) (speed heading : Q) : Handler Response :=
  found <- Ride_findById rideId ;;
  match found with
  | None => reply (error 404 "Ride not found")
  | Some ride =>
      if not_assigned_to ride req_user
      then reply (error 403 "Unauthorized to track this ride")
      else if negb (includes ["started"; "completed"] (status_name (Ride.status ride)))
      then reply (error 400 "Can only track started or completed rides")
      else
        Ride_save ride
          (fun r => Ride.addTrackingLocation r coordinates speed heading (now ctx)) ;;
        emit (io ctx)
             {| room := RideRoom (Ride._id ride); event := "ride-location-update";
                about := Ride._id ride |} ;;
        ret (success 200 "Location tracked successfully" NoData)
  end.

Definition track ctx req_user rideId coordinates speed heading :=
  try_catch (track_body ctx req_user rideId coordinates speed heading)
            (error 500 "Failed to track ride location").

End RideRoutes.

(* ------------------------------------------------------------------ *)
(** ** The driver routes: accept-ride and withdraw *)

Module DriverRoutes.

(** The paths [POST /accept-ride/:rideId] modifies before [ride.save()]. *)
Definition accept_changes (ctx : Ctx) (req_user : User.t) (r : Ride.t) : Ride.t :=
  Ride.set_actualPickupTime (Some (now ctx))
    (Ride.set_status accepted
       (Ride.set_driver (Some (User._id req_user)) r)).

(** The handler from the point where [await Ride.findById(..)] has
    answered [found] to its reply.  [req_user] is the caller as
    [authenticateToken] loaded it when the request came in. *)
Definition accept_resume (ctx : Ctx) (req_user : User.t)
           (found : option Ride.t) : Handler Response :=
  match found with
  | None => reply (error 404 "Ride not found")
  | Some ride =>
      if negb (status_eqb (Ride.status ride) pending)
      then reply (error 400 "Ride is no longer available")
      else if negb (String.eqb (Ride.rideType ride)
                               (User.vehicleType (User.driverInfo req_user)))
      then reply (error 400 "Vehicle type mismatch")
      else if negb (User.isAvailable (User.driverInfo req_user))
      then reply (error 400 "Driver is not available")
      else
        Ride_save ride (accept_changes ctx req_user) ;;
        User_update (User._id req_user) (User.set_isAvailable false) ;;
        Notification_create
          {| Notification.user := Ride.user ride;
             Notification.title := "Ride Accepted";
             Notification.message :=
               "Your ride has been accepted by " ++ User.fullName req_user;
             Notification.type := "ride_update";
             Notification.rideId := Ride._id ride |} ;;
        emit (io ctx)
             {| room := UserRoom (Ride.user ride); event := "ride-accepted";
                about := Ride._id ride |} ;;
        ret (success 200 "Ride accepted successfully" (RideAccepted (Ride._id ride)))
  end.

(** [POST /accept-ride/:rideId], run without interruption. *)
Definition accept_ride_body (ctx : Ctx) (req_user : User.t) (rideId : ObjectId)
  : Handler Response :=
  found <- Ride_findById rideId ;;
  accept_resume ctx req_user found.

Definition accept_ride ctx req_user rideId :=
  try_catch (accept_ride_body ctx req_user rideId)
            (error 500 "Failed to accept ride").

(** *** Several accept requests in flight

    The handler is an [async] function: it gives up control at each
    [await], and the code between two of them runs without interruption.
    An attempt is therefore at one of three points: the request has come
    in, [findById] has answered, or the reply is sent.  The writes that
    follow [ride.save()] are taken together with it; the interleavings of
    this model are interleavings of the program. *)
Inductive Phase :=
| Received
| Loaded (found : option Ride.t)
| Done (r : Response).

Record Attempt := { caller : User.t; phase : Phase }.

(** One attempt runs up to its next [await]. *)
Definition advance (ctx : Ctx) (rideId : ObjectId) (a : Attempt) (w : World)
  : Attempt * World :=
  match phase a with
  | Received =>
      ({| caller := caller a; phase := Loaded (find_doc Ride._id rideId (rides w)) |}, w)
  | Loaded found =>
      let (w', r) :=
        try_catch (accept_resume ctx (caller a) found)
                  (error 500 "Failed to accept ride") w in
      ({| caller := caller a; phase := Done r |}, w')
  | Done r => (a, w)
  end.

(** The attempt at position [i] takes a step; the others wait. *)
Fixpoint step_at (ctx : Ctx) (rideId : ObjectId) (i : nat)
         (l : list Attempt) (w : World) : list Attempt * World :=
  match l, i with
  | [], _ => ([], w)
  | a :: t, O => let (a', w') := advance ctx rideId a w in (a' :: t, w')
  | a :: t, S j => let (t', w') := step_at ctx rideId j t w in (a :: t', w')
  end.

(** A schedule names, step after step, the attempt that runs. *)
Fixpoint run_schedule (ctx : Ctx) (rideId : ObjectId) (sched : list nat)
         (l : list Attempt) (w : World) : list Attempt * World :=
  match sched with
  | [] => (l, w)
  | i :: rest =>
      let (l', w') := step_at ctx rideId i l w in
      run_schedule ctx rideId rest l' w'
  end.

Definition incoming (drivers : list User.t) : list Attempt :=
  map (fun d => {| caller := d; phase := Received |}) drivers.

Definition accepted_reply (a : Attempt) : bool :=
  match phase a with
  | Done r => Nat.eqb (http r) 200
  | _ => false
  end.

(** The same attempts one after the other, each run to its reply. *)
Fixpoint accept_in_turn (ctx : Ctx) (rideId : ObjectId) (drivers : list User.t)
         (w : World) : list Response * World :=
  match drivers with
  | [] => ([], w)
  | d :: rest =>
      let (w1, r) := accept_ride ctx d rideId w in
      let (rs, w2) := accept_in_turn ctx rideId rest w1 in
      (r :: rs, w2)
  end.

(** [Ride.aggregate([{ $match: { driver, status: 'completed' } },
    { $group: { _id: null, total: { $sum: '$pricing.finalAmount' } } }])] *)
Definition completed_by (d : ObjectId) (r : Ride.t) : bool :=
  match Ride.driver r with
  | Some d' => Nat.eqb d' d
  | None => false
  end
  && status_eqb (Ride.status r) completed.

Definition aggregate_total (d : ObjectId) (l : list Ride.t) : list Q :=
  match filter (completed_by d) l with
  | [] => []
  | m => [Qsum (map (fun r => Ride.finalAmount (Ride.pricing r)) m)]
  end.

(** [totalEarnings[0]?.total || 0] *)
Definition availableAmount (totalEarnings : list Q) : Q :=
  match totalEarnings with
  | g :: _ => if Qeq_bool g 0 then 0 else g
  | [] => 0
  end.

(** [POST /withdraw]; [amount] is the number of the request body. *)
Definition withdraw_body (ctx : Ctx) (req_user : User.t) (amount : Q)
  : Handler Response :=
  if Qeq_bool amount 0 || Qle_bool amount 0
  then reply (error 400 "Invalid withdrawal amount")
  else
    totalEarnings <- gets (fun w => aggregate_total (User._id req_user) (rides w)) ;;
    if Qgt_bool amount (availableAmount totalEarnings)
    then reply (error 400 "Insufficient earnings for withdrawal")
    else
      Payment_create
        {| Payment._id := newId ctx;
           Payment.user := User._id req_user;
           Payment.type := "withdrawal";
           Payment.amount := amount;
           Payment.method := "bank_transfer";
           Payment.status := "pending";
           Payment.description := "Driver earnings withdrawal" |} ;;
      ret (success 200 "Withdrawal request submitted successfully"
             (WithdrawalRequested (newId ctx) amount "pending")).

Definition withdraw ctx req_user amount :=
  try_catch (withdraw_body ctx req_user amount)
            (error 500 "Failed to process withdrawal request").

End DriverRoutes.

(* ------------------------------------------------------------------ *)
(** ** The error names of the design document, as the replies of the code *)

Definition RideUnavailable : Response := error 400 "Ride is no longer available".
Definition VehicleMismatch : Response := error 400 "Vehicle type mismatch".
Definition AlreadyFinalized : Response :=
  error 400 "Cannot cancel completed or already cancelled ride".

Definition is_terminal (s : RideStatus) : bool :=
  status_eqb s completed || status_eqb s cancelled.

(* ------------------------------------------------------------------ *)
(** ** Reference notions of the design document *)

(** [y] is the multiple of [u] closest to [x], the larger one on a tie:
    rounding to 2 decimal places is [u = 1/100], to one place [u = 1/10]. *)
Definition nearest_multiple (u x y : Q) : Prop :=
  (exists n : Z, y == inject_Z n * u) /\
  y - u * (1 # 2) <= x /\ x < y + u * (1 # 2).

(** The vehicle classes of the rate table. *)
Definition known_class (c : string) : Prop := In c (map fst Fare.baseFares).

(** The rate table of section 4.3: base fare, rate per kilometre and rate
    per minute of a vehicle class.  A class that is not in the table has
    the rates of the default class, "Car".  Of a name every object
    inherits nothing is said. *)
Definition reference_rates (c : string) : option (Double.t * Double.t * Double.t) :=
  if String.eqb c "Bike"
  then Some (Double.of_Z 20, Double.of_Z 8, Double.of_Z 1)
  else if String.eqb c "Auto"
  then Some (Double.of_Z 30, Double.of_Z 12, Double.decimal 15 10)
  else if String.eqb c "Car"
  then Some (Double.of_Z 50, Double.of_Z 15, Double.of_Z 2)
  else if String.eqb c "Truck"
  then Some (Double.of_Z 100, Double.of_Z 25, Double.of_Z 3)
  else if is_inherited c then None
  else Some (Double.of_Z 50, Double.of_Z 15, Double.of_Z 2).

(** The fare of section 4.3 for given rates, every operation on doubles:
    the base fare as it is, and the distance fare, the time fare and the
    total each as [Math.round(v * 100) / 100] of its double [v]. *)
Definition reference_fare (rates : Double.t * Double.t * Double.t)
           (distance duration surge : Double.t) : Fare64.t :=
  let '(b, k, m) := rates in
  let cents (v : Double.t) : Double.t :=
    (Double.Math_round (v * Double.of_Z 100) / Double.of_Z 100)%double in
  {| Fare64.baseFare := Fare64.Num b;
     Fare64.distanceFare := cents (distance * k)%double;
     Fare64.timeFare := cents (duration * m)%double;
     Fare64.totalFare := cents ((b + distance * k + duration * m) * surge)%double;
     Fare64.surgeMultiplier := surge |}.

(** Arithmetic mean of a non-empty list of numbers. *)
Definition mean (l : list Q) : Q := Qsum l / inject_Z (Z.of_nat (List.length l)).

(** The ratings a driver has received: those of the completed rides of the
    driver that carry a user rating. *)
Definition ratings_received (d : ObjectId) (w : World) : list Q :=
  flat_map
    (fun r =>
       match Ride.driver r, Ride.status r, Ride.rating (Ride.userRating r) with
       | Some d', completed, Some q => if Nat.eqb d' d then [q] else []
       | _, _, _ => []
       end)
    (rides w).


(** The rating on a driver's profile. *)
Definition profile_rating (d : ObjectId) (w : World) : option Q :=
  option_map (fun u => User.rating (User.driverInfo u)) (find_doc User._id d (users w)).

(** The stored ride with a given id, and its status. *)
Definition ride_of (i : ObjectId) (w : World) : option Ride.t :=
  find_doc Ride._id i (rides w).

Definition status_of (i : ObjectId) (w : World) : option RideStatus :=
  option_map Ride.status (ride_of i w).

(** The earnings of a driver: the final amounts of the completed rides. *)
Definition earnings (d : ObjectId) (w : World) : Q :=
  Qsum (map (fun r => Ride.finalAmount (Ride.pricing r))
            (filter (DriverRoutes.completed_by d) (rides w))).

(** The sum of the withdrawals a driver has requested. *)
Definition withdrawn (d : ObjectId) (w : World) : Q :=
  Qsum (map Payment.amount
            (filter (fun p => Nat.eqb (Payment.user p) d
                              && String.eqb (Payment.type p) "withdrawal")
                    (payments w))).

(** A driver who passes the vehicle and availability checks of accept-ride
    for a ride. *)
Definition eligible (d : User.t) (r : Ride.t) : Prop :=
  Ride.rideType r = User.vehicleType (User.driverInfo d) /\
  User.isAvailable (User.driverInfo d) = true.

(** The calls that change documents. *)
Inductive Call :=
| CallRequest (ctx : Ctx) (u : User.t) (body : RideRoutes.RideRequest)
              (distanceResult : option Ride.Route)
| CallAccept (ctx : Ctx) (u : User.t) (rideId : ObjectId)
| CallCancel (ctx : Ctx) (u : User.t) (rideId : ObjectId) (reason : string)
| CallRate (ctx : Ctx) (u : User.t) (rideId : ObjectId)
           (rating : option Q) (feedback : option string)
| CallStatus (ctx : Ctx) (u : User.t) (rideId : ObjectId) (status : string)
| CallTrack (ctx : Ctx) (u : User.t) (rideId : ObjectId)
            (coordinates : Q * Q) (speed heading : Q)
| CallWithdraw (ctx : Ctx) (u : User.t) (amount : Q).

Definition perform (valid : option Q -> bool) (c : Call) (w : World)
  : World * Response :=
  match c with
  | CallRequest ctx u body dr => RideRoutes.request ctx u body dr w
  | CallAccept ctx u i => DriverRoutes.accept_ride ctx u i w
  | CallCancel ctx u i why => RideRoutes.cancel ctx u i why w
  | CallRate ctx u i q fb => RideRoutes.rate valid ctx u i q fb w
  | CallStatus ctx u i s => RideRoutes.update_status ctx u i s w
  | CallTrack ctx u i c sp hd => RideRoutes.track ctx u i c sp hd w
  | CallWithdraw ctx u a => DriverRoutes.withdraw ctx u a w
  end.

(** *** Concrete documents for the examples *)

Module Sample.

Definition place (a : string) (lat lng : Q) : Ride.Place :=
  {| Ride.address := a; Ride.coordinates := (lng, lat) |}.

Definition rider : User.t :=
  {| User._id := 1%nat; User.fullName := "Asha"; User.phone := "900"; User.role := "User";
     User.driverInfo :=
       {| User.vehicleType := ""; User.vehicleNumber := "";
          User.isAvailable := false; User.rating := 0 |} |}.

Definition car_driver (i : ObjectId) (name : string) : User.t :=
  {| User._id := i; User.fullName := name; User.phone := "901"; User.role := "Driver";
     User.driverInfo :=
       {| User.vehicleType := "Car"; User.vehicleNumber := "KA01";
          User.isAvailable := true; User.rating := 0 |} |}.

Definition dev : User.t := car_driver 10%nat "Dev".
Definition ravi : User.t := car_driver 11%nat "Ravi".

(** A ride of [rider] with a fare of 500. *)
Definition ride (i : ObjectId) (s : RideStatus) (d : option ObjectId)
           (stars : option Q) : Ride.t :=
  {| Ride._id := i; Ride.user := 1%nat; Ride.driver := d; Ride.rideType := "Car";
     Ride.pickup := place "A" 12.9 77.6;
     Ride.destination := place "B" 12.95 77.65;
     Ride.route := {| Ride.distance := 6.2; Ride.duration := 18 |};
     Ride.pricing :=
       {| Ride.baseFare := 50; Ride.distanceFare := 93; Ride.timeFare := 36;
          Ride.totalFare := 500; Ride.finalAmount := 500 |};
     Ride.passengers := 1%nat; Ride.scheduledTime := None;
     Ride.payment := {| Ride.method := "cash"; Ride.payment_status := "pending" |};
     Ride.status := s; Ride.actualPickupTime := None;
     Ride.userRating :=
       {| Ride.rating := stars; Ride.feedback := None; Ride.date := None |};
     Ride.tracking := []; Ride.cancellation := None |}.

Definition world (l : list Ride.t) : World :=
  {| rides := l; users := [rider; dev; ravi]; payments := [];
     notifications := []; emitted := [] |}.

Definition ctx : Ctx := {| now := 7%nat; io := true; newId := 200%nat |}.

Definition car_request : RideRoutes.RideRequest :=
  {| RideRoutes.rideType := "Car";
     RideRoutes.pickup := place "A" 12.9 77.6;
     RideRoutes.destination := place "B" 12.95 77.65;
     RideRoutes.passengers := 1%nat;
     RideRoutes.scheduledTime := None;
     RideRoutes.paymentMethod := "cash" |}.

(** The schema validator of the examples: one to five stars. *)
Definition stars_1_to_5 (v : option Q) : bool :=
  match v with
  | Some q => Qle_bool 1 q && Qle_bool q 5
  | None => false
  end.

(** A validator of the kind Mongoose runs for [min] and [max]: it looks at
    a rating that is there and lets an absent one pass, as it must for the
    rides [POST /request] saves, which carry none. *)
Definition stars_if_any (v : option Q) : bool :=
  match v with
  | Some q => Qle_bool 1 q && Qle_bool q 5
  | None => true
  end.

End Sample.

(* ------------------------------------------------------------------ *)
(** ** Queries: sorting, paging and populated paths *)

(** [Math.ceil(x)] *)
Definition Math_ceil (x : Q) : Z := Qceiling x.

(** [.sort({ createdAt: -1 })].  The [createdAt] stamp of a ride is set by
    the schema of models/Ride.js (absent); it is a parameter of every
    query that sorts. *)
Fixpoint insert_newest (createdAt : Ride.t -> Time) (x : Ride.t) (l : list Ride.t)
  : list Ride.t :=
  match l with
  | [] => [x]
  | y :: t =>
      if Nat.leb (createdAt y) (createdAt x) then x :: y :: t
      else y :: insert_newest createdAt x t
  end.

Fixpoint sort_newest (createdAt : Ride.t -> Time) (l : list Ride.t) : list Ride.t :=
  match l with
  | [] => []
  | x :: t => insert_newest createdAt x (sort_newest createdAt t)
  end.

(** [.skip((page - 1) * limit).limit(parseInt(limit))] for a page number and
    a page size that are positive integers. *)
Definition page_of (A : Type) (page limit : positive) (l : list A) : list A :=
  firstn (Pos.to_nat limit) (skipn ((Pos.to_nat page - 1) * Pos.to_nat limit) l).

(** [pagination: { current, pages: Math.ceil(total / limit), total }] *)
Record Pagination := { current : positive; pages : Z; total : nat }.

Definition pagination_of (page limit : positive) (n : nat) : Pagination :=
  {| current := page;
     pages := Math_ceil (inject_Z (Z.of_nat n) / inject_Z (Zpos limit));
     total := n |}.

(** [.populate(path, fields)]: the user a path refers to, [null] when the
    path is empty or the user is gone. *)
Definition populate (w : World) (ref : option ObjectId) : option User.t :=
  match ref with
  | Some i => find_doc User._id i (users w)
  | None => None
  end.

(** A route that answers 200 with documents: the data of that reply, or
    the error reply. *)
Definition try_catch_data (A : Type) (body : Handler A) (onError : Response)
  : World -> World * (Response + A) :=
  fun w =>
    match body w with
    | (w', Return a) => (w', inr a)
    | (w', Replied r) => (w', inl r)
    | (w', Thrown) => (w', inl onError)
    end.

(** [if (status) { filter.status = status }] on the query string. *)
Definition matches_status (status : option string) (r : Ride.t) : bool :=
  match status with
  | None => true
  | Some s => if String.eqb s "" then true else String.eqb (status_name (Ride.status r)) s
  end.

(** ** The read routes of routes/ride.js *)

Module RideQueries.

(** A ride with [user] and [driver] populated. *)
Record Details := {
  doc : Ride.t;
  requester : User.t;
  assigned : option User.t
}.

(** [GET /:rideId].  A ride whose requester is gone has [ride.user] null
    and the access check throws. *)
Definition details_body (req_user : User.t) (rideId : ObjectId) : Handler Details :=
  found <- Ride_findById rideId ;;
  match found with
  | None => reply (error 404 "Ride not found")
  | Some ride =>
      ride_user <- gets (fun w => populate w (Some (Ride.user ride))) ;;
      ride_driver <- gets (fun w => populate w (Ride.driver ride)) ;;
      match ride_user with
      | None => throw
      | Some ru =>
          if differs (User._id ru) (User._id req_user)
             && match ride_driver with
                | None => true
                | Some rd => differs (User._id rd) (User._id req_user)
                end
          then reply (error 403 "Unauthorized access to ride")
          else ret {| doc := ride; requester := ru; assigned := ride_driver |}
      end
  end.

Definition details req_user rideId :=
  try_catch_data (details_body req_user rideId) (error 500 "Failed to get ride details").

Definition activeStatuses : list string :=
  ["searching"; "accepted"; "arrived"; "started"].

(** The filter of [GET /current/active]. *)
Definition active_of (u : ObjectId) (r : Ride.t) : bool :=
  Nat.eqb (Ride.user r) u && includes activeStatuses (status_name (Ride.status r)).

(** [GET /current/active]: [findOne] answers the first match. *)
Definition current_active_body (req_user : User.t)
  : Handler (Ride.t * option User.t) :=
  found <- gets (fun w => find (active_of (User._id req_user)) (rides w)) ;;
  match found with
  | None => reply (error 404 "No active ride found")
  | Some ride =>
      ride_driver <- gets (fun w => populate w (Ride.driver ride)) ;;
      ret (ride, ride_driver)
  end.

Definition current_active req_user :=
  try_catch_data (current_active_body req_user) (error 500 "Failed to get current ride").

(** The filter of [GET /history]. *)
Definition history_filter (u : ObjectId) (status : option string) (r : Ride.t) : bool :=
  Nat.eqb (Ride.user r) u && matches_status status r.

Record HistoryPage := {
  rides_of_page : list (Ride.t * option User.t);
  pagination : Pagination
}.

(** [GET /history], with [page] and [limit] as [validatePagination] lets
    them through: positive integers. *)
Definition history_body (createdAt : Ride.t -> Time) (req_user : User.t)
           (page limit : positive) (status : option string) : Handler HistoryPage :=
  found <- gets (fun w =>
             map (fun r => (r, populate w (Ride.driver r)))
                 (page_of page limit
                    (sort_newest createdAt
                       (filter (history_filter (User._id req_user) status) (rides w))))) ;;
  n <- gets (fun w =>
         List.length (filter (history_filter (User._id req_user) status) (rides w))) ;;
  ret {| rides_of_page := found; pagination := pagination_of page limit n |}.

Definition history createdAt req_user page limit status :=
  try_catch_data (history_body createdAt req_user page limit status)
                 (error 500 "Failed to get ride history").

End RideQueries.

(** ** The other driver routes *)

Module DriverQueries.

(** [PATCH /availability] *)
Definition availability_body (req_user : User.t) (isAvailable : bool)
  : Handler Response :=
  User_update (User._id req_user) (User.set_isAvailable isAvailable) ;;
  ret {| http := 200; status := "success";
         message := "Driver " ++ (if isAvailable then "available" else "unavailable")
                              ++ " successfully";
         data := NoData |}.

Definition availability req_user isAvailable :=
  try_catch (availability_body req_user isAvailable)
            (error 500 "Failed to update availability").

(** The filter of [GET /ride-requests].  [near lat lng radius] is the
    store's [$near] test with [$maxDistance], on the pickup of a ride. *)
Definition open_request (near : Q -> Q -> Q -> Ride.Place -> bool)
           (req_user : User.t) (lat lng radius : Q) (r : Ride.t) : bool :=
  status_eqb (Ride.status r) pending
  && String.eqb (Ride.rideType r) (User.vehicleType (User.driverInfo req_user))
  && near lat lng radius (Ride.pickup r).

Record RideRequests := {
  rideRequests : list (Ride.t * option User.t);
  count : nat
}.

(** [GET /ride-requests].  [lat] and [lng] are the query parameters,
    [None] when absent or empty. *)
Definition ride_requests_body (createdAt : Ride.t -> Time)
           (near : Q -> Q -> Q -> Ride.Place -> bool) (req_user : User.t)
           (lat lng : option Q) (radius : Q) : Handler RideRequests :=
  match lat, lng with
  | Some la, Some ln =>
      found <- gets (fun w =>
                 map (fun r => (r, populate w (Some (Ride.user r))))
                     (firstn 20
                        (sort_newest createdAt
                           (filter (open_request near req_user la ln radius) (rides w))))) ;;
      ret {| rideRequests := found; count := List.length found |}
  | _, _ => reply (error 400 "Current location is required")
  end.

Definition ride_requests createdAt near req_user lat lng radius :=
  try_catch_data (ride_requests_body createdAt near req_user lat lng radius)
                 (error 500 "Failed to get ride requests").

(** The filter of [GET /rides]. *)
Definition rides_filter (d : ObjectId) (status : option string) (r : Ride.t) : bool :=
  match Ride.driver r with
  | Some d' => Nat.eqb d' d
  | None => false
  end
  && matches_status status r.

Record RidesPage := {
  rides_of_page : list (Ride.t * option User.t);
  pagination : Pagination
}.

(** [GET /rides]: the driver's ride history. *)
Definition rides_body (createdAt : Ride.t -> Time) (req_user : User.t)
           (page limit : positive) (status : option string) : Handler RidesPage :=
  found <- gets (fun w =>
             map (fun r => (r, populate w (Some (Ride.user r))))
                 (page_of page limit
                    (sort_newest createdAt
                       (filter (rides_filter (User._id req_user) status) (rides w))))) ;;
  n <- gets (fun w =>
         List.length (filter (rides_filter (User._id req_user) status) (rides w))) ;;
  ret {| rides_of_page := found; pagination := pagination_of page limit n |}.

Definition rides_history createdAt req_user page limit status :=
  try_catch_data (rides_body createdAt req_user page limit status)
                 (error 500 "Failed to get ride history").

(** The filter of [GET /current-ride]. *)
Definition current_of (d : ObjectId) (r : Ride.t) : bool :=
  match Ride.driver r with
  | Some d' => Nat.eqb d' d
  | None => false
  end
  && includes ["accepted"; "arrived"; "started"] (status_name (Ride.status r)).

(** [GET /current-ride] *)
Definition current_ride_body (req_user : User.t) : Handler (Ride.t * option User.t) :=
  found <- gets (fun w => find (current_of (User._id req_user)) (rides w)) ;;
  match found with
  | None => reply (error 404 "No current ride found")
  | Some ride =>
      ride_user <- gets (fun w => populate w (Some (Ride.user ride))) ;;
      ret (ride, ride_user)
  end.

Definition current_ride req_user :=
  try_catch_data (current_ride_body req_user) (error 500 "Failed to get current ride").

End DriverQueries.

(** ** Socket.IO handlers: availability and disconnect *)

Module Sockets.

Inductive SocketRoom := Drivers | Admins | UserChannel (u : ObjectId) | RideChannel (r : ObjectId).

(** Who receives an emission: the socket itself ([socket.emit]), a room
    without the sender ([socket.to(room).emit]), everyone but the sender
    ([socket.broadcast.emit]). *)
Inductive Target :=
| ToSelf
| ToRoomButSelf (room : SocketRoom)
| ToAllButSelf.

Record Emission := { target : Target; name : string }.

(** A connected socket: [socket.user] is the user as the handshake loaded
    it. *)
Record Socket := { user : User.t }.

Definition userId (s : Socket) : ObjectId := User._id (user s).

Definition is_driver (s : Socket) : bool := String.eqb (User.role (user s)) "Driver".

(** [socket.on('update-availability')] *)
Definition on_update_availability (s : Socket) (isAvailable : bool) (w : World)
  : World * list Emission :=
  if negb (is_driver s)
  then (w, [{| target := ToSelf; name := "error" |}])
  else
    (set_users (update_doc User._id (userId s) (User.set_isAvailable isAvailable) (users w)) w,
     [{| target := ToAllButSelf; name := "driver-availability-update" |}]).

(** The paths [isOnline] and [lastSeen] of the user documents.  [User.t]
    holds the paths the routes read; these two are written by the socket
    alone and are kept beside it, by [_id], the latest write first. *)
Record Presence := { isOnline : bool; lastSeen : Time }.

Record Store := { documents : World; presence : list (ObjectId * Presence) }.

Definition presence_of (i : ObjectId) (st : Store) : option Presence :=
  option_map snd (find (fun e => Nat.eqb (fst e) i) (presence st)).

(** [User.findByIdAndUpdate(id, { isOnline, lastSeen })]: nothing is
    written when no user has the id. *)
Definition User_update_presence (i : ObjectId) (p : Presence) (st : Store) : Store :=
  match find_doc User._id i (users (documents st)) with
  | Some _ => {| documents := documents st; presence := (i, p) :: presence st |}
  | None => st
  end.

(** [socket.on('disconnect')]: every user goes offline at the time of the
    event, and a driver is made unavailable as well. *)
Definition on_disconnect (s : Socket) (now : Time) (st : Store)
  : Store * list Emission :=
  let st1 :=
    User_update_presence (userId s) {| isOnline := false; lastSeen := now |} st in
  if is_driver s
  then ({| documents :=
             set_users (update_doc User._id (userId s) (User.set_isAvailable false)
                                   (users (documents st1)))
                       (documents st1);
           presence := presence st1 |}, [])
  else (st1, []).

End Sockets.

(** *** Reference notions for the further properties *)

(** Every document of the collection has its own [_id]. *)
Definition unique_ids (w : World) : Prop := NoDup (map Ride._id (rides w)).

(** Newest first. *)
Definition newest_first (createdAt : Ride.t -> Time) (l : list Ride.t) : Prop :=
  StronglySorted (fun a b => (createdAt b <= createdAt a)%nat) l.

(** A reply in the 4xx range. *)
Definition refused (r : Response) : Prop := (400 <= http r /\ http r < 500)%nat.

(** The creation stamps of the examples: the id. *)
Definition Sample_createdAt (r : Ride.t) : Time := Ride._id r.

(** *** Proof steps used throughout *)

(** Division by the constants of the rounding idiom, as a product. *)
Ltac qdiv :=
  unfold Qdiv; change (/ 100) with (1 # 100); change (/ 10) with (1 # 10).

(** Unfold the handler monad and the store operations. *)
Ltac run_handler :=
  unfold try_catch, bind, Ride_findById, Ride_save, Ride_create, User_findById,
    User_update, Payment_create, Notification_create, emit, gets, modify, ret,
    reply, throw.

(** A reply of the 200 range is not a refusal. *)
Ltac not_refused :=
  match goal with
  | H : refused _ |- _ =>
      exfalso; unfold refused in H; simpl in H; lia
  end.

(* ================================================================== *)
(** * Properties *)

Unset Implicit Arguments.

(** ** Basic facts *)

Lemma status_eqb_eq (a b : RideStatus) : status_eqb a b = true <-> a = b.
Proof.
  destruct a, b; vm_compute; split; intro H; try reflexivity; discriminate H.
Qed.

Lemma status_eqb_refl (a : RideStatus) : status_eqb a a = true.
Proof. apply status_eqb_eq; reflexivity. Qed.

Lemma status_eqb_neq (a b : RideStatus) : status_eqb a b = false <-> a <> b.
Proof.
  split.
  - intros H E. apply status_eqb_eq in E. congruence.
  - intro H. destruct (status_eqb a b) eqn:E; [apply status_eqb_eq in E; contradiction | reflexivity].
Qed.

Lemma is_terminal_iff (s : RideStatus) :
  is_terminal s = true <-> s = completed \/ s = cancelled.
Proof.
  unfold is_terminal. rewrite orb_true_iff, !status_eqb_eq. reflexivity.
Qed.

Lemma Qle_bool_false (a b : Q) : Qle_bool a b = false <-> b < a.
Proof.
  split.
  - intro H. apply Qnot_le_lt. intro L. apply Qle_bool_iff in L. congruence.
  - intro H. destruct (Qle_bool a b) eqn:E; [| reflexivity].
    apply Qle_bool_iff in E. apply Qlt_not_le in H. contradiction.
Qed.

Lemma Math_round_bounds (x : Q) :
  Math_round x - (1 # 2) <= x /\ x < Math_round x + (1 # 2).
Proof.
  unfold Math_round.
  pose proof (Qfloor_le (x + (1 # 2))) as Hle.
  pose proof (Qlt_floor (x + (1 # 2))) as Hlt.
  rewrite inject_Z_plus in Hlt. change (inject_Z 1) with 1 in Hlt.
  set (n := inject_Z (Qfloor (x + (1 # 2)))) in *.
  clearbody n. split; lra.
Qed.

Lemma round_cents (x : Q) :
  nearest_multiple (1 # 100) x (Math_round (x * 100) / 100).
Proof.
  unfold nearest_multiple. split.
  - exists (Qfloor (x * 100 + (1 # 2))). reflexivity.
  - destruct (Math_round_bounds (x * 100)) as [H1 H2].
    set (m := Math_round (x * 100)) in *.
    clearbody m. qdiv. split; lra.
Qed.


(** Rounding to a multiple of [u] has one answer. *)
Lemma nearest_multiple_unique (u x y y' : Q) :
  0 < u -> nearest_multiple u x y -> nearest_multiple u x y' -> y == y'.
Proof.
  intros Hu [[n Hn] [H1 H2]] [[n' Hn'] [H1' H2']].
  assert (Hd : inject_Z n * u - inject_Z n' * u < u) by lra.
  assert (Hd' : inject_Z n' * u - inject_Z n * u < u) by lra.
  assert (n = n')%Z.
  { assert (inject_Z n < inject_Z n' + 1) as A by nra.
    assert (inject_Z n' < inject_Z n + 1) as B by nra.
    change 1 with (inject_Z 1) in A, B. rewrite <- inject_Z_plus in A, B.
    rewrite <- Zlt_Qlt in A, B. lia. }
  subst. lra.
Qed.

(** ** Doubles *)

(** The arithmetic of the language on a few known cases: 0.1 + 0.2 is
    above 0.3 and is not the double 0.3, which is below it; a tie is
    rounded towards plus infinity; the double just below 0.5 is rounded
    to 0. *)
Example double_arithmetic :
  3 # 10 < Double.value (Double.decimal 1 10 + Double.decimal 2 10)%double /\
  Double.value (Double.decimal 3 10) < 3 # 10 /\
  Double.Math_round (Double.decimal 25 10) = Double.of_Z 3 /\
  Double.Math_round (Double.decimal (-25) 10) = Double.of_Z (-2) /\
  Double.Math_round (S754_finite false 9007199254740991 (-54)) = S754_zero false /\
  Double.Math_round (Double.decimal (-4) 10) = S754_zero true /\
  Double.value (Double.decimal 15 10) == 1.5.
Proof.
  repeat split; vm_compute; reflexivity.
Qed.

(** ** The fare engine *)

Lemma rates_for_table (c : string) :
  In (Fare.rates_for c) (map snd Fare.baseFares).
Proof.
  unfold Fare.rates_for.
  destruct (Fare.lookup c Fare.baseFares) as [r |] eqn:L.
  - revert L. generalize Fare.baseFares. intro o.
    induction o as [| [k v] rest IH]; simpl; [discriminate |].
    destruct (String.eqb c k); intro H; [injection H as ->; auto | auto].
  - simpl. auto.
Qed.

Lemma base_in_cents (c : string) :
  nearest_multiple (1 # 100) (Fare.base (Fare.rates_for c)) (Fare.base (Fare.rates_for c)).
Proof.
  pose proof (rates_for_table c) as H. simpl in H.
  unfold nearest_multiple.
  destruct H as [H | [H | [H | [H | []]]]]; rewrite <- H; simpl.
  - split; [exists 2000%Z; reflexivity | split; lra].
  - split; [exists 3000%Z; reflexivity | split; lra].
  - split; [exists 5000%Z; reflexivity | split; lra].
  - split; [exists 10000%Z; reflexivity | split; lra].
Qed.

(** The two rate tables hold the same numbers. *)
Example rate_tables_agree :
  map (fun e => (fst e, Qred (Double.value (Fare64.base (snd e))),
                 Qred (Double.value (Fare64.perKm (snd e))),
                 Qred (Double.value (Fare64.perMin (snd e)))))
      Fare64.baseFares
  = map (fun e => (fst e, Qred (Fare.base (snd e)), Qred (Fare.perKm (snd e)),
                   Qred (Fare.perMin (snd e))))
        Fare.baseFares.
Proof. reflexivity. Qed.

Lemma rates_for_reference (c : string) (b k m : Double.t) :
  reference_rates c = Some (b, k, m) ->
  Fare64.rates_for c
  = Some {| Fare64.base := b; Fare64.perKm := k; Fare64.perMin := m |}.
Proof.
  unfold reference_rates, Fare64.rates_for. cbn [Fare64.baseFares Fare.lookup].
  destruct (String.eqb c "Bike") eqn:E1; [intro H; injection H as <- <- <-; reflexivity |].
  destruct (String.eqb c "Auto") eqn:E2; [intro H; injection H as <- <- <-; reflexivity |].
  destruct (String.eqb c "Car") eqn:E3; [intro H; injection H as <- <- <-; reflexivity |].
  destruct (String.eqb c "Truck") eqn:E4; [intro H; injection H as <- <- <-; reflexivity |].
  destruct (is_inherited c); [discriminate |].
  intro H; injection H as <- <- <-; reflexivity.
Qed.

(** For a vehicle type that is not an inherited name the lookup of the
    language finds rates, and they are the numbers the handlers compute
    with. *)
Lemma rates_for_agree (c : string) :
  is_inherited c = false ->
  exists r, Fare64.rates_for c = Some r
            /\ Double.value (Fare64.base r) == Fare.base (Fare.rates_for c)
            /\ Double.value (Fare64.perKm r) == Fare.perKm (Fare.rates_for c)
            /\ Double.value (Fare64.perMin r) == Fare.perMin (Fare.rates_for c).
Proof.
  intro N. unfold Fare64.rates_for, Fare.rates_for.
  cbn [Fare64.baseFares Fare.baseFares Fare.lookup].
  destruct (String.eqb c "Bike");
    [eexists; split; [reflexivity | repeat split; vm_compute; reflexivity] |].
  destruct (String.eqb c "Auto");
    [eexists; split; [reflexivity | repeat split; vm_compute; reflexivity] |].
  destruct (String.eqb c "Car");
    [eexists; split; [reflexivity | repeat split; vm_compute; reflexivity] |].
  destruct (String.eqb c "Truck");
    [eexists; split; [reflexivity | repeat split; vm_compute; reflexivity] |].
  rewrite N. eexists; split; [reflexivity | repeat split; vm_compute; reflexivity].
Qed.

(** C6 (as the code has it). [calculateFare] is the fare function of
    section 4.3 evaluated in double arithmetic.  The rates are those of
    the table (Bike 20, 8, 1; Auto 30, 12, 1.5; Car 50, 15, 2; Truck 100,
    25, 3) for a class of the table and those of "Car" for any other class
    that is not the name of an inherited property; the base fare is the
    class's base rate, and the distance fare, the time fare and the total
    are [Math.round(v * 100) / 100] for [v] the doubles
    [distance * perKm], [duration * perMin] and
    [(base + distance * perKm + duration * perMin) * surge].  The result
    is a function of the four inputs. *)
Theorem calculateFare_is_the_reference_in_doubles
        (distance duration surge : Double.t) (vehicleType : string)
        (rates : Double.t * Double.t * Double.t) :
  reference_rates vehicleType = Some rates ->
  Fare64.calculateFare distance duration vehicleType surge
  = reference_fare rates distance duration surge.
Proof.
  destruct rates as [[b k] m]. intro H.
  unfold Fare64.calculateFare. rewrite (rates_for_reference _ _ _ _ H).
  reflexivity.
Qed.

Lemma calculateFare_is_the_reference_in_doubles_witness :
  Fare64.calculateFare (Double.decimal 62 10) (Double.of_Z 18) "Van" (Double.of_Z 1)
  = reference_fare (Double.of_Z 50, Double.of_Z 15, Double.of_Z 2)
                   (Double.decimal 62 10) (Double.of_Z 18) (Double.of_Z 1).
Proof.
  apply (calculateFare_is_the_reference_in_doubles
           (Double.decimal 62 10) (Double.of_Z 18) (Double.of_Z 1) "Van").
  reflexivity.
Defined.

(** C6, counterexample. 5.001 km and 15 minutes in a "Car" at surge 1.
    The fare of these inputs is [50 + 5.001 * 15 + 15 * 2], a little above
    155.015, and its rounding to 2 decimal places is 155.02.  The double
    sum is a little below 155.015 and [calculateFare] returns 155.01. *)
Lemma calculateFare_total_one_cent_off :
  let distance := Double.decimal 5001 1000 in
  let duration := Double.of_Z 15 in
  let f := Fare64.calculateFare distance duration "Car" (Double.of_Z 1) in
  let exact := (50 + Double.value distance * 15 + Double.value duration * 2) * 1 in
  Double.is_double distance = true /\
  Double.is_double duration = true /\
  nearest_multiple (1 # 100) exact (15502 # 100) /\
  Fare64.totalFare f = Double.decimal 15501 100 /\
  Fare64.totalFare f <> Double.decimal 15502 100.
Proof.
  cbv zeta. split; [| split; [| split; [| split]]].
  - vm_compute. reflexivity.
  - vm_compute. reflexivity.
  - split; [exists 15502%Z; reflexivity |].
    split; vm_compute; [discriminate | reflexivity].
  - vm_compute. reflexivity.
  - vm_compute. discriminate.
Qed.

(** The trip of the design document, 6.2 km and 18 minutes in a "Car":
    50, 93, 36 and 179. *)
Example calculateFare_6_2_km_18_min :
  let f := Fare64.calculateFare (Double.decimal 62 10) (Double.of_Z 18) "Car"
                                (Double.of_Z 1) in
  Fare64.baseFare f = Fare64.Num (Double.of_Z 50) /\
  Fare64.distanceFare f = Double.of_Z 93 /\
  Fare64.timeFare f = Double.of_Z 36 /\
  Fare64.totalFare f = Double.of_Z 179.
Proof. cbv zeta. repeat split; vm_compute; reflexivity. Qed.

(** A name every object inherits is no vehicle class and gets no fallback:
    the lookup finds the inherited member, the base fare is [undefined]
    and the other components are NaN. *)
Example calculateFare_of_an_inherited_name :
  let f := Fare64.calculateFare (Double.decimal 62 10) (Double.of_Z 18)
                                "constructor" (Double.of_Z 1) in
  ~ known_class "constructor" /\
  Fare64.baseFare f = Fare64.undefined /\
  Fare64.distanceFare f = Double.NaN /\
  Fare64.timeFare f = Double.NaN /\
  Fare64.totalFare f = Double.NaN.
Proof.
  cbv zeta. split.
  - unfold known_class. simpl. intuition discriminate.
  - repeat split; vm_compute; reflexivity.
Qed.

(** ** Ride creation *)

(** C3 (as the code has it). A successful ride request with route estimate
    [est] and vehicle class [rideType body] appends one ride to the
    collection; its [pricing.finalAmount] is the total of
    [calculateFare] at surge 1, it has no driver and its status is
    [pending]; the offer is then broadcast ([new-ride-request]) when the
    Socket.IO server is attached, and the ride is still [pending] after
    that: the reply, built after the broadcast, reports [pending]. *)
Theorem request_persists_fare_and_pending
        (ctx : Ctx) (u : User.t) (body : RideRoutes.RideRequest)
        (est : Ride.Route) (w : World) :
  let fare :=
    Fare.calculateFare (Ride.distance est) (Ride.duration est)
                       (RideRoutes.rideType body) 1 in
  exists ride : Ride.t,
    RideRoutes.request ctx u body (Some est) w =
      (set_emitted
         (emitted w ++
          (if io ctx
           then [{| room := Everyone; event := "new-ride-request"; about := newId ctx |}]
           else []))
         (set_rides (rides w ++ [ride]) w),
       success 201 "Ride request created successfully"
         (RideCreated (newId ctx) pending (Fare.totalFare fare)
                      (Ride.distance est) (Ride.duration est)))
    /\ Ride._id ride = newId ctx
    /\ Ride.user ride = User._id u
    /\ Ride.driver ride = None
    /\ Ride.finalAmount (Ride.pricing ride) = Fare.totalFare fare
    /\ Ride.status ride = pending.
Proof.
  cbv zeta. eexists. split.
  - unfold RideRoutes.request, RideRoutes.request_body, try_catch, bind,
      Ride_create, emit, modify, ret. simpl.
    destruct (io ctx); simpl.
    + reflexivity.
    + unfold set_emitted, set_rides; simpl. rewrite app_nil_r. reflexivity.
  - simpl. repeat split; reflexivity.
Qed.

(** C3, counterexample. For the ride of section 8 (6.2 km, 18 min, "Car"),
    once the handler has broadcast the offer the collection holds no ride
    in [searching]: the ride it created is in [pending]. *)
Lemma request_not_searching_after_dispatch :
  let w' := fst (RideRoutes.request Sample.ctx Sample.rider Sample.car_request
                   (Some {| Ride.distance := 6.2; Ride.duration := 18 |})
                   (Sample.world [])) in
  map event (emitted w') = ["new-ride-request"] /\
  map Ride.status (rides w') = [pending] /\
  ~ (exists ride, In ride (rides w') /\ Ride.status ride = searching).
Proof.
  cbv zeta. split; [reflexivity | split; [reflexivity |]].
  intros [ride [I S]]. simpl in I. destruct I as [I | []].
  rewrite <- I in S. discriminate S.
Qed.

(** ** Accepting a ride *)

Lemma accept_ride_found (ctx : Ctx) (d : User.t) (i : ObjectId) (w : World)
      (ride : Ride.t) :
  ride_of i w = Some ride ->
  DriverRoutes.accept_ride ctx d i w =
    try_catch (DriverRoutes.accept_resume ctx d (Some ride))
              (error 500 "Failed to accept ride") w.
Proof.
  intro F. unfold DriverRoutes.accept_ride, DriverRoutes.accept_ride_body,
    try_catch, bind, Ride_findById, gets.
  unfold ride_of in F. rewrite F. reflexivity.
Qed.

(** C2 (as the code has it). An accept-ride call on a stored ride is
    refused with RideUnavailable exactly when the ride's status is not
    [pending] (a ride in [searching] is refused too), and with
    VehicleMismatch exactly when the status is [pending] and the driver's
    vehicle type differs from the ride's type. *)
Theorem accept_ride_refusals (ctx : Ctx) (d : User.t) (i : ObjectId) (w : World)
        (ride : Ride.t) :
  ride_of i w = Some ride ->
  let resp := snd (DriverRoutes.accept_ride ctx d i w) in
  (resp = RideUnavailable <-> Ride.status ride <> pending) /\
  (resp = VehicleMismatch <->
   Ride.status ride = pending /\
   Ride.rideType ride <> User.vehicleType (User.driverInfo d)).
Proof.
  intro F. cbv zeta. rewrite (accept_ride_found ctx d i w ride F).
  unfold try_catch, DriverRoutes.accept_resume, RideUnavailable, VehicleMismatch.
  destruct (status_eqb (Ride.status ride) pending) eqn:S; simpl.
  - apply status_eqb_eq in S.
    destruct (String.eqb (Ride.rideType ride) (User.vehicleType (User.driverInfo d))) eqn:V; simpl.
    + apply String.eqb_eq in V.
      destruct (User.isAvailable (User.driverInfo d)); simpl.
      * unfold bind, Ride_save, User_update, Notification_create, emit, modify, ret.
        destruct (io ctx); simpl; split; split; intro H;
          try discriminate H; try tauto; destruct H; tauto.
      * split; split; intro H; try discriminate H; try tauto; destruct H; tauto.
    + apply String.eqb_neq in V.
      split; split; intro H; try discriminate H; try tauto.
  - apply status_eqb_neq in S.
    split; split; intro H; try discriminate H; try tauto; destruct H; tauto.
Qed.

Lemma accept_ride_refusals_witness :
  (snd (DriverRoutes.accept_ride Sample.ctx Sample.dev 100
          (Sample.world [Sample.ride 100 accepted (Some 11%nat) None]))
   = RideUnavailable
   <-> accepted <> pending) /\
  (snd (DriverRoutes.accept_ride Sample.ctx Sample.dev 100
          (Sample.world [Sample.ride 100 accepted (Some 11%nat) None]))
   = VehicleMismatch
   <-> accepted = pending /\ "Car" <> "Car").
Proof.
  apply (accept_ride_refusals Sample.ctx Sample.dev 100
           (Sample.world [Sample.ride 100 accepted (Some 11%nat) None])
           (Sample.ride 100 accepted (Some 11%nat) None)).
  reflexivity.
Defined.

(** C2, counterexample. A ride in [searching] cannot be claimed: the call
    of an available driver with the right vehicle is answered
    RideUnavailable and the ride stays as it was. *)
Lemma accept_ride_refuses_searching :
  let w := Sample.world [Sample.ride 100 searching None None] in
  status_of 100 w = Some searching /\
  snd (DriverRoutes.accept_ride Sample.ctx Sample.dev 100 w) = RideUnavailable /\
  fst (DriverRoutes.accept_ride Sample.ctx Sample.dev 100 w) = w.
Proof. cbv zeta. repeat split. Qed.

(** ** Collections *)

Lemma find_doc_In {A : Type} (key : A -> ObjectId) (i : ObjectId) (l : list A) (x : A) :
  find_doc key i l = Some x -> In x l /\ key x = i.
Proof.
  induction l as [| y t IH]; simpl; [discriminate |].
  destruct (Nat.eqb (key y) i) eqn:E.
  - intro H. injection H as ->. apply Nat.eqb_eq in E. auto.
  - intro H. destruct (IH H). auto.
Qed.

Lemma find_update_same {A : Type} (key : A -> ObjectId) (i : ObjectId)
      (f : A -> A) (l : list A) (x : A) :
  key (f x) = key x ->
  find_doc key i l = Some x ->
  find_doc key i (update_doc key i f l) = Some (f x).
Proof.
  intro K. induction l as [| y t IH]; simpl; [discriminate |].
  destruct (Nat.eqb (key y) i) eqn:E.
  - intro H. injection H as ->. simpl. rewrite K, E. reflexivity.
  - intro H. simpl. rewrite E. auto.
Qed.

Lemma find_update_other {A : Type} (key : A -> ObjectId) (i j : ObjectId)
      (f : A -> A) (l : list A) :
  (forall x, key (f x) = key x) ->
  i <> j ->
  find_doc key i (update_doc key j f l) = find_doc key i l.
Proof.
  intros K N. induction l as [| y t IH]; simpl; [reflexivity |].
  destruct (Nat.eqb (key y) j) eqn:E; simpl.
  - rewrite K. apply Nat.eqb_eq in E.
    destruct (Nat.eqb (key y) i) eqn:E'; [| reflexivity].
    apply Nat.eqb_eq in E'. congruence.
  - rewrite IH. reflexivity.
Qed.

Lemma update_doc_absent {A : Type} (key : A -> ObjectId) (i : ObjectId)
      (f : A -> A) (l : list A) :
  find_doc key i l = None -> update_doc key i f l = l.
Proof.
  induction l as [| y t IH]; simpl; [reflexivity |].
  destruct (Nat.eqb (key y) i); [discriminate |].
  intro H. rewrite IH; auto.
Qed.


(** An update that leaves the document it meets as it is leaves the
    collection as it is. *)
Lemma update_doc_fixed {A : Type} (key : A -> ObjectId) (i : ObjectId)
      (f : A -> A) (l : list A) (x : A) :
  find_doc key i l = Some x -> f x = x -> update_doc key i f l = l.
Proof.
  induction l as [| y t IH]; simpl; [reflexivity |].
  destruct (Nat.eqb (key y) i).
  - intros H E. injection H as ->. rewrite E. reflexivity.
  - intros H E. rewrite (IH H E). reflexivity.
Qed.

Lemma terminal_includes (s : RideStatus) :
  includes ["completed"; "cancelled"] (status_name s) = is_terminal s.
Proof. destruct s; reflexivity. Qed.

Lemma trackable_includes (s : RideStatus) :
  includes ["started"; "completed"] (status_name s)
  = (status_eqb s started || status_eqb s completed).
Proof. destruct s; reflexivity. Qed.

Lemma Math_min_Qmin (x y : Q) : Math_min x y == Qmin x y.
Proof.
  unfold Math_min. destruct (Qle_bool x y) eqn:E.
  - apply Qle_bool_iff in E. symmetry. apply Q.min_l. exact E.
  - apply Qle_bool_false in E. symmetry. apply Q.min_r. apply Qlt_le_weak. exact E.
Qed.

Lemma Math_max_0 (x : Q) : 0 <= x -> Math_max 0 x = x.
Proof.
  intro H. unfold Math_max. apply Qle_bool_iff in H. rewrite H. reflexivity.
Qed.

Lemma Math_max_nonneg (x : Q) : 0 <= Math_max 0 x.
Proof.
  unfold Math_max. destruct (Qle_bool 0 x) eqn:E.
  - apply Qle_bool_iff. exact E.
  - apply Qle_refl.
Qed.

(** ** Cancelling a ride *)

(** C4. When the requester cancels a ride that is neither [completed] nor
    [cancelled] the call succeeds; the fee it reports is the smaller of 10%
    of the fare and 50 when the status is [accepted] or [arrived], and 0 for
    every other status; the refund it reports is at least 0 and, for a fare
    that is not negative, it is the fare minus the fee. *)
Theorem cancel_fee_and_refund (ctx : Ctx) (u : User.t) (i : ObjectId)
        (why : string) (w : World) (ride : Ride.t) :
  ride_of i w = Some ride ->
  Ride.user ride = User._id u ->
  is_terminal (Ride.status ride) = false ->
  0 <= Ride.finalAmount (Ride.pricing ride) ->
  exists fee refund : Q,
    snd (RideRoutes.cancel ctx u i why w)
    = success 200 "Ride cancelled successfully" (RideCancelled fee refund)
    /\ (Ride.status ride = accepted \/ Ride.status ride = arrived ->
        fee == Qmin ((10 # 100) * Ride.finalAmount (Ride.pricing ride)) 50)
    /\ (Ride.status ride <> accepted -> Ride.status ride <> arrived -> fee == 0)
    /\ refund == Ride.finalAmount (Ride.pricing ride) - fee
    /\ 0 <= refund.
Proof.
  intros F U T P.
  assert (Hfee : 0 <= RideRoutes.cancellation_fee ride
                 /\ RideRoutes.cancellation_fee ride
                    <= Ride.finalAmount (Ride.pricing ride)).
  { unfold RideRoutes.cancellation_fee.
    destruct (status_eqb (Ride.status ride) accepted
              || status_eqb (Ride.status ride) arrived).
    - rewrite Math_min_Qmin.
      destruct (Q.min_spec (Ride.finalAmount (Ride.pricing ride) * 0.1) 50)
        as [[L E] | [L E]]; rewrite E; split; lra.
    - split; lra. }
  exists (RideRoutes.cancellation_fee ride),
         (Math_max 0 (Ride.finalAmount (Ride.pricing ride)
                      - RideRoutes.cancellation_fee ride)).
  split; [| split; [| split; [| split]]].
  - unfold RideRoutes.cancel, RideRoutes.cancel_body, try_catch, bind,
      Ride_findById, gets.
    unfold ride_of in F. rewrite F.
    unfold differs. rewrite U, Nat.eqb_refl. cbn [negb].
    rewrite terminal_includes, T.
    unfold Ride_save, Notification_create, modify, ret.
    destruct (Ride.driver ride); reflexivity.
  - intro S. unfold RideRoutes.cancellation_fee.
    replace (status_eqb (Ride.status ride) accepted
             || status_eqb (Ride.status ride) arrived) with true.
    + rewrite Math_min_Qmin. apply Q.min_compat; [| reflexivity].
      lra.
    + symmetry. apply orb_true_iff. rewrite !status_eqb_eq. exact S.
  - intros N1 N2. unfold RideRoutes.cancellation_fee.
    apply status_eqb_neq in N1. apply status_eqb_neq in N2.
    rewrite N1, N2. reflexivity.
  - rewrite Math_max_0; [reflexivity | lra].
  - apply Math_max_nonneg.
Qed.

Lemma cancel_fee_and_refund_witness :
  exists fee refund : Q,
    snd (RideRoutes.cancel Sample.ctx Sample.rider 100 "late"
           (Sample.world [Sample.ride 100 accepted (Some 10%nat) None]))
    = success 200 "Ride cancelled successfully" (RideCancelled fee refund)
    /\ (accepted = accepted \/ accepted = arrived -> fee == Qmin ((10 # 100) * 500) 50)
    /\ (accepted <> accepted -> accepted <> arrived -> fee == 0)
    /\ refund == 500 - fee
    /\ 0 <= refund.
Proof.
  apply (cancel_fee_and_refund Sample.ctx Sample.rider 100 "late"
           (Sample.world [Sample.ride 100 accepted (Some 10%nat) None])
           (Sample.ride 100 accepted (Some 10%nat) None)).
  - reflexivity.
  - reflexivity.
  - reflexivity.
  - simpl. lra.
Defined.

(** The boundary case of section 8: at a fare of 500 in [accepted] the fee
    is 50 and the refund 450; in [pending] the fee is 0. *)
Example cancel_fee_boundary :
  RideRoutes.cancellation_fee (Sample.ride 100 accepted (Some 10%nat) None) == 50 /\
  RideRoutes.cancellation_fee (Sample.ride 100 pending None None) == 0.
Proof. split; reflexivity. Qed.

(** ** Tracking *)

(** What the route decides on its own: a track call on a ride whose status
    is neither [started] nor [completed] is refused before
    [addTrackingLocation] is reached and changes nothing; the assigned
    driver is told that only started or completed rides can be tracked. *)
Lemma track_refused_unless_started_or_completed
      (ctx : Ctx) (u : User.t) (i : ObjectId) (c : Q * Q) (sp hd : Q)
      (w : World) (ride : Ride.t) :
  ride_of i w = Some ride ->
  Ride.status ride <> started ->
  Ride.status ride <> completed ->
  fst (RideRoutes.track ctx u i c sp hd w) = w /\
  http (snd (RideRoutes.track ctx u i c sp hd w)) <> 200%nat /\
  (Ride.driver ride = Some (User._id u) ->
   snd (RideRoutes.track ctx u i c sp hd w)
   = error 400 "Can only track started or completed rides").
Proof.
  intros F N1 N2.
  unfold RideRoutes.track, RideRoutes.track_body, try_catch, bind,
    Ride_findById, gets.
  unfold ride_of in F. rewrite F.
  rewrite trackable_includes.
  apply status_eqb_neq in N1. apply status_eqb_neq in N2. rewrite N1, N2.
  cbn [orb negb].
  destruct (not_assigned_to ride u) eqn:A; simpl.
  - split; [reflexivity | split; [discriminate |]].
    intro D. unfold not_assigned_to, differs in A. rewrite D, Nat.eqb_refl in A.
    discriminate A.
  - split; [reflexivity | split; [discriminate | reflexivity]].
Qed.

(** A track call leaves the rides other than its own as they are, and its
    own ride is what [addTrackingLocation] makes of it or untouched. *)
Lemma track_rides (ctx : Ctx) (u : User.t) (i : ObjectId) (c : Q * Q) (sp hd : Q)
      (w : World) (ride : Ride.t) :
  ride_of i w = Some ride ->
  rides (fst (RideRoutes.track ctx u i c sp hd w)) = rides w
  \/ (not_assigned_to ride u = false
      /\ snd (RideRoutes.track ctx u i c sp hd w)
         = success 200 "Location tracked successfully" NoData
      /\ rides (fst (RideRoutes.track ctx u i c sp hd w))
         = update_doc Ride._id i
             (fun r => Ride.addTrackingLocation r c sp hd (now ctx)) (rides w)).
Proof.
  intro F. destruct (find_doc_In _ _ _ _ F) as [_ K].
  unfold RideRoutes.track, RideRoutes.track_body. run_handler.
  unfold ride_of in F. rewrite F.
  destruct (not_assigned_to ride u); [left; reflexivity |].
  destruct (includes ["started"; "completed"] (status_name (Ride.status ride)));
    [| left; reflexivity].
  cbn [negb]. right. rewrite K.
  destruct (io ctx); simpl; auto.
Qed.

(** C8. Tracking-log entries are appended only while the ride is
    [started].  A track call on a ride in any other status appends
    nothing: the rides of the store, and so every tracking log, are what
    they were; outside [started] and [completed] the call is refused as
    well.  On a [started] ride the call of the assigned driver appends
    its one entry at the end of the log. *)
Theorem track_appends_only_while_started
        (ctx : Ctx) (u : User.t) (i : ObjectId) (c : Q * Q) (sp hd : Q)
        (w : World) (ride : Ride.t) :
  ride_of i w = Some ride ->
  let w' := fst (RideRoutes.track ctx u i c sp hd w) in
  let reply := snd (RideRoutes.track ctx u i c sp hd w) in
  (Ride.status ride <> started ->
   rides w' = rides w /\
   option_map Ride.tracking (ride_of i w') = Some (Ride.tracking ride) /\
   (Ride.status ride <> completed -> w' = w /\ http reply <> 200%nat)) /\
  (Ride.status ride = started ->
   Ride.driver ride = Some (User._id u) ->
   reply = success 200 "Location tracked successfully" NoData /\
   option_map Ride.tracking (ride_of i w')
   = Some (Ride.tracking ride ++
           [{| Ride.at_coordinates := c; Ride.speed := sp; Ride.heading := hd;
               Ride.timestamp := now ctx |}])%list).
Proof.
  intro F. cbv zeta. split.
  - intro N.
    assert (Same : rides (fst (RideRoutes.track ctx u i c sp hd w)) = rides w).
    { destruct (track_rides ctx u i c sp hd w ride F) as [E | [_ [_ E]]];
        [exact E |].
      rewrite E. apply (update_doc_fixed Ride._id i _ (rides w) ride F).
      unfold Ride.addTrackingLocation.
      apply status_eqb_neq in N. rewrite N. reflexivity. }
    split; [exact Same | split].
    + unfold ride_of in *. rewrite Same, F. reflexivity.
    + intro N'.
      destruct (track_refused_unless_started_or_completed
                  ctx u i c sp hd w ride F N N') as [A [B _]].
      split; assumption.
  - intros S D.
    destruct (track_rides ctx u i c sp hd w ride F) as [E | [_ [R E]]].
    + exfalso. revert E.
      unfold RideRoutes.track, RideRoutes.track_body. run_handler.
      unfold ride_of in F. rewrite F.
      unfold not_assigned_to, differs. rewrite D, Nat.eqb_refl, S.
      cbn [negb includes status_name existsb String.eqb Ascii.eqb Bool.eqb orb].
      destruct (find_doc_In _ _ _ _ F) as [_ K]. rewrite K.
      intro E.
      assert (U : find_doc Ride._id i
                    (update_doc Ride._id i
                       (fun r => Ride.addTrackingLocation r c sp hd (now ctx))
                       (rides w))
                  = Some (Ride.addTrackingLocation ride c sp hd (now ctx))).
      { apply (find_update_same Ride._id i
                 (fun r => Ride.addTrackingLocation r c sp hd (now ctx))
                 (rides w) ride); [| exact F].
        unfold Ride.addTrackingLocation. rewrite S. reflexivity. }
      assert (E' : update_doc Ride._id i
                     (fun r => Ride.addTrackingLocation r c sp hd (now ctx))
                     (rides w) = rides w)
        by (revert E; destruct (io ctx); simpl; intro E; exact E).
      rewrite E', F in U. injection U as U.
      apply (f_equal Ride.tracking) in U.
      unfold Ride.addTrackingLocation in U. rewrite S in U. simpl in U.
      apply (f_equal (@List.length _)) in U. rewrite length_app in U.
      simpl in U. lia.
    + split; [exact R |].
      unfold ride_of. rewrite E.
      rewrite (find_update_same Ride._id i
                 (fun r => Ride.addTrackingLocation r c sp hd (now ctx))
                 (rides w) ride);
        [| unfold Ride.addTrackingLocation; rewrite S; reflexivity | exact F].
      unfold Ride.addTrackingLocation. rewrite S. reflexivity.
Qed.

(** A completed ride with one entry from the time it was under way: the
    route admits its driver's call and answers 200, and the log is what
    it was. *)
Lemma track_appends_only_while_started_witness :
  let ride :=
    Ride.set_tracking
      [{| Ride.at_coordinates := (77.6, 12.9); Ride.speed := 30;
          Ride.heading := 90; Ride.timestamp := 5%nat |}]
      (Sample.ride 100 completed (Some 10%nat) None) in
  let w := Sample.world [ride] in
  let w' := fst (RideRoutes.track Sample.ctx Sample.dev 100 (77.61, 12.91) 28 85 w) in
  snd (RideRoutes.track Sample.ctx Sample.dev 100 (77.61, 12.91) 28 85 w)
  = success 200 "Location tracked successfully" NoData /\
  rides w' = rides w /\
  option_map Ride.tracking (ride_of 100 w') = Some (Ride.tracking ride).
Proof.
  cbv zeta. split; [reflexivity |].
  destruct (track_appends_only_while_started Sample.ctx Sample.dev 100
              (77.61, 12.91) 28 85
              (Sample.world
                 [Ride.set_tracking
                    [{| Ride.at_coordinates := (77.6, 12.9); Ride.speed := 30;
                        Ride.heading := 90; Ride.timestamp := 5%nat |}]
                    (Sample.ride 100 completed (Some 10%nat) None)])
              _ eq_refl) as [H _].
  destruct H as [A [B _]]; [discriminate |].
  split; [exact A | exact B].
Defined.

(** The same call while the ride is under way. *)
Example track_appends_on_started :
  let w := Sample.world [Sample.ride 100 started (Some 10%nat) None] in
  let w' := fst (RideRoutes.track Sample.ctx Sample.dev 100 (77.6, 12.9) 30 90 w) in
  option_map Ride.tracking (ride_of 100 w')
  = Some [{| Ride.at_coordinates := (77.6, 12.9); Ride.speed := 30;
             Ride.heading := 90; Ride.timestamp := 7%nat |}].
Proof. reflexivity. Qed.

(** ** Rating *)



Lemma rated_completed_cases (d : ObjectId) (r : Ride.t) :
  (RideRoutes.rated_completed_of d r = true /\
   exists q, Ride.rating (Ride.userRating r) = Some q /\
             Ride.driver r = Some d /\ Ride.status r = completed)
  \/
  (RideRoutes.rated_completed_of d r = false /\
   match Ride.driver r, Ride.status r, Ride.rating (Ride.userRating r) with
   | Some d', completed, Some q => if Nat.eqb d' d then [q] else []
   | _, _, _ => []
   end = []).
Proof.
  unfold RideRoutes.rated_completed_of.
  destruct (Ride.driver r) as [d' |]; [| right; split; reflexivity].
  destruct (Nat.eqb d' d) eqn:E.
  - apply Nat.eqb_eq in E. subst d'.
    destruct (Ride.status r); try (right; split; reflexivity).
    destruct (Ride.rating (Ride.userRating r)) as [q |].
    + left. split; [reflexivity |]. exists q. auto.
    + right. split; reflexivity.
  - right. split; [reflexivity |].
    destruct (Ride.status r); try reflexivity.
    destruct (Ride.rating (Ride.userRating r)); reflexivity.
Qed.

Lemma ratings_of_matched (d : ObjectId) (w : World) :
  RideRoutes.ratings_of (filter (RideRoutes.rated_completed_of d) (rides w))
  = ratings_received d w
  /\ List.length (filter (RideRoutes.rated_completed_of d) (rides w))
     = List.length (ratings_received d w).
Proof.
  unfold ratings_received. generalize (rides w). intro l.
  induction l as [| r t [IH1 IH2]]; [split; reflexivity |].
  cbn [filter flat_map].
  destruct (rated_completed_cases d r) as [[M [q [Q [D S]]]] | [M G]]; rewrite M.
  - rewrite D, S, Q, Nat.eqb_refl. cbn [RideRoutes.ratings_of].
    rewrite Q. simpl. rewrite IH1, IH2. split; reflexivity.
  - rewrite G. simpl. split; assumption.
Qed.

(** The [$avg] group of the handler is the mean of the ratings received. *)
Lemma aggregate_averageRating_mean (d : ObjectId) (w : World) :
  RideRoutes.aggregate_averageRating d (rides w)
  = match ratings_received d w with
    | [] => []
    | _ => [mean (ratings_received d w)]
    end.
Proof.
  unfold RideRoutes.aggregate_averageRating, mean.
  destruct (ratings_of_matched d w) as [E1 E2].
  destruct (filter (RideRoutes.rated_completed_of d) (rides w)) as [| r t] eqn:M.
  - simpl in E1. rewrite <- E1. reflexivity.
  - rewrite <- E2, <- E1.
    destruct (RideRoutes.ratings_of (r :: t)) eqn:R; [| reflexivity].
    rewrite <- E1 in E2. discriminate E2.
Qed.

Lemma update_driver_rating_rides (od : option ObjectId) (w : World) :
  rides (fst (RideRoutes.update_driver_rating od w)) = rides w.
Proof.
  unfold RideRoutes.update_driver_rating.
  destruct od as [d |]; [| reflexivity].
  unfold bind, User_findById, gets, User_update, modify, ret.
  destruct (find_doc User._id d (users w)); [| reflexivity].
  destruct (RideRoutes.aggregate_averageRating d (rides w)); reflexivity.
Qed.

(** What the aggregator does when the driver exists and has ratings. *)
Lemma update_driver_rating_run (d : ObjectId) (w : World) (drv : User.t) :
  find_doc User._id d (users w) = Some drv ->
  ratings_received d w <> [] ->
  fst (RideRoutes.update_driver_rating (Some d) w)
  = set_users
      (update_doc User._id d
         (User.set_rating (Math_round (mean (ratings_received d w) * 10) / 10))
         (users w)) w.
Proof.
  intros F N.
  unfold RideRoutes.update_driver_rating, bind, User_findById, gets,
    User_update, modify, ret.
  rewrite F. rewrite aggregate_averageRating_mean.
  destruct (ratings_received d w); [contradiction | reflexivity].
Qed.


Lemma update_driver_rating_returns (od : option ObjectId) (w : World) :
  exists w', RideRoutes.update_driver_rating od w = (w', Return tt).
Proof.
  unfold RideRoutes.update_driver_rating. run_handler.
  destruct od as [d |]; [| eexists; reflexivity].
  destruct (find_doc User._id d (users w)); [| eexists; reflexivity].
  destruct (RideRoutes.aggregate_averageRating d (rides w)); eexists; reflexivity.
Qed.

(** What a successful rate call has checked and written. *)
Lemma rate_success (valid : option Q -> bool) (ctx : Ctx) (u : User.t)
      (i : ObjectId) (q : option Q) (fb : option string) (w : World) :
  http (snd (RideRoutes.rate valid ctx u i q fb w)) = 200%nat ->
  exists ride,
    ride_of i w = Some ride
    /\ Ride.user ride = User._id u
    /\ Ride.status ride = completed
    /\ truthy (Ride.rating (Ride.userRating ride)) = false
    /\ valid q = true
    /\ fst (RideRoutes.rate valid ctx u i q fb w)
       = fst (RideRoutes.update_driver_rating (Ride.driver ride)
                (set_rides
                   (update_doc Ride._id i
                      (Ride.set_userRating
                         {| Ride.rating := q; Ride.feedback := fb;
                            Ride.date := Some (now ctx) |})
                      (rides w)) w)).
Proof.
  unfold RideRoutes.rate, RideRoutes.rate_body, try_catch, bind,
    Ride_findById, gets, ride_of.
  destruct (find_doc Ride._id i (rides w)) as [ride |] eqn:F; [| discriminate].
  destruct (find_doc_In _ _ _ _ F) as [_ K].
  destruct (differs (Ride.user ride) (User._id u)) eqn:D; [discriminate |].
  destruct (status_eqb (Ride.status ride) completed) eqn:S; [| discriminate].
  cbn [negb].
  destruct (truthy (Ride.rating (Ride.userRating ride))) eqn:T; [discriminate |].
  destruct (valid q) eqn:V; [| discriminate].
  cbn [negb]. intros _. exists ride.
  repeat split.
  - unfold differs in D. apply negb_false_iff, Nat.eqb_eq in D. exact D.
  - apply status_eqb_eq. exact S.
  - exact T.
  - unfold Ride_save, modify, ret. rewrite K.
    set (w1 := set_rides _ w).
    destruct (RideRoutes.update_driver_rating (Ride.driver ride) w1) as [w2 [[] | r |]] eqn:E;
      reflexivity.
Qed.

(** The ride a successful rate call leaves in the collection. *)
Lemma rate_success_stored (valid : option Q -> bool) (ctx : Ctx) (u : User.t)
      (i : ObjectId) (q : option Q) (fb : option string) (w : World) :
  http (snd (RideRoutes.rate valid ctx u i q fb w)) = 200%nat ->
  exists ride,
    ride_of i w = Some ride
    /\ Ride.status ride = completed
    /\ valid q = true
    /\ ride_of i (fst (RideRoutes.rate valid ctx u i q fb w))
       = Some (Ride.set_userRating
                 {| Ride.rating := q; Ride.feedback := fb;
                    Ride.date := Some (now ctx) |} ride).
Proof.
  intro H. destruct (rate_success valid ctx u i q fb w H)
    as [ride [F [_ [S [_ [V E]]]]]].
  exists ride. repeat split; try assumption.
  rewrite E. unfold ride_of. rewrite update_driver_rating_rides. simpl.
  apply find_update_same; [reflexivity | exact F].
Qed.


(** The requester's rate call on a completed ride whose stored rating the
    handler does not see goes through when the schema admits the rating. *)
Lemma rate_goes_through (valid : option Q -> bool) (ctx : Ctx) (u : User.t)
      (i : ObjectId) (q : option Q) (fb : option string) (w : World)
      (ride : Ride.t) :
  ride_of i w = Some ride ->
  Ride.user ride = User._id u ->
  Ride.status ride = completed ->
  truthy (Ride.rating (Ride.userRating ride)) = false ->
  valid q = true ->
  snd (RideRoutes.rate valid ctx u i q fb w)
  = success 200 "Ride rated successfully" NoData.
Proof.
  intros F U S T V.
  unfold RideRoutes.rate, RideRoutes.rate_body, try_catch, bind,
    Ride_findById, gets.
  unfold ride_of in F. rewrite F.
  unfold differs. rewrite U, Nat.eqb_refl, S, T, V, status_eqb_refl.
  cbn [negb]. unfold Ride_save, modify, ret.
  match goal with
  | |- context [RideRoutes.update_driver_rating ?o ?v] =>
      destruct (update_driver_rating_returns o v) as [w2 R]; rewrite R
  end.
  reflexivity.
Qed.

(** C9, the failing input. The handler takes a ride for rated when the
    stored [rating] is a number other than 0, and it does not look at the
    [rating] of the request.  A rate call that carries no rating (or 0),
    on a completed ride that is not rated, goes through when the schema
    admits it and fills the rating sub-record with its feedback and date;
    the handler does not see that record, and the next rate call goes
    through as well and fills the sub-record a second time. *)
Theorem rate_fills_the_record_twice
        (valid : option Q -> bool) (ctx ctx' : Ctx) (u : User.t) (i : ObjectId)
        (q q' : option Q) (fb fb' : option string) (w : World) (ride : Ride.t) :
  ride_of i w = Some ride ->
  Ride.user ride = User._id u ->
  Ride.status ride = completed ->
  truthy (Ride.rating (Ride.userRating ride)) = false ->
  truthy q = false ->
  valid q = true ->
  valid q' = true ->
  let first := RideRoutes.rate valid ctx u i q fb w in
  let second := RideRoutes.rate valid ctx' u i q' fb' (fst first) in
  snd first = success 200 "Ride rated successfully" NoData /\
  option_map Ride.userRating (ride_of i (fst first))
  = Some {| Ride.rating := q; Ride.feedback := fb; Ride.date := Some (now ctx) |} /\
  snd second = success 200 "Ride rated successfully" NoData /\
  option_map Ride.userRating (ride_of i (fst second))
  = Some {| Ride.rating := q'; Ride.feedback := fb'; Ride.date := Some (now ctx') |}.
Proof.
  intros F U S T Tq V V'. cbv zeta.
  pose proof (rate_goes_through valid ctx u i q fb w ride F U S T V) as R1.
  assert (H1 : http (snd (RideRoutes.rate valid ctx u i q fb w)) = 200%nat)
    by (rewrite R1; reflexivity).
  destruct (rate_success_stored valid ctx u i q fb w H1) as [r1 [F1 [_ [_ E1]]]].
  rewrite F in F1. injection F1 as <-.
  set (w1 := fst (RideRoutes.rate valid ctx u i q fb w)) in *.
  set (ride1 := Ride.set_userRating
                  {| Ride.rating := q; Ride.feedback := fb;
                     Ride.date := Some (now ctx) |} ride) in *.
  pose proof (rate_goes_through valid ctx' u i q' fb' w1 ride1 E1 U S Tq V') as R2.
  assert (H2 : http (snd (RideRoutes.rate valid ctx' u i q' fb' w1)) = 200%nat)
    by (rewrite R2; reflexivity).
  destruct (rate_success_stored valid ctx' u i q' fb' w1 H2) as [r2 [F2 [_ [_ E2]]]].
  rewrite E1 in F2. injection F2 as <-.
  refine (conj R1 (conj _ (conj R2 _))).
  - rewrite E1. reflexivity.
  - rewrite E2. reflexivity.
Qed.

Lemma rate_fills_the_record_twice_witness :
  let w := Sample.world [Sample.ride 100 completed (Some 10%nat) None] in
  let ctx' := {| now := 9%nat; io := true; newId := 201%nat |} in
  let first :=
    RideRoutes.rate Sample.stars_if_any Sample.ctx Sample.rider 100 None
                    (Some "fine") w in
  let second :=
    RideRoutes.rate Sample.stars_if_any ctx' Sample.rider 100 (Some 5)
                    (Some "great") (fst first) in
  snd first = success 200 "Ride rated successfully" NoData /\
  option_map Ride.userRating (ride_of 100 (fst first))
  = Some {| Ride.rating := None; Ride.feedback := Some "fine";
            Ride.date := Some 7%nat |} /\
  snd second = success 200 "Ride rated successfully" NoData /\
  option_map Ride.userRating (ride_of 100 (fst second))
  = Some {| Ride.rating := Some 5; Ride.feedback := Some "great";
            Ride.date := Some 9%nat |}.
Proof.
  apply (rate_fills_the_record_twice Sample.stars_if_any Sample.ctx
           {| now := 9%nat; io := true; newId := 201%nat |}
           Sample.rider 100 None (Some 5) (Some "fine") (Some "great")
           (Sample.world [Sample.ride 100 completed (Some 10%nat) None])
           (Sample.ride 100 completed (Some 10%nat) None)).
  - reflexivity.
  - reflexivity.
  - reflexivity.
  - reflexivity.
  - reflexivity.
  - reflexivity.
  - reflexivity.
Defined.



(** The example above in numbers: ratings 5, 4 and 4 have mean 13/3 and the
    profile shows 4.3. *)
Example rating_of_5_4_4 :
  let w := Sample.world [Sample.ride 100 completed (Some 10%nat) None;
                         Sample.ride 101 completed (Some 10%nat) (Some 4);
                         Sample.ride 102 completed (Some 10%nat) (Some 4)] in
  let w' := fst (RideRoutes.rate Sample.stars_1_to_5 Sample.ctx Sample.rider 100
                   (Some 5) None w) in
  ratings_received 10 w' = [5; 4; 4] /\
  option_map Qred (profile_rating 10 w') = Some (43 # 10).
Proof. cbv zeta. split; vm_compute; reflexivity. Qed.

(** ** Withdrawals *)

Lemma availableAmount_earnings (d : ObjectId) (w : World) :
  DriverRoutes.availableAmount (DriverRoutes.aggregate_total d (rides w))
  == earnings d w.
Proof.
  unfold DriverRoutes.availableAmount, DriverRoutes.aggregate_total, earnings.
  destruct (filter (DriverRoutes.completed_by d) (rides w)) as [| r t].
  - reflexivity.
  - set (g := Qsum _).
    destruct (Qeq_bool g 0) eqn:E; [| reflexivity].
    apply Qeq_bool_iff in E. symmetry. exact E.
Qed.

Lemma withdraw_run (ctx : Ctx) (u : User.t) (amount : Q) (w : World) :
  0 < amount ->
  amount <= earnings (User._id u) w ->
  DriverRoutes.withdraw ctx u amount w
  = (set_payments
       (payments w ++
        [{| Payment._id := newId ctx;
            Payment.user := User._id u;
            Payment.type := "withdrawal";
            Payment.amount := amount;
            Payment.method := "bank_transfer";
            Payment.status := "pending";
            Payment.description := "Driver earnings withdrawal" |}]) w,
     success 200 "Withdrawal request submitted successfully"
       (WithdrawalRequested (newId ctx) amount "pending")).
Proof.
  intros P L.
  unfold DriverRoutes.withdraw, DriverRoutes.withdraw_body, try_catch.
  assert (Z : Qeq_bool amount 0 = false).
  { destruct (Qeq_bool amount 0) eqn:E; [| reflexivity].
    apply Qeq_bool_iff in E. lra. }
  assert (N : Qle_bool amount 0 = false) by (apply Qle_bool_false; exact P).
  rewrite Z, N. cbn [orb].
  unfold bind, gets.
  assert (A : Qle_bool amount
                (DriverRoutes.availableAmount
                   (DriverRoutes.aggregate_total (User._id u) (rides w))) = true).
  { apply Qle_bool_iff. rewrite availableAmount_earnings. exact L. }
  unfold Qgt_bool. rewrite A. reflexivity.
Qed.

(** C10. A withdrawal request of a driver succeeds whenever the amount is
    positive and at most the sum of the final amounts of the driver's
    completed rides.  It records a pending payment and leaves the rides, and
    with them the amount that counts as available, as they were: the
    withdrawals already requested are not subtracted, and the same request
    succeeds again. *)
Theorem withdraw_ignores_earlier_withdrawals
        (ctx ctx' : Ctx) (u : User.t) (amount : Q) (w : World) :
  0 < amount ->
  amount <= earnings (User._id u) w ->
  let w' := fst (DriverRoutes.withdraw ctx u amount w) in
  let w'' := fst (DriverRoutes.withdraw ctx' u amount w') in
  snd (DriverRoutes.withdraw ctx u amount w)
  = success 200 "Withdrawal request submitted successfully"
      (WithdrawalRequested (newId ctx) amount "pending")
  /\ earnings (User._id u) w' = earnings (User._id u) w
  /\ snd (DriverRoutes.withdraw ctx' u amount w')
     = success 200 "Withdrawal request submitted successfully"
         (WithdrawalRequested (newId ctx') amount "pending")
  /\ withdrawn (User._id u) w''
     == withdrawn (User._id u) w + amount + amount.
Proof.
  intros P L. cbv zeta.
  rewrite (withdraw_run ctx u amount w P L). cbn [fst snd].
  set (w1 := set_payments _ w).
  assert (L1 : amount <= earnings (User._id u) w1) by exact L.
  rewrite (withdraw_run ctx' u amount w1 P L1). cbn [fst snd].
  split; [reflexivity | split; [reflexivity | split; [reflexivity |]]].
  unfold withdrawn, w1. simpl.
  rewrite !filter_app, !map_app. simpl.
  rewrite Nat.eqb_refl. simpl.
  generalize (map Payment.amount
                (filter (fun p => Nat.eqb (Payment.user p) (User._id u)
                                  && String.eqb (Payment.type p) "withdrawal")
                        (payments w))).
  intro l. induction l as [| x t IH]; simpl.
  - lra.
  - rewrite IH. lra.
Qed.

Lemma withdraw_ignores_earlier_withdrawals_witness :
  let w := Sample.world [Sample.ride 100 completed (Some 10%nat) None] in
  let w' := fst (DriverRoutes.withdraw Sample.ctx Sample.dev 500 w) in
  let w'' := fst (DriverRoutes.withdraw Sample.ctx Sample.dev 500 w') in
  snd (DriverRoutes.withdraw Sample.ctx Sample.dev 500 w)
  = success 200 "Withdrawal request submitted successfully"
      (WithdrawalRequested 200%nat 500 "pending")
  /\ earnings 10 w' = earnings 10 w
  /\ snd (DriverRoutes.withdraw Sample.ctx Sample.dev 500 w')
     = success 200 "Withdrawal request submitted successfully"
         (WithdrawalRequested 200%nat 500 "pending")
  /\ withdrawn 10 w'' == withdrawn 10 w + 500 + 500.
Proof.
  apply (withdraw_ignores_earlier_withdrawals Sample.ctx Sample.ctx Sample.dev 500
           (Sample.world [Sample.ride 100 completed (Some 10%nat) None])).
  - reflexivity.
  - vm_compute. discriminate.
Defined.

(** Earnings of 500 withdrawn twice: 1000 requested against 500 earned. *)
Example withdraw_twice :
  let w := Sample.world [Sample.ride 100 completed (Some 10%nat) None] in
  let w' := fst (DriverRoutes.withdraw Sample.ctx Sample.dev 500 w) in
  let w'' := fst (DriverRoutes.withdraw Sample.ctx Sample.dev 500 w') in
  earnings 10 w == 500 /\ withdrawn 10 w'' == 1000.
Proof. cbv zeta. split; vm_compute; reflexivity. Qed.

(** ** Terminal states *)

(** Writing to the document [j] keeps the status of the document [i] when
    the write keeps the status of that very document. *)
Lemma status_of_update (i j : ObjectId) (f : Ride.t -> Ride.t) (w : World)
      (r : Ride.t) :
  (forall x, Ride._id (f x) = Ride._id x) ->
  ride_of i w = Some r ->
  (i = j -> Ride.status (f r) = Ride.status r) ->
  status_of i (set_rides (update_doc Ride._id j f (rides w)) w)
  = Some (Ride.status r).
Proof.
  intros K F P. unfold status_of, ride_of in *. simpl.
  destruct (Nat.eq_dec i j) as [E | N].
  - subst j. rewrite (find_update_same Ride._id i f (rides w) r (K r) F).
    simpl. rewrite (P eq_refl). reflexivity.
  - rewrite (find_update_other Ride._id i j f (rides w) K N), F. reflexivity.
Qed.

(** A cancel call on a ride that is completed or cancelled is refused and
    changes nothing; the requester is answered AlreadyFinalized. *)
Lemma cancel_refused_on_terminal (ctx : Ctx) (u : User.t) (i : ObjectId)
      (why : string) (w : World) (ride : Ride.t) :
  ride_of i w = Some ride ->
  is_terminal (Ride.status ride) = true ->
  fst (RideRoutes.cancel ctx u i why w) = w /\
  status (snd (RideRoutes.cancel ctx u i why w)) = "error" /\
  (Ride.user ride = User._id u ->
   snd (RideRoutes.cancel ctx u i why w) = AlreadyFinalized).
Proof.
  intros F T.
  unfold RideRoutes.cancel, RideRoutes.cancel_body. run_handler.
  unfold ride_of in F. rewrite F.
  rewrite terminal_includes, T.
  unfold differs.
  destruct (Nat.eqb (Ride.user ride) (User._id u)) eqn:E; simpl.
  - repeat split; reflexivity.
  - repeat split. intro U. apply Nat.eqb_neq in E. contradiction.
Qed.

(** C5, at the failing inputs. A ride is stored as [completed] or
    [cancelled], and an accept request of an eligible driver has the
    answer of [findById] from the time when the ride was pending.  A cancel
    call on the ride is refused and changes nothing, and the requester is
    answered AlreadyFinalized.  But when the accept handler resumes, with
    the ride as it loaded it, it answers 200 and its [save()] moves the
    stored ride to [accepted], with that driver. *)
Theorem late_accept_moves_terminal_ride_to_accepted
        (ctx : Ctx) (d : User.t) (i : ObjectId) (w : World)
        (loaded stored : Ride.t) :
  Ride._id loaded = i ->
  Ride.status loaded = pending ->
  eligible d loaded ->
  ride_of i w = Some stored ->
  is_terminal (Ride.status stored) = true ->
  let resumed :=
    DriverRoutes.advance ctx i
      {| DriverRoutes.caller := d;
         DriverRoutes.phase := DriverRoutes.Loaded (Some loaded) |} w in
  (forall (ctx' : Ctx) (u : User.t) (why : string),
      fst (RideRoutes.cancel ctx' u i why w) = w /\
      (Ride.user stored = User._id u ->
       snd (RideRoutes.cancel ctx' u i why w) = AlreadyFinalized)) /\
  DriverRoutes.phase (fst resumed)
  = DriverRoutes.Done (success 200 "Ride accepted successfully" (RideAccepted i)) /\
  status_of i (snd resumed) = Some accepted /\
  option_map Ride.driver (ride_of i (snd resumed)) = Some (Some (User._id d)).
Proof.
  intros K S [V A] F T. cbv zeta. split.
  - intros ctx' u why.
    destruct (cancel_refused_on_terminal ctx' u i why w stored F T) as [E [_ R]].
    split; assumption.
  - unfold DriverRoutes.advance. cbn [DriverRoutes.phase DriverRoutes.caller].
    unfold DriverRoutes.accept_resume. run_handler.
    rewrite S, V, String.eqb_refl, A, K. simpl status_eqb. cbn [negb].
    assert (U : find_doc Ride._id i
                  (update_doc Ride._id i (DriverRoutes.accept_changes ctx d) (rides w))
                = Some (DriverRoutes.accept_changes ctx d stored))
      by (apply (find_update_same Ride._id i (DriverRoutes.accept_changes ctx d)
                   (rides w) stored); [reflexivity | exact F]).
    destruct (io ctx); simpl; (split; [reflexivity |]);
      unfold status_of, ride_of; simpl; rewrite U; split; reflexivity.
Qed.

(** Ride 100 is pending.  The accept request of driver 10 has the answer
    of [findById] when the requester cancels the ride: the cancel call
    succeeds and the ride is [cancelled].  Then the accept handler
    resumes. *)
Lemma late_accept_moves_terminal_ride_to_accepted_witness :
  let w0 := Sample.world [Sample.ride 100 pending None None] in
  let loaded :=
    DriverRoutes.advance Sample.ctx 100
      {| DriverRoutes.caller := Sample.dev; DriverRoutes.phase := DriverRoutes.Received |}
      w0 in
  let after_cancel :=
    RideRoutes.cancel Sample.ctx Sample.rider 100 "changed my mind" (snd loaded) in
  let w := fst after_cancel in
  let resumed := DriverRoutes.advance Sample.ctx 100 (fst loaded) w in
  (http (snd after_cancel) = 200%nat /\
   message (snd after_cancel) = "Ride cancelled successfully" /\
   status_of 100 w = Some cancelled) /\
  (forall (ctx' : Ctx) (u : User.t) (why : string),
      fst (RideRoutes.cancel ctx' u 100 why w) = w /\
      (1%nat = User._id u ->
       snd (RideRoutes.cancel ctx' u 100 why w) = AlreadyFinalized)) /\
  DriverRoutes.phase (fst resumed)
  = DriverRoutes.Done (success 200 "Ride accepted successfully" (RideAccepted 100)) /\
  status_of 100 (snd resumed) = Some accepted /\
  option_map Ride.driver (ride_of 100 (snd resumed)) = Some (Some 10%nat).
Proof.
  cbv zeta. split; [repeat split |].
  apply (late_accept_moves_terminal_ride_to_accepted Sample.ctx Sample.dev 100
           (fst (RideRoutes.cancel Sample.ctx Sample.rider 100 "changed my mind"
                   (Sample.world [Sample.ride 100 pending None None])))
           (Sample.ride 100 pending None None)
           (Ride.cancelRide (Sample.ride 100 pending None None) "user"
              "changed my mind" 0)).
  - reflexivity.
  - reflexivity.
  - split; reflexivity.
  - reflexivity.
  - reflexivity.
Defined.

(** The same for a ride that was completed in the meantime: it is
    [accepted] again, with the late driver. *)
Example late_accept_moves_completed_ride_to_accepted :
  let w := Sample.world [Sample.ride 100 completed (Some 11%nat) None] in
  let resumed :=
    DriverRoutes.advance Sample.ctx 100
      {| DriverRoutes.caller := Sample.dev;
         DriverRoutes.phase :=
           DriverRoutes.Loaded (Some (Sample.ride 100 pending None None)) |} w in
  status_of 100 w = Some completed /\
  status_of 100 (snd resumed) = Some accepted /\
  option_map Ride.driver (ride_of 100 (snd resumed)) = Some (Some 10%nat).
Proof. cbv zeta. repeat split. Qed.

(** ** The race for a ride *)


Lemma accept_refused_not_pending (ctx : Ctx) (d : User.t) (i : ObjectId)
      (w : World) (r : Ride.t) :
  ride_of i w = Some r ->
  Ride.status r <> pending ->
  DriverRoutes.accept_ride ctx d i w = (w, RideUnavailable).
Proof.
  intros F N. rewrite (accept_ride_found ctx d i w r F).
  unfold DriverRoutes.accept_resume. run_handler.
  apply status_eqb_neq in N. rewrite N. reflexivity.
Qed.

Lemma accept_wins (ctx : Ctx) (d : User.t) (i : ObjectId) (w : World) (r : Ride.t) :
  ride_of i w = Some r ->
  Ride.status r = pending ->
  eligible d r ->
  snd (DriverRoutes.accept_ride ctx d i w)
  = success 200 "Ride accepted successfully" (RideAccepted i)
  /\ ride_of i (fst (DriverRoutes.accept_ride ctx d i w))
     = Some (DriverRoutes.accept_changes ctx d r).
Proof.
  intros F S [V A]. rewrite (accept_ride_found ctx d i w r F).
  destruct (find_doc_In _ _ _ _ F) as [_ K].
  unfold DriverRoutes.accept_resume. run_handler.
  rewrite S, V, String.eqb_refl, A. cbn [status_eqb negb]. simpl status_eqb.
  cbn [negb]. rewrite K.
  destruct (io ctx); simpl; (split; [reflexivity |]);
    unfold ride_of; simpl;
    apply (find_update_same Ride._id i _ (rides w) r); (reflexivity || exact F).
Qed.

(** Attempts that run one after the other: the first eligible driver gets
    the ride and every later attempt is answered RideUnavailable. *)
Lemma accept_in_turn_after_taken (ctx : Ctx) (i : ObjectId) (ds : list User.t) :
  forall (w : World) (r : Ride.t),
    ride_of i w = Some r ->
    Ride.status r <> pending ->
    DriverRoutes.accept_in_turn ctx i ds w = (map (fun _ => RideUnavailable) ds, w).
Proof.
  induction ds as [| d rest IH]; intros w r F N; simpl; [reflexivity |].
  rewrite (accept_refused_not_pending ctx d i w r F N).
  rewrite (IH w r F N). reflexivity.
Qed.

(** Accept calls in turn on a pending ride: the first eligible driver is
    answered 200 and becomes the driver of the ride; every later call is
    answered RideUnavailable. *)
Lemma accept_in_turn_first_wins (ctx : Ctx) (i : ObjectId) (d : User.t)
      (ds : list User.t) (w : World) (r : Ride.t) :
  ride_of i w = Some r ->
  Ride.status r = pending ->
  eligible d r ->
  fst (DriverRoutes.accept_in_turn ctx i (d :: ds) w)
  = success 200 "Ride accepted successfully" (RideAccepted i)
    :: map (fun _ => RideUnavailable) ds
  /\ ride_of i (snd (DriverRoutes.accept_in_turn ctx i (d :: ds) w))
     = Some (DriverRoutes.accept_changes ctx d r).
Proof.
  intros F S E. simpl.
  destruct (accept_wins ctx d i w r F S E) as [R F'].
  destruct (DriverRoutes.accept_ride ctx d i w) as [w1 resp].
  simpl in R, F'. subst resp.
  rewrite (accept_in_turn_after_taken ctx i ds w1 _ F'); [| discriminate].
  split; [reflexivity | exact F'].
Qed.

(** Why the race is lost: once [findById] has answered, the reply and the
    write depend on that answer alone, whatever the collection holds by
    then.  An eligible driver who loaded the ride while it was pending is
    told that the ride is theirs and overwrites its driver. *)
Lemma accept_resume_ignores_store (ctx : Ctx) (d : User.t) (r : Ride.t) (w : World) :
  Ride.status r = pending ->
  eligible d r ->
  snd (try_catch (DriverRoutes.accept_resume ctx d (Some r))
                 (error 500 "Failed to accept ride") w)
  = success 200 "Ride accepted successfully" (RideAccepted (Ride._id r))
  /\ forall stored : Ride.t,
       ride_of (Ride._id r) w = Some stored ->
       ride_of (Ride._id r)
               (fst (try_catch (DriverRoutes.accept_resume ctx d (Some r))
                               (error 500 "Failed to accept ride") w))
       = Some (DriverRoutes.accept_changes ctx d stored).
Proof.
  intros S [V A]. unfold DriverRoutes.accept_resume. run_handler.
  rewrite S, V, String.eqb_refl, A. simpl status_eqb. cbn [negb].
  destruct (io ctx); simpl; (split; [reflexivity |]); intros stored F;
    unfold ride_of; simpl;
    apply (find_update_same Ride._id (Ride._id r) _ (rides w) stored);
    (reflexivity || exact F).
Qed.

(** C1, at the failing input. Two available "Car" drivers accept the same
    pending ride; both requests get the answer of [findById] before either
    saves.  Both are told that they have the ride, the user gets two
    [ride-accepted] events, both drivers are made unavailable, and the
    ride's driver is the one who saved last. *)
Theorem accept_race_two_winners :
  let w := Sample.world [Sample.ride 100 pending None None] in
  let result :=
    DriverRoutes.run_schedule Sample.ctx 100 [0; 1; 0; 1]%nat
      (DriverRoutes.incoming [Sample.dev; Sample.ravi]) w in
  map DriverRoutes.phase (fst result)
  = [ DriverRoutes.Done (success 200 "Ride accepted successfully" (RideAccepted 100));
      DriverRoutes.Done (success 200 "Ride accepted successfully" (RideAccepted 100)) ]
  /\ status_of 100 (snd result) = Some accepted
  /\ option_map Ride.driver (ride_of 100 (snd result)) = Some (Some 11%nat)
  /\ map event (emitted (snd result)) = ["ride-accepted"; "ride-accepted"]
  /\ map (fun u => User.isAvailable (User.driverInfo u)) (users (snd result))
     = [false; false; false].
Proof. cbv zeta. repeat split. Qed.

(** The same two attempts one after the other: one winner. *)
Example accept_in_turn_two_drivers :
  let w := Sample.world [Sample.ride 100 pending None None] in
  fst (DriverRoutes.accept_in_turn Sample.ctx 100 [Sample.dev; Sample.ravi] w)
  = [success 200 "Ride accepted successfully" (RideAccepted 100); RideUnavailable]
  /\ DriverRoutes.run_schedule Sample.ctx 100 [0; 0; 1; 1]%nat
       (DriverRoutes.incoming [Sample.dev; Sample.ravi]) w
     = ([ {| DriverRoutes.caller := Sample.dev;
             DriverRoutes.phase :=
               DriverRoutes.Done
                 (success 200 "Ride accepted successfully" (RideAccepted 100)) |};
          {| DriverRoutes.caller := Sample.ravi;
             DriverRoutes.phase := DriverRoutes.Done RideUnavailable |} ],
        snd (DriverRoutes.accept_in_turn Sample.ctx 100 [Sample.dev; Sample.ravi] w)).
Proof. cbv zeta. split; reflexivity. Qed.

(* ================================================================== *)
(** * Further properties of the code *)

(** ** Fares *)

Lemma Math_round_mono (x y : Q) : x <= y -> Math_round x <= Math_round y.
Proof.
  intro H. unfold Math_round. rewrite <- Zle_Qle.
  apply Qfloor_resp_le. lra.
Qed.

Lemma rates_positive (c : string) :
  0 < Fare.base (Fare.rates_for c) /\
  0 < Fare.perKm (Fare.rates_for c) /\
  0 < Fare.perMin (Fare.rates_for c).
Proof.
  pose proof (rates_for_table c) as H. simpl in H.
  destruct H as [H | [H | [H | [H | []]]]]; rewrite <- H; simpl;
    repeat split; reflexivity.
Qed.

Lemma round_cents_mono (x y : Q) :
  x <= y -> Math_round (x * 100) / 100 <= Math_round (y * 100) / 100.
Proof.
  intro H. assert (M : Math_round (x * 100) <= Math_round (y * 100))
    by (apply Math_round_mono; lra).
  revert M. generalize (Math_round (x * 100)) (Math_round (y * 100)).
  intros a b M. qdiv. lra.
Qed.

(** A longer or slower trip never costs less: the distance fare, the time
    fare and the total of [calculateFare] grow with distance and duration,
    for any vehicle type that is not the name of an inherited property and
    any surge factor that is not negative. *)
Theorem calculateFare_monotone (d d' t t' surge : Q) (vehicleType : string) :
  is_inherited vehicleType = false ->
  d <= d' -> t <= t' -> 0 <= surge ->
  let f := Fare.calculateFare d t vehicleType surge in
  let f' := Fare.calculateFare d' t' vehicleType surge in
  Fare.distanceFare f <= Fare.distanceFare f' /\
  Fare.timeFare f <= Fare.timeFare f' /\
  Fare.totalFare f <= Fare.totalFare f'.
Proof.
  intros _ Hd Ht Hs. cbv zeta.
  destruct (rates_positive vehicleType) as [Hb [Hk Hm]].
  unfold Fare.calculateFare; simpl.
  set (r := Fare.rates_for vehicleType) in *.
  revert Hb Hk Hm.
  generalize (Fare.base r) (Fare.perKm r) (Fare.perMin r). intros b k m Hb Hk Hm.
  split; [| split]; apply round_cents_mono.
  - nra.
  - nra.
  - assert (A : d * k <= d' * k) by nra.
    assert (B : t * m <= t' * m) by nra.
    assert (C : b + d * k + t * m <= b + d' * k + t' * m) by lra.
    nra.
Qed.

Lemma calculateFare_monotone_witness :
  let f := Fare.calculateFare 6.2 18 "Car" 1 in
  let f' := Fare.calculateFare 7 20 "Car" 1 in
  Fare.distanceFare f <= Fare.distanceFare f' /\
  Fare.timeFare f <= Fare.timeFare f' /\
  Fare.totalFare f <= Fare.totalFare f'.
Proof.
  apply (calculateFare_monotone 6.2 7 18 20 1 "Car").
  - reflexivity.
  - vm_compute. discriminate.
  - vm_compute. discriminate.
  - vm_compute. discriminate.
Defined.

Lemma cents_integer_gap (a b : Z) (x y : Q) :
  x == inject_Z a * (1 # 100) -> y == inject_Z b * (1 # 100) ->
  x - y < (15 # 1000) -> - (15 # 1000) < x - y ->
  - (1 # 100) <= x - y /\ x - y <= (1 # 100).
Proof.
  intros Hx Hy U L.
  assert (A : inject_Z (a - b) < inject_Z 2).
  { unfold Zminus. rewrite inject_Z_plus, inject_Z_opp.
    change (inject_Z 2) with 2. lra. }
  assert (B : inject_Z (-2) < inject_Z (a - b)).
  { unfold Zminus. rewrite inject_Z_plus, inject_Z_opp.
    change (inject_Z (-2)) with (-2). lra. }
  rewrite <- Zlt_Qlt in A, B.
  assert (C : inject_Z (a - b) <= inject_Z 1) by (rewrite <- Zle_Qle; lia).
  assert (D : inject_Z (-1) <= inject_Z (a - b)) by (rewrite <- Zle_Qle; lia).
  unfold Zminus in C, D. rewrite inject_Z_plus, inject_Z_opp in C, D.
  change (inject_Z 1) with 1 in C. change (inject_Z (-1)) with (-1) in D.
  split; lra.
Qed.

(** At surge 1 the components a fare shows add up to the total it shows, up
    to one cent: each is rounded on its own.  The vehicle type is any
    string that is not the name of an inherited property. *)
Theorem calculateFare_breakdown_adds_up (d t : Q) (vehicleType : string) :
  is_inherited vehicleType = false ->
  let f := Fare.calculateFare d t vehicleType 1 in
  - (1 # 100)
  <= Fare.totalFare f - (Fare.baseFare f + Fare.distanceFare f + Fare.timeFare f)
  /\ Fare.totalFare f - (Fare.baseFare f + Fare.distanceFare f + Fare.timeFare f)
     <= (1 # 100).
Proof.
  intros _. cbv zeta.
  set (r := Fare.rates_for vehicleType).
  destruct (base_in_cents vehicleType) as [[nb Hb] _].
  destruct (round_cents (d * Fare.perKm r)) as [[nd Hd] [Hd1 Hd2]].
  destruct (round_cents (t * Fare.perMin r)) as [[nt Ht] [Ht1 Ht2]].
  destruct (round_cents ((Fare.base r + d * Fare.perKm r + t * Fare.perMin r) * 1))
    as [[n Hn] [Hn1 Hn2]].
  unfold Fare.calculateFare; simpl. fold r. fold r in Hb.
  remember (Math_round ((Fare.base r + d * Fare.perKm r + t * Fare.perMin r) * 1 * 100) / 100)
    as T eqn:ET.
  remember (Math_round (d * Fare.perKm r * 100) / 100) as D eqn:ED.
  remember (Math_round (t * Fare.perMin r * 100) / 100) as M eqn:EM.
  clear ET ED EM.
  remember (d * Fare.perKm r) as dk eqn:Edk.
  remember (t * Fare.perMin r) as tm eqn:Etm.
  clear Edk Etm.
  remember (Fare.base r) as b eqn:Eb. clear Eb.
  apply (cents_integer_gap n (nb + nd + nt) T (b + D + M)).
  - exact Hn.
  - rewrite !inject_Z_plus. lra.
  - lra.
  - lra.
Qed.

Lemma calculateFare_breakdown_adds_up_witness :
  let f := Fare.calculateFare 6.2 18 "Van" 1 in
  - (1 # 100)
  <= Fare.totalFare f - (Fare.baseFare f + Fare.distanceFare f + Fare.timeFare f)
  /\ Fare.totalFare f - (Fare.baseFare f + Fare.distanceFare f + Fare.timeFare f)
     <= (1 # 100).
Proof.
  apply (calculateFare_breakdown_adds_up 6.2 18 "Van").
  reflexivity.
Defined.

(** The bound is reached: two half cents are each rounded up, their sum is
    not. *)
Example calculateFare_breakdown_off_by_a_cent :
  let f := Fare.calculateFare (625 # 1000000) (5 # 1000) "Bike" 1 in
  Fare.totalFare f - (Fare.baseFare f + Fare.distanceFare f + Fare.timeFare f)
  == - (1 # 100).
Proof. vm_compute. reflexivity. Qed.

(** No trip is cheaper than the base fare: for a vehicle type that is not
    the name of an inherited property, a distance and a duration that are
    not negative and a surge factor of at least 1, the total is at least
    the base fare of the class, and the base fare is at least 20. *)
Theorem calculateFare_at_least_base (d t surge : Q) (vehicleType : string) :
  is_inherited vehicleType = false ->
  0 <= d -> 0 <= t -> 1 <= surge ->
  let f := Fare.calculateFare d t vehicleType surge in
  20 <= Fare.baseFare f /\ Fare.baseFare f <= Fare.totalFare f.
Proof.
  intros _ Hd Ht Hs. cbv zeta.
  destruct (rates_positive vehicleType) as [Hb [Hk Hm]].
  pose proof (rates_for_table vehicleType) as Tb.
  unfold Fare.calculateFare; simpl.
  set (r := Fare.rates_for vehicleType) in *.
  assert (R : Math_round (Fare.base r * 100) / 100 == Fare.base r /\ 20 <= Fare.base r).
  { simpl in Tb. destruct Tb as [H | [H | [H | [H | []]]]]; rewrite <- H; simpl;
      split; try reflexivity; vm_compute; discriminate. }
  destruct R as [R1 R2]. split; [exact R2 |].
  rewrite <- R1 at 1. apply round_cents_mono.
  revert Hb Hk Hm. generalize (Fare.base r) (Fare.perKm r) (Fare.perMin r).
  intros b k m Hb Hk Hm.
  assert (A : 0 <= d * k) by nra.
  assert (B : 0 <= t * m) by nra.
  nra.
Qed.

Lemma calculateFare_at_least_base_witness :
  let f := Fare.calculateFare 0 0 "Auto" 1 in
  20 <= Fare.baseFare f /\ Fare.baseFare f <= Fare.totalFare f.
Proof.
  apply (calculateFare_at_least_base 0 0 1 "Auto").
  - reflexivity.
  - vm_compute. discriminate.
  - vm_compute. discriminate.
  - vm_compute. discriminate.
Defined.

(** ** Refusals and authorisation *)

(** A call that is answered with a 4xx status has changed nothing: in every
    route the checks come before the first write. *)
Theorem refused_call_changes_nothing (valid : option Q -> bool) (c : Call) (w : World) :
  refused (snd (perform valid c w)) ->
  fst (perform valid c w) = w.
Proof.
  destruct c as [ctx u body dr | ctx u j | ctx u j why | ctx u j q fb
                 | ctx u j s | ctx u j c sp hd | ctx u a]; simpl.
  - unfold RideRoutes.request, RideRoutes.request_body.
    destruct dr as [est |]; run_handler; [| reflexivity].
    destruct (io ctx); simpl; intro H; not_refused.
  - unfold DriverRoutes.accept_ride, DriverRoutes.accept_ride_body,
      DriverRoutes.accept_resume. run_handler.
    destruct (find_doc Ride._id j (rides w)) as [x |]; [| reflexivity].
    destruct (status_eqb (Ride.status x) pending); [| reflexivity]. cbn [negb].
    destruct (String.eqb (Ride.rideType x) (User.vehicleType (User.driverInfo u)));
      [| reflexivity]. cbn [negb].
    destruct (User.isAvailable (User.driverInfo u)); [| reflexivity]. cbn [negb].
    destruct (io ctx); simpl; intro H; not_refused.
  - unfold RideRoutes.cancel, RideRoutes.cancel_body. run_handler.
    destruct (find_doc Ride._id j (rides w)) as [x |]; [| reflexivity].
    destruct (differs (Ride.user x) (User._id u)); [reflexivity |].
    destruct (includes ["completed"; "cancelled"] (status_name (Ride.status x)));
      [reflexivity |].
    destruct (Ride.driver x); simpl; intro H; not_refused.
  - unfold RideRoutes.rate, RideRoutes.rate_body. run_handler.
    destruct (find_doc Ride._id j (rides w)) as [x |]; [| reflexivity].
    destruct (differs (Ride.user x) (User._id u)); [reflexivity |].
    destruct (status_eqb (Ride.status x) completed); [| reflexivity]. cbn [negb].
    destruct (truthy (Ride.rating (Ride.userRating x))); [reflexivity |].
    destruct (valid q); cbn [negb]; [| simpl; intro H; not_refused].
    match goal with
    | |- context [RideRoutes.update_driver_rating ?o ?v] =>
        destruct (update_driver_rating_returns o v) as [w2 E]; rewrite E
    end.
    simpl; intro H; not_refused.
  - unfold RideRoutes.update_status, RideRoutes.update_status_body. run_handler.
    destruct (find_doc Ride._id j (rides w)) as [x |]; [| reflexivity].
    destruct (not_assigned_to x u); [reflexivity |].
    destruct (includes RideRoutes.validStatuses s); [| reflexivity]. cbn [negb].
    destruct (status_of_name s) as [s' |]; [| reflexivity].
    destruct (Ride.updateStatus x s'); [| reflexivity].
    simpl; intro H; not_refused.
  - unfold RideRoutes.track, RideRoutes.track_body. run_handler.
    destruct (find_doc Ride._id j (rides w)) as [x |]; [| reflexivity].
    destruct (not_assigned_to x u); [reflexivity |].
    destruct (includes ["started"; "completed"] (status_name (Ride.status x)));
      [| reflexivity]. cbn [negb].
    destruct (io ctx); simpl; intro H; not_refused.
  - unfold DriverRoutes.withdraw, DriverRoutes.withdraw_body. run_handler.
    destruct (Qeq_bool a 0 || Qle_bool a 0); [reflexivity |].
    destruct (Qgt_bool a _); [reflexivity |].
    simpl; intro H; not_refused.
Qed.

Lemma refused_call_changes_nothing_witness :
  fst (perform Sample.stars_1_to_5
         (CallCancel Sample.ctx Sample.dev 100 "no show")
         (Sample.world [Sample.ride 100 accepted (Some 10%nat) None]))
  = Sample.world [Sample.ride 100 accepted (Some 10%nat) None].
Proof.
  apply (refused_call_changes_nothing Sample.stars_1_to_5
           (CallCancel Sample.ctx Sample.dev 100 "no show")
           (Sample.world [Sample.ride 100 accepted (Some 10%nat) None])).
  unfold refused. simpl. lia.
Defined.

(** Who may change a ride.  A cancel or a rate call that succeeds comes
    from the requester of the ride; a status update or a track call that
    succeeds comes from the driver the ride is assigned to, and the status
    it names is one of accepted, arrived, started, completed; an accept
    call that succeeds found the ride pending and of the driver's vehicle
    type, and the driver available; a withdrawal that succeeds is of a
    positive amount within the driver's earnings; a ride request that
    succeeds had a route estimate. *)
Theorem success_means_authorised (valid : option Q -> bool) (c : Call) (w : World) :
  http (snd (perform valid c w)) = 200%nat \/ http (snd (perform valid c w)) = 201%nat ->
  match c with
  | CallCancel _ u i _ | CallRate _ u i _ _ =>
      exists r, ride_of i w = Some r /\ Ride.user r = User._id u
  | CallStatus _ u i s =>
      (exists r, ride_of i w = Some r /\ Ride.driver r = Some (User._id u))
      /\ In s RideRoutes.validStatuses
  | CallTrack _ u i _ _ _ =>
      exists r, ride_of i w = Some r /\ Ride.driver r = Some (User._id u)
  | CallAccept _ u i =>
      exists r, ride_of i w = Some r /\ Ride.status r = pending /\ eligible u r
  | CallRequest _ _ _ dr => exists est, dr = Some est
  | CallWithdraw _ u a => 0 < a /\ a <= earnings (User._id u) w
  end.
Proof.
  assert (NA : forall x u, not_assigned_to x u = false ->
                           Ride.driver x = Some (User._id u)).
  { intros x u H. unfold not_assigned_to, differs in H.
    destruct (Ride.driver x) as [d |]; [| discriminate].
    apply negb_false_iff, Nat.eqb_eq in H. congruence. }
  destruct c as [ctx u body dr | ctx u j | ctx u j why | ctx u j q fb
                 | ctx u j s | ctx u j c sp hd | ctx u a]; simpl.
  - unfold RideRoutes.request, RideRoutes.request_body.
    destruct dr as [est |]; run_handler; [intros _; exists est; reflexivity |].
    simpl. intros [H | H]; discriminate H.
  - unfold DriverRoutes.accept_ride, DriverRoutes.accept_ride_body,
      DriverRoutes.accept_resume, ride_of. run_handler.
    destruct (find_doc Ride._id j (rides w)) as [x |];
      [| simpl; intros [H | H]; discriminate H].
    destruct (status_eqb (Ride.status x) pending) eqn:S;
      [| simpl; intros [H | H]; discriminate H]. cbn [negb].
    destruct (String.eqb (Ride.rideType x) (User.vehicleType (User.driverInfo u))) eqn:V;
      [| simpl; intros [H | H]; discriminate H]. cbn [negb].
    destruct (User.isAvailable (User.driverInfo u)) eqn:A;
      [| simpl; intros [H | H]; discriminate H].
    intros _. exists x. split; [reflexivity |].
    split; [apply status_eqb_eq; exact S |].
    split; [apply String.eqb_eq; exact V | exact A].
  - unfold RideRoutes.cancel, RideRoutes.cancel_body, ride_of. run_handler.
    destruct (find_doc Ride._id j (rides w)) as [x |];
      [| simpl; intros [H | H]; discriminate H].
    destruct (differs (Ride.user x) (User._id u)) eqn:D;
      [simpl; intros [H | H]; discriminate H |].
    intros _. exists x. split; [reflexivity |].
    unfold differs in D. apply negb_false_iff, Nat.eqb_eq in D. exact D.
  - intros [H | H].
    + destruct (rate_success valid ctx u j q fb w H) as [x [F [U _]]].
      exists x. split; assumption.
    + exfalso. revert H.
      destruct (http (snd (RideRoutes.rate valid ctx u j q fb w)) =? 200)%nat eqn:E.
      * apply Nat.eqb_eq in E. rewrite E. discriminate.
      * apply Nat.eqb_neq in E. revert E.
        unfold RideRoutes.rate, RideRoutes.rate_body. run_handler.
        destruct (find_doc Ride._id j (rides w)) as [x |]; [| discriminate].
        destruct (differs (Ride.user x) (User._id u)); [discriminate |].
        destruct (status_eqb (Ride.status x) completed); [| discriminate]. cbn [negb].
        destruct (truthy (Ride.rating (Ride.userRating x))); [discriminate |].
        destruct (valid q); cbn [negb]; [| discriminate].
        match goal with
        | |- context [RideRoutes.update_driver_rating ?o ?v] =>
            destruct (update_driver_rating_returns o v) as [w2 E]; rewrite E
        end.
        simpl. intro N. contradiction N. reflexivity.
  - unfold RideRoutes.update_status, RideRoutes.update_status_body, ride_of. run_handler.
    destruct (find_doc Ride._id j (rides w)) as [x |];
      [| simpl; intros [H | H]; discriminate H].
    destruct (not_assigned_to x u) eqn:N; [simpl; intros [H | H]; discriminate H |].
    destruct (includes RideRoutes.validStatuses s) eqn:I;
      [| simpl; intros [H | H]; discriminate H].
    intros _. split.
    + exists x. split; [reflexivity | apply NA; exact N].
    + unfold includes in I. apply existsb_exists in I.
      destruct I as [n [In E]]. apply String.eqb_eq in E. subst. exact In.
  - unfold RideRoutes.track, RideRoutes.track_body, ride_of. run_handler.
    destruct (find_doc Ride._id j (rides w)) as [x |];
      [| simpl; intros [H | H]; discriminate H].
    destruct (not_assigned_to x u) eqn:N; [simpl; intros [H | H]; discriminate H |].
    intros _. exists x. split; [reflexivity | apply NA; exact N].
  - unfold DriverRoutes.withdraw, DriverRoutes.withdraw_body. run_handler.
    destruct (Qeq_bool a 0 || Qle_bool a 0) eqn:Z;
      [simpl; intros [H | H]; discriminate H |].
    apply orb_false_iff in Z. destruct Z as [_ Z]. apply Qle_bool_false in Z.
    destruct (Qgt_bool a _) eqn:G; [simpl; intros [H | H]; discriminate H |].
    intros _. split; [exact Z |].
    unfold Qgt_bool in G. apply negb_false_iff, Qle_bool_iff in G.
    rewrite availableAmount_earnings in G. exact G.
Qed.

Lemma success_means_authorised_witness :
  exists r, ride_of 100 (Sample.world [Sample.ride 100 started (Some 10%nat) None]) = Some r
            /\ Ride.driver r = Some 10%nat.
Proof.
  apply (success_means_authorised Sample.stars_1_to_5
           (CallTrack Sample.ctx Sample.dev 100 (77.6, 12.9) 30 90)
           (Sample.world [Sample.ride 100 started (Some 10%nat) None])).
  left. reflexivity.
Defined.

(** ** Availability *)

Lemma unavailable_driver_is_refused (ctx : Ctx) (d : User.t) (j : ObjectId) (w : World) :
  User.isAvailable (User.driverInfo d) = false ->
  fst (DriverRoutes.accept_ride ctx d j w) = w /\
  http (snd (DriverRoutes.accept_ride ctx d j w)) <> 200%nat.
Proof.
  intro A.
  unfold DriverRoutes.accept_ride, DriverRoutes.accept_ride_body,
    DriverRoutes.accept_resume. run_handler.
  destruct (find_doc Ride._id j (rides w)) as [x |]; [| split; [reflexivity | discriminate]].
  destruct (status_eqb (Ride.status x) pending); [| split; [reflexivity | discriminate]].
  cbn [negb].
  destruct (String.eqb (Ride.rideType x) (User.vehicleType (User.driverInfo d)));
    [| split; [reflexivity | discriminate]].
  rewrite A. simpl. split; [reflexivity | discriminate].
Qed.

(** The collections after an accept call that went through. *)
Lemma accept_writes (ctx : Ctx) (d : User.t) (i : ObjectId) (w : World) (r : Ride.t) :
  ride_of i w = Some r ->
  Ride.status r = pending ->
  eligible d r ->
  rides (fst (DriverRoutes.accept_ride ctx d i w))
  = update_doc Ride._id i (DriverRoutes.accept_changes ctx d) (rides w)
  /\ users (fst (DriverRoutes.accept_ride ctx d i w))
     = update_doc User._id (User._id d) (User.set_isAvailable false) (users w)
  /\ payments (fst (DriverRoutes.accept_ride ctx d i w)) = payments w
  /\ snd (DriverRoutes.accept_ride ctx d i w)
     = success 200 "Ride accepted successfully" (RideAccepted i).
Proof.
  intros F S [V A]. rewrite (accept_ride_found ctx d i w r F).
  destruct (find_doc_In _ _ _ _ F) as [_ K].
  unfold DriverRoutes.accept_resume. run_handler.
  rewrite S, V, String.eqb_refl, A. simpl status_eqb. cbn [negb]. rewrite K.
  destruct (io ctx); simpl; repeat split; reflexivity.
Qed.

(** After a driver has accepted a ride, the driver as stored is not
    available, and no accept call of that driver goes through: the call is
    refused and changes nothing, whichever ride it names. *)
Theorem accepting_makes_driver_unavailable
        (ctx ctx' : Ctx) (d : User.t) (i j : ObjectId) (w : World) (r : Ride.t) :
  ride_of i w = Some r ->
  Ride.status r = pending ->
  eligible d r ->
  find_doc User._id (User._id d) (users w) = Some d ->
  let w' := fst (DriverRoutes.accept_ride ctx d i w) in
  exists d' : User.t,
    find_doc User._id (User._id d) (users w') = Some d'
    /\ User.isAvailable (User.driverInfo d') = false
    /\ User.vehicleType (User.driverInfo d') = User.vehicleType (User.driverInfo d)
    /\ fst (DriverRoutes.accept_ride ctx' d' j w') = w'
    /\ http (snd (DriverRoutes.accept_ride ctx' d' j w')) <> 200%nat.
Proof.
  intros F S E U. cbv zeta.
  destruct (accept_writes ctx d i w r F S E) as [_ [Us _]].
  exists (User.set_isAvailable false d).
  split; [| split; [reflexivity | split; [reflexivity |]]].
  - rewrite Us. apply find_update_same; [reflexivity | exact U].
  - apply unavailable_driver_is_refused. reflexivity.
Qed.

Lemma accepting_makes_driver_unavailable_witness :
  let w := Sample.world [Sample.ride 100 pending None None;
                         Sample.ride 101 pending None None] in
  let w' := fst (DriverRoutes.accept_ride Sample.ctx Sample.dev 100 w) in
  exists d' : User.t,
    find_doc User._id 10 (users w') = Some d'
    /\ User.isAvailable (User.driverInfo d') = false
    /\ User.vehicleType (User.driverInfo d') = "Car"
    /\ fst (DriverRoutes.accept_ride Sample.ctx d' 101 w') = w'
    /\ http (snd (DriverRoutes.accept_ride Sample.ctx d' 101 w')) <> 200%nat.
Proof.
  apply (accepting_makes_driver_unavailable Sample.ctx Sample.ctx Sample.dev 100 101
           (Sample.world [Sample.ride 100 pending None None;
                          Sample.ride 101 pending None None])
           (Sample.ride 100 pending None None)).
  - reflexivity.
  - reflexivity.
  - split; reflexivity.
  - reflexivity.
Defined.

(** The availability flag is whatever the driver set last, whether or not
    a ride is in progress: a driver who has accepted a ride and then sets
    the flag again gets a second pending ride, and holds both. *)
Theorem availability_is_independent_of_rides
        (ctx ctx' : Ctx) (d : User.t) (i j : ObjectId) (w : World) (ri rj : Ride.t) :
  ride_of i w = Some ri ->
  ride_of j w = Some rj ->
  i <> j ->
  Ride.status ri = pending ->
  Ride.status rj = pending ->
  eligible d ri ->
  eligible d rj ->
  find_doc User._id (User._id d) (users w) = Some d ->
  let w1 := fst (DriverRoutes.accept_ride ctx d i w) in
  let w2 := fst (DriverQueries.availability d true w1) in
  exists d2 : User.t,
    find_doc User._id (User._id d) (users w2) = Some d2
    /\ User.isAvailable (User.driverInfo d2) = true
    /\ snd (DriverRoutes.accept_ride ctx' d2 j w2)
       = success 200 "Ride accepted successfully" (RideAccepted j)
    /\ let w3 := fst (DriverRoutes.accept_ride ctx' d2 j w2) in
       option_map Ride.driver (ride_of i w3) = Some (Some (User._id d))
       /\ status_of i w3 = Some accepted
       /\ option_map Ride.driver (ride_of j w3) = Some (Some (User._id d))
       /\ status_of j w3 = Some accepted.
Proof.
  intros Fi Fj N Si Sj Ei Ej U. cbv zeta.
  destruct (accept_writes ctx d i w ri Fi Si Ei) as [R1 [U1 _]].
  set (w1 := fst (DriverRoutes.accept_ride ctx d i w)) in *.
  set (w2 := fst (DriverQueries.availability d true w1)).
  assert (R2 : rides w2 = rides w1) by reflexivity.
  assert (U2 : users w2
               = update_doc User._id (User._id d) (User.set_isAvailable true) (users w1))
    by reflexivity.
  set (d2 := User.set_isAvailable true (User.set_isAvailable false d)).
  assert (F2 : find_doc User._id (User._id d) (users w2) = Some d2).
  { rewrite U2, U1. apply find_update_same; [reflexivity |].
    apply find_update_same; [reflexivity | exact U]. }
  assert (Fi2 : ride_of i w2 = Some (DriverRoutes.accept_changes ctx d ri)).
  { unfold ride_of. rewrite R2, R1.
    apply find_update_same; [reflexivity | exact Fi]. }
  assert (Fj2 : ride_of j w2 = Some rj).
  { unfold ride_of. rewrite R2, R1.
    rewrite find_update_other; [exact Fj | reflexivity | congruence]. }
  assert (E2 : eligible d2 rj) by (destruct Ej as [V A]; split; [exact V | reflexivity]).
  destruct (accept_writes ctx' d2 j w2 rj Fj2 Sj E2) as [R3 [_ [_ Resp]]].
  exists d2. split; [exact F2 | split; [reflexivity | split; [exact Resp |]]].
  unfold status_of, ride_of. rewrite R3.
  rewrite (find_update_other Ride._id i j _ (rides w2)); [| reflexivity | exact N].
  unfold ride_of in Fi2, Fj2. rewrite Fi2.
  rewrite (find_update_same Ride._id j _ (rides w2) rj); [| reflexivity | exact Fj2].
  repeat split.
Qed.

Lemma availability_is_independent_of_rides_witness :
  let w := Sample.world [Sample.ride 100 pending None None;
                         Sample.ride 101 pending None None] in
  let w1 := fst (DriverRoutes.accept_ride Sample.ctx Sample.dev 100 w) in
  let w2 := fst (DriverQueries.availability Sample.dev true w1) in
  exists d2 : User.t,
    find_doc User._id 10 (users w2) = Some d2
    /\ User.isAvailable (User.driverInfo d2) = true
    /\ snd (DriverRoutes.accept_ride Sample.ctx d2 101 w2)
       = success 200 "Ride accepted successfully" (RideAccepted 101)
    /\ let w3 := fst (DriverRoutes.accept_ride Sample.ctx d2 101 w2) in
       option_map Ride.driver (ride_of 100 w3) = Some (Some 10%nat)
       /\ status_of 100 w3 = Some accepted
       /\ option_map Ride.driver (ride_of 101 w3) = Some (Some 10%nat)
       /\ status_of 101 w3 = Some accepted.
Proof.
  apply (availability_is_independent_of_rides Sample.ctx Sample.ctx Sample.dev 100 101
           (Sample.world [Sample.ride 100 pending None None;
                          Sample.ride 101 pending None None])
           (Sample.ride 100 pending None None) (Sample.ride 101 pending None None)).
  - reflexivity.
  - reflexivity.
  - discriminate.
  - reflexivity.
  - reflexivity.
  - split; reflexivity.
  - split; reflexivity.
  - reflexivity.
Defined.

Lemma accept_in_turn_first_wins_witness :
  fst (DriverRoutes.accept_in_turn Sample.ctx 100 [Sample.dev; Sample.ravi; Sample.dev]
         (Sample.world [Sample.ride 100 pending None None]))
  = success 200 "Ride accepted successfully" (RideAccepted 100)
    :: map (fun _ => RideUnavailable) [Sample.ravi; Sample.dev]
  /\ ride_of 100
       (snd (DriverRoutes.accept_in_turn Sample.ctx 100 [Sample.dev; Sample.ravi; Sample.dev]
               (Sample.world [Sample.ride 100 pending None None])))
     = Some (DriverRoutes.accept_changes Sample.ctx Sample.dev
               (Sample.ride 100 pending None None)).
Proof.
  apply (accept_in_turn_first_wins Sample.ctx 100 Sample.dev [Sample.ravi; Sample.dev]
           (Sample.world [Sample.ride 100 pending None None])
           (Sample.ride 100 pending None None)).
  - reflexivity.
  - reflexivity.
  - split; reflexivity.
Defined.



(** ** Reading rides *)

Lemma find_doc_app_absent {A : Type} (key : A -> ObjectId) (i : ObjectId)
      (l : list A) (x : A) :
  find_doc key i l = None -> key x = i -> find_doc key i (l ++ [x]) = Some x.
Proof.
  intros N K. induction l as [| y t IH]; simpl in *.
  - rewrite K, Nat.eqb_refl. reflexivity.
  - destruct (Nat.eqb (key y) i); [discriminate | auto].
Qed.

Lemma find_app_absent {A : Type} (p : A -> bool) (l : list A) (x : A) :
  find p l = None -> find p (l ++ [x]) = if p x then Some x else None.
Proof.
  intro N. induction l as [| y t IH]; simpl in *; [reflexivity |].
  destruct (p y); [discriminate | auto].
Qed.

Lemma find_update_first {A : Type} (key : A -> ObjectId) (p : A -> bool)
      (i : ObjectId) (f : A -> A) (l : list A) (r : A) :
  find p l = None ->
  find_doc key i l = Some r ->
  p (f r) = true ->
  find p (update_doc key i f l) = Some (f r).
Proof.
  intros N F P. induction l as [| y t IH]; simpl in *; [discriminate |].
  destruct (p y) eqn:Py; [discriminate |].
  destruct (Nat.eqb (key y) i).
  - injection F as ->. simpl. rewrite P. reflexivity.
  - simpl. rewrite Py. auto.
Qed.

Lemma details_run (u : User.t) (i : ObjectId) (w : World) (r : Ride.t) (ru : User.t) :
  ride_of i w = Some r ->
  find_doc User._id (Ride.user r) (users w) = Some ru ->
  RideQueries.details u i w
  = (w,
     if differs (User._id ru) (User._id u)
        && match populate w (Ride.driver r) with
           | None => true
           | Some rd => differs (User._id rd) (User._id u)
           end
     then inl (error 403 "Unauthorized access to ride")
     else inr {| RideQueries.doc := r; RideQueries.requester := ru;
                 RideQueries.assigned := populate w (Ride.driver r) |}).
Proof.
  intros F U.
  unfold RideQueries.details, RideQueries.details_body, try_catch_data. run_handler.
  unfold ride_of in F. rewrite F. unfold populate at 1. rewrite U.
  destruct (differs (User._id ru) (User._id u)
            && match populate w (Ride.driver r) with
               | None => true
               | Some rd => differs (User._id rd) (User._id u)
               end); reflexivity.
Qed.

(** Who may read a ride.  For a stored caller and a ride whose requester
    exists, [GET /:rideId] answers with the ride exactly when the caller is
    the requester or the driver the ride is assigned to; everyone else is
    answered 403; nothing is written. *)
Theorem details_only_for_the_parties
        (u : User.t) (i : ObjectId) (w : World) (r : Ride.t) (ru : User.t) :
  ride_of i w = Some r ->
  find_doc User._id (Ride.user r) (users w) = Some ru ->
  find_doc User._id (User._id u) (users w) = Some u ->
  fst (RideQueries.details u i w) = w /\
  ((User._id u = Ride.user r \/ Ride.driver r = Some (User._id u)) ->
   snd (RideQueries.details u i w)
   = inr {| RideQueries.doc := r; RideQueries.requester := ru;
            RideQueries.assigned := populate w (Ride.driver r) |}) /\
  (~ (User._id u = Ride.user r \/ Ride.driver r = Some (User._id u)) ->
   snd (RideQueries.details u i w) = inl (error 403 "Unauthorized access to ride")).
Proof.
  intros F U C. rewrite (details_run u i w r ru F U). cbn [fst snd].
  destruct (find_doc_In _ _ _ _ U) as [_ Kru].
  split; [reflexivity |].
  unfold differs. rewrite Kru.
  destruct (Nat.eqb (Ride.user r) (User._id u)) eqn:E1; cbn [negb andb].
  - apply Nat.eqb_eq in E1. split; [reflexivity |].
    intro N. exfalso. apply N. left. congruence.
  - apply Nat.eqb_neq in E1.
    destruct (Ride.driver r) as [d |] eqn:D; simpl.
    + destruct (find_doc User._id d (users w)) as [rd |] eqn:Fd.
      * destruct (find_doc_In _ _ _ _ Fd) as [_ Krd]. rewrite Krd.
        destruct (Nat.eqb d (User._id u)) eqn:E2; cbn [negb].
        -- split; [reflexivity |]. intro N. exfalso. apply N. right.
           apply Nat.eqb_eq in E2. congruence.
        -- apply Nat.eqb_neq in E2. split; [| reflexivity].
           intros [H | H]; [congruence | injection H as H; contradiction].
      * split; [| reflexivity].
        intros [H | H]; [congruence |].
        injection H as H. subst d. rewrite C in Fd. discriminate Fd.
    + split; [| reflexivity]. intros [H | H]; [congruence | discriminate H].
Qed.

Lemma details_only_for_the_parties_witness :
  let w := Sample.world [Sample.ride 100 accepted (Some 10%nat) None] in
  fst (RideQueries.details Sample.ravi 100 w) = w /\
  ((11%nat = 1%nat \/ Some 10%nat = Some 11%nat) ->
   snd (RideQueries.details Sample.ravi 100 w)
   = inr {| RideQueries.doc := Sample.ride 100 accepted (Some 10%nat) None;
            RideQueries.requester := Sample.rider;
            RideQueries.assigned := populate w (Some 10%nat) |}) /\
  (~ (11%nat = 1%nat \/ Some 10%nat = Some 11%nat) ->
   snd (RideQueries.details Sample.ravi 100 w) = inl (error 403 "Unauthorized access to ride")).
Proof.
  apply (details_only_for_the_parties Sample.ravi 100
           (Sample.world [Sample.ride 100 accepted (Some 10%nat) None])
           (Sample.ride 100 accepted (Some 10%nat) None) Sample.rider).
  - reflexivity.
  - reflexivity.
  - reflexivity.
Defined.

(** What a successful ride request appends. *)
Lemma request_writes (ctx : Ctx) (u : User.t) (body : RideRoutes.RideRequest)
      (est : Ride.Route) (w : World) :
  exists ride : Ride.t,
    rides (fst (RideRoutes.request ctx u body (Some est) w)) = (rides w ++ [ride])%list
    /\ users (fst (RideRoutes.request ctx u body (Some est) w)) = users w
    /\ Ride._id ride = newId ctx
    /\ Ride.user ride = User._id u
    /\ Ride.driver ride = None
    /\ Ride.rideType ride = RideRoutes.rideType body
    /\ Ride.route ride = est
    /\ Ride.status ride = pending
    /\ Ride.finalAmount (Ride.pricing ride)
       = Fare.totalFare (Fare.calculateFare (Ride.distance est) (Ride.duration est)
                                            (RideRoutes.rideType body) 1).
Proof.
  eexists. unfold RideRoutes.request, RideRoutes.request_body. run_handler.
  destruct (io ctx); simpl; repeat split; reflexivity.
Qed.

(** A ride that was requested can be read back: with an id that is new to
    the collection, the requester's [GET /:rideId] answers the ride just
    created, pending, without a driver, with the route estimate and the
    fare of the request. *)
Theorem request_then_details
        (ctx : Ctx) (u : User.t) (body : RideRoutes.RideRequest)
        (est : Ride.Route) (w : World) :
  ride_of (newId ctx) w = None ->
  find_doc User._id (User._id u) (users w) = Some u ->
  let w' := fst (RideRoutes.request ctx u body (Some est) w) in
  exists dt : RideQueries.Details,
    RideQueries.details u (newId ctx) w' = (w', inr dt)
    /\ RideQueries.requester dt = u
    /\ RideQueries.assigned dt = None
    /\ Ride.status (RideQueries.doc dt) = pending
    /\ Ride.route (RideQueries.doc dt) = est
    /\ Ride.finalAmount (Ride.pricing (RideQueries.doc dt))
       = Fare.totalFare (Fare.calculateFare (Ride.distance est) (Ride.duration est)
                                            (RideRoutes.rideType body) 1).
Proof.
  intros N U. cbv zeta.
  destruct (request_writes ctx u body est w)
    as [ride [R [Us [K [Ru [D [_ [Rt [S P]]]]]]]]].
  set (w' := fst (RideRoutes.request ctx u body (Some est) w)) in *.
  assert (F : ride_of (newId ctx) w' = Some ride).
  { unfold ride_of. rewrite R. apply find_doc_app_absent; assumption. }
  assert (U' : find_doc User._id (Ride.user ride) (users w') = Some u)
    by (rewrite Us, Ru; exact U).
  exists {| RideQueries.doc := ride; RideQueries.requester := u;
            RideQueries.assigned := None |}.
  split; [| repeat split; assumption].
  rewrite (details_run u (newId ctx) w' ride u F U').
  unfold differs. rewrite Nat.eqb_refl, D. reflexivity.
Qed.

Lemma request_then_details_witness :
  let w' := fst (RideRoutes.request Sample.ctx Sample.rider Sample.car_request
                   (Some {| Ride.distance := 6.2; Ride.duration := 18 |})
                   (Sample.world [])) in
  exists dt : RideQueries.Details,
    RideQueries.details Sample.rider 200 w' = (w', inr dt)
    /\ RideQueries.requester dt = Sample.rider
    /\ RideQueries.assigned dt = None
    /\ Ride.status (RideQueries.doc dt) = pending
    /\ Ride.route (RideQueries.doc dt) = {| Ride.distance := 6.2; Ride.duration := 18 |}
    /\ Ride.finalAmount (Ride.pricing (RideQueries.doc dt))
       = Fare.totalFare (Fare.calculateFare 6.2 18 "Car" 1).
Proof.
  apply (request_then_details Sample.ctx Sample.rider Sample.car_request
           {| Ride.distance := 6.2; Ride.duration := 18 |} (Sample.world [])).
  - reflexivity.
  - reflexivity.
Defined.

(** A requested ride is not the requester's active ride until a driver has
    accepted it.  For a requester without an active ride: after the request
    [GET /current/active] still answers 404 (the ride is pending, and
    pending is not among the statuses of the query); after the accept call
    of an eligible driver it answers that ride, accepted, with the driver. *)
Theorem active_ride_appears_on_accept
        (ctx ctx' : Ctx) (u d : User.t) (body : RideRoutes.RideRequest)
        (est : Ride.Route) (w : World) :
  ride_of (newId ctx) w = None ->
  find (RideQueries.active_of (User._id u)) (rides w) = None ->
  find_doc User._id (User._id d) (users w) = Some d ->
  User.vehicleType (User.driverInfo d) = RideRoutes.rideType body ->
  User.isAvailable (User.driverInfo d) = true ->
  let w1 := fst (RideRoutes.request ctx u body (Some est) w) in
  let w2 := fst (DriverRoutes.accept_ride ctx' d (newId ctx) w1) in
  RideQueries.current_active u w1 = (w1, inl (error 404 "No active ride found"))
  /\ exists ride : Ride.t,
       RideQueries.current_active u w2
       = (w2, inr (ride, Some (User.set_isAvailable false d)))
       /\ Ride._id ride = newId ctx
       /\ Ride.status ride = accepted
       /\ Ride.driver ride = Some (User._id d).
Proof.
  intros N A Ud V Av. cbv zeta.
  destruct (request_writes ctx u body est w)
    as [ride [R [Us [K [Ru [D [Ty [_ [S _]]]]]]]]].
  set (w1 := fst (RideRoutes.request ctx u body (Some est) w)) in *.
  assert (P1 : RideQueries.active_of (User._id u) ride = false).
  { unfold RideQueries.active_of. rewrite S. apply andb_false_r. }
  assert (A1 : find (RideQueries.active_of (User._id u)) (rides w1) = None).
  { rewrite R, (find_app_absent _ _ _ A), P1. reflexivity. }
  assert (F1 : ride_of (newId ctx) w1 = Some ride).
  { unfold ride_of. rewrite R. apply find_doc_app_absent; assumption. }
  assert (E1 : eligible d ride) by (split; [congruence | exact Av]).
  split.
  - unfold RideQueries.current_active, RideQueries.current_active_body, try_catch_data.
    run_handler. rewrite A1. reflexivity.
  - destruct (accept_writes ctx' d (newId ctx) w1 ride F1 S E1) as [R2 [U2 _]].
    set (w2 := fst (DriverRoutes.accept_ride ctx' d (newId ctx) w1)) in *.
    exists (DriverRoutes.accept_changes ctx' d ride).
    split; [| repeat split; assumption].
    unfold RideQueries.current_active, RideQueries.current_active_body, try_catch_data.
    run_handler. rewrite R2.
    rewrite (find_update_first Ride._id (RideQueries.active_of (User._id u))
               (newId ctx) _ (rides w1) ride A1 F1).
    + unfold populate. simpl. rewrite U2, Us.
      rewrite (find_update_same User._id (User._id d) _ (users w) d); [| reflexivity | exact Ud].
      reflexivity.
    + unfold RideQueries.active_of. simpl. rewrite Ru, Nat.eqb_refl. reflexivity.
Qed.

Lemma active_ride_appears_on_accept_witness :
  let w := Sample.world [] in
  let est := {| Ride.distance := 6.2; Ride.duration := 18 |} in
  let w1 := fst (RideRoutes.request Sample.ctx Sample.rider Sample.car_request (Some est) w) in
  let w2 := fst (DriverRoutes.accept_ride Sample.ctx Sample.dev 200 w1) in
  RideQueries.current_active Sample.rider w1 = (w1, inl (error 404 "No active ride found"))
  /\ exists ride : Ride.t,
       RideQueries.current_active Sample.rider w2
       = (w2, inr (ride, Some (User.set_isAvailable false Sample.dev)))
       /\ Ride._id ride = 200%nat
       /\ Ride.status ride = accepted
       /\ Ride.driver ride = Some 10%nat.
Proof.
  apply (active_ride_appears_on_accept Sample.ctx Sample.ctx Sample.rider Sample.dev
           Sample.car_request {| Ride.distance := 6.2; Ride.duration := 18 |}
           (Sample.world [])).
  - reflexivity.
  - reflexivity.
  - reflexivity.
  - reflexivity.
  - reflexivity.
Defined.

(** The driver's side: a driver without a current ride is answered 404 by
    [GET /current-ride]; once the driver's accept call has gone through,
    the answer is the ride just accepted, with its requester. *)
Theorem current_ride_after_accept
        (ctx : Ctx) (d : User.t) (i : ObjectId) (w : World) (r : Ride.t) :
  ride_of i w = Some r ->
  Ride.status r = pending ->
  eligible d r ->
  find (DriverQueries.current_of (User._id d)) (rides w) = None ->
  let w' := fst (DriverRoutes.accept_ride ctx d i w) in
  DriverQueries.current_ride d w = (w, inl (error 404 "No current ride found"))
  /\ DriverQueries.current_ride d w'
     = (w', inr (DriverRoutes.accept_changes ctx d r, populate w' (Some (Ride.user r)))).
Proof.
  intros F S E N. cbv zeta.
  destruct (accept_writes ctx d i w r F S E) as [R _].
  unfold DriverQueries.current_ride, DriverQueries.current_ride_body, try_catch_data.
  run_handler. rewrite N. split; [reflexivity |].
  rewrite R.
  rewrite (find_update_first Ride._id (DriverQueries.current_of (User._id d))
             i _ (rides w) r N F).
  - reflexivity.
  - unfold DriverQueries.current_of. simpl. rewrite Nat.eqb_refl. reflexivity.
Qed.

Lemma current_ride_after_accept_witness :
  let w := Sample.world [Sample.ride 100 pending None None] in
  let w' := fst (DriverRoutes.accept_ride Sample.ctx Sample.dev 100 w) in
  DriverQueries.current_ride Sample.dev w = (w, inl (error 404 "No current ride found"))
  /\ DriverQueries.current_ride Sample.dev w'
     = (w', inr (DriverRoutes.accept_changes Sample.ctx Sample.dev
                   (Sample.ride 100 pending None None),
                 populate w' (Some 1%nat))).
Proof.
  apply (current_ride_after_accept Sample.ctx Sample.dev 100
           (Sample.world [Sample.ride 100 pending None None])
           (Sample.ride 100 pending None None)).
  - reflexivity.
  - reflexivity.
  - split; reflexivity.
  - reflexivity.
Defined.

(** ** Listings: order and pages *)

Lemma insert_newest_perm (c : Ride.t -> Time) (x : Ride.t) (l : list Ride.t) :
  Permutation (insert_newest c x l) (x :: l).
Proof.
  induction l as [| y t IH]; simpl; [reflexivity |].
  destruct (Nat.leb (c y) (c x)); [reflexivity |].
  rewrite IH. apply perm_swap.
Qed.

Lemma sort_newest_perm (c : Ride.t -> Time) (l : list Ride.t) :
  Permutation (sort_newest c l) l.
Proof.
  induction l as [| x t IH]; simpl; [reflexivity |].
  rewrite insert_newest_perm. apply perm_skip. exact IH.
Qed.

Lemma insert_newest_sorted (c : Ride.t -> Time) (x : Ride.t) (l : list Ride.t) :
  newest_first c l -> newest_first c (insert_newest c x l).
Proof.
  unfold newest_first. induction l as [| y t IH]; simpl; intro S.
  - constructor; [constructor | constructor].
  - destruct (Nat.leb (c y) (c x)) eqn:E.
    + apply Nat.leb_le in E. constructor; [exact S |].
      constructor; [exact E |].
      apply StronglySorted_inv in S. destruct S as [_ F].
      rewrite Forall_forall in *. intros z Hz. specialize (F z Hz). lia.
    + apply Nat.leb_gt in E.
      apply StronglySorted_inv in S. destruct S as [S F].
      constructor; [apply IH; exact S |].
      rewrite Forall_forall in *. intros z Hz.
      apply (Permutation_in _ (insert_newest_perm c x t)) in Hz.
      destruct Hz as [<- | Hz]; [lia | apply F; exact Hz].
Qed.

Lemma sort_newest_sorted (c : Ride.t -> Time) (l : list Ride.t) :
  newest_first c (sort_newest c l).
Proof.
  induction l as [| x t IH]; simpl; [constructor |].
  apply insert_newest_sorted. exact IH.
Qed.

Lemma newest_first_firstn (c : Ride.t -> Time) (n : nat) (l : list Ride.t) :
  newest_first c l -> newest_first c (firstn n l).
Proof.
  unfold newest_first. revert n. induction l as [| x t IH]; intros n S.
  - rewrite firstn_nil. constructor.
  - destruct n; simpl; [constructor |].
    apply StronglySorted_inv in S. destruct S as [S F].
    constructor; [apply IH; exact S |].
    rewrite Forall_forall in *. intros z Hz. apply F.
    rewrite <- (firstn_skipn n t). apply in_or_app. left. exact Hz.
Qed.

Lemma newest_first_skipn (c : Ride.t -> Time) (n : nat) (l : list Ride.t) :
  newest_first c l -> newest_first c (skipn n l).
Proof.
  unfold newest_first. revert n. induction l as [| x t IH]; intros n S.
  - rewrite skipn_nil. constructor.
  - destruct n; simpl; [exact S |].
    apply StronglySorted_inv in S. destruct S as [S _]. apply IH. exact S.
Qed.

Lemma page_of_In {A : Type} (p l : positive) (xs : list A) (x : A) :
  In x (page_of p l xs) -> In x xs.
Proof.
  unfold page_of. intro H.
  rewrite <- (firstn_skipn ((Pos.to_nat p - 1) * Pos.to_nat l) xs).
  apply in_or_app. right.
  rewrite <- (firstn_skipn (Pos.to_nat l) (skipn _ xs)).
  apply in_or_app. left. exact H.
Qed.

Lemma page_of_length {A : Type} (p l : positive) (xs : list A) :
  (List.length (page_of p l xs) <= Pos.to_nat l)%nat.
Proof. unfold page_of. apply firstn_le_length. Qed.

Lemma firstn_plus {A : Type} (a b : nat) (l : list A) :
  firstn (a + b) l = (firstn a l ++ firstn b (skipn a l))%list.
Proof.
  revert l. induction a as [| a IH]; intro l; simpl; [reflexivity |].
  destruct l as [| x t]; simpl.
  - rewrite firstn_nil. reflexivity.
  - rewrite IH. reflexivity.
Qed.

(** The pages 1 to [n] of a list, one after the other, are its first
    [n * limit] elements. *)
Lemma pages_concat {A : Type} (limit : positive) (l : list A) (n : nat) :
  flat_map (fun k => page_of (Pos.of_nat (S k)) limit l) (seq 0 n)
  = firstn (n * Pos.to_nat limit) l.
Proof.
  induction n as [| n IH].
  - reflexivity.
  - rewrite seq_S, flat_map_app, IH. cbn [flat_map]. rewrite app_nil_r.
    change (0 + n)%nat with n.
    unfold page_of. rewrite Nat2Pos.id by discriminate.
    replace (S n - 1)%nat with n by lia.
    replace (S n * Pos.to_nat limit)%nat with (n * Pos.to_nat limit + Pos.to_nat limit)%nat
      by lia.
    rewrite firstn_plus. reflexivity.
Qed.

(** [Math.ceil(total / limit)] pages are enough, and one page fewer is not. *)
Lemma pages_enough (limit : positive) (n : nat) :
  let p := pages (pagination_of 1 limit n) in
  (0 <= p)%Z /\
  (n <= Z.to_nat p * Pos.to_nat limit)%nat /\
  (0 < n -> (Z.to_nat p - 1) * Pos.to_nat limit < n)%nat.
Proof.
  cbv zeta. unfold pagination_of, Math_ceil; simpl.
  set (x := inject_Z (Z.of_nat n) / inject_Z (Z.pos limit)).
  pose proof (Qle_ceiling x) as Hc.
  pose proof (Qceiling_lt x) as Hl.
  assert (Lp : 0 < inject_Z (Z.pos limit)).
  { change 0 with (inject_Z 0). rewrite <- Zlt_Qlt. lia. }
  assert (X : x * inject_Z (Z.pos limit) == inject_Z (Z.of_nat n)).
  { unfold x. field. intro E. rewrite E in Lp. apply Qlt_irrefl in Lp. exact Lp. }
  assert (X0 : 0 <= x).
  { unfold x. apply Qle_shift_div_l; [exact Lp |].
    rewrite Qmult_0_l. change 0 with (inject_Z 0). rewrite <- Zle_Qle. lia. }
  assert (P0 : (0 <= Qceiling x)%Z).
  { rewrite Zle_Qle. change (inject_Z 0) with 0. lra. }
  assert (A : (Z.of_nat n <= Qceiling x * Z.pos limit)%Z).
  { rewrite Zle_Qle, inject_Z_mult, <- X.
    apply Qmult_le_compat_r; [exact Hc | apply Qlt_le_weak; exact Lp]. }
  assert (B : ((Qceiling x - 1) * Z.pos limit < Z.of_nat n \/ Z.of_nat n = 0)%Z).
  { destruct (Z.eq_dec (Z.of_nat n) 0) as [E | E]; [right; exact E | left].
    rewrite Zlt_Qlt, inject_Z_mult, <- X.
    apply Qmult_lt_compat_r; [exact Lp | exact Hl]. }
  split; [exact P0 | split].
  - apply Nat2Z.inj_le. rewrite Nat2Z.inj_mul, Z2Nat.id by exact P0.
    rewrite positive_nat_Z. exact A.
  - intro Hn. destruct B as [B | B]; [| lia].
    apply Nat2Z.inj_lt. rewrite Nat2Z.inj_mul, positive_nat_Z.
    destruct (Z.eq_dec (Qceiling x) 0) as [Z0 | Z0].
    + rewrite Z0 in *. simpl. lia.
    + rewrite Nat2Z.inj_sub by lia. rewrite Z2Nat.id by exact P0. exact B.
Qed.

(** Paging through a list with [Math.ceil(total / limit)] pages: the pages
    in order give the list back, a later page is empty and the last one is
    not. *)
Lemma paging_cover {A : Type} (limit : positive) (l : list A) :
  let n := Z.to_nat (pages (pagination_of 1 limit (List.length l))) in
  flat_map (fun k => page_of (Pos.of_nat (S k)) limit l) (seq 0 n) = l
  /\ (forall p : positive, (n < Pos.to_nat p)%nat -> page_of p limit l = [])
  /\ (l <> [] -> page_of (Pos.of_nat n) limit l <> []).
Proof.
  cbv zeta.
  destruct (pages_enough limit (List.length l)) as [P0 [P1 P2]].
  cbv zeta in P0, P1, P2.
  set (pz := pages (pagination_of 1 limit (List.length l))) in *.
  split; [| split].
  - rewrite pages_concat. apply firstn_all2. exact P1.
  - intros p Hp. unfold page_of. rewrite skipn_all2; [apply firstn_nil | nia].
  - intro NE.
    assert (Pos : (0 < List.length l)%nat) by (destruct l; [contradiction | simpl; lia]).
    specialize (P2 Pos).
    assert (Nz : Z.to_nat pz <> 0%nat) by (intro Z0; rewrite Z0 in P1; simpl in P1; lia).
    unfold page_of. rewrite Nat2Pos.id by exact Nz.
    intro E. apply (f_equal (@List.length A)) in E.
    rewrite length_firstn, length_skipn in E.
    change (List.length (@nil A)) with 0%nat in E.
    pose proof (Pos2Nat.is_pos limit).
    set (k := ((Z.to_nat pz - 1) * Pos.to_nat limit)%nat) in *. clearbody k. lia.
Qed.

Lemma history_run (c : Ride.t -> Time) (u : User.t) (p l : positive)
      (s : option string) (w : World) :
  RideQueries.history c u p l s w
  = (w, inr {| RideQueries.rides_of_page :=
                 map (fun r => (r, populate w (Ride.driver r)))
                     (page_of p l
                        (sort_newest c
                           (filter (RideQueries.history_filter (User._id u) s) (rides w))));
               RideQueries.pagination :=
                 pagination_of p l
                   (List.length
                      (filter (RideQueries.history_filter (User._id u) s) (rides w))) |}).
Proof. reflexivity. Qed.

Lemma map_fst_paired {A B : Type} (f : A -> B) (l : list A) :
  map fst (map (fun r => (r, f r)) l) = l.
Proof.
  rewrite map_map. simpl. apply map_id.
Qed.

(** What a page of [GET /history] holds: rides of the caller only, of the
    status asked for when one is given, at most [limit] of them, newest
    first, each with its driver looked up; and nothing is written. *)
Theorem history_page_contents
        (createdAt : Ride.t -> Time) (u : User.t) (page limit : positive)
        (status : string) (w : World) :
  exists pg : RideQueries.HistoryPage,
    RideQueries.history createdAt u page limit (Some status) w = (w, inr pg)
    /\ (List.length (RideQueries.rides_of_page pg) <= Pos.to_nat limit)%nat
    /\ newest_first createdAt (map fst (RideQueries.rides_of_page pg))
    /\ forall (r : Ride.t) (d : option User.t),
         In (r, d) (RideQueries.rides_of_page pg) ->
         In r (rides w)
         /\ Ride.user r = User._id u
         /\ (status <> "" -> status_name (Ride.status r) = status)
         /\ d = populate w (Ride.driver r).
Proof.
  eexists. split; [apply history_run |]. cbn [RideQueries.rides_of_page].
  split; [rewrite length_map; apply page_of_length | split].
  - rewrite map_fst_paired. unfold page_of.
    apply newest_first_firstn, newest_first_skipn, sort_newest_sorted.
  - intros r d H. apply in_map_iff in H. destruct H as [r' [E H]].
    injection E as -> <-.
    apply page_of_In in H.
    apply (Permutation_in _ (sort_newest_perm createdAt _)) in H.
    apply filter_In in H. destruct H as [I F].
    unfold RideQueries.history_filter in F. apply andb_true_iff in F.
    destruct F as [F1 F2]. apply Nat.eqb_eq in F1.
    split; [exact I | split; [exact F1 | split; [| reflexivity]]].
    intro NE. unfold matches_status in F2.
    destruct (String.eqb status "") eqn:E0.
    + apply String.eqb_eq in E0. contradiction.
    + apply String.eqb_eq in F2. exact F2.
Qed.

(** Paging through [GET /history] shows every ride once.  In a collection
    where no two rides carry the same [createdAt] (so that the order of the
    sort is settled): the pages 1 to [pages] of the answer, one after the
    other, are the caller's rides (those of the status asked for), newest
    first; every page reports the same [pages] and [total]; a page after
    the last is empty, and the last page is not. *)
Theorem history_pages_cover
        (createdAt : Ride.t -> Time) (u : User.t) (limit : positive)
        (status : option string) (w : World) :
  NoDup (map createdAt (rides w)) ->
  let listing :=
    sort_newest createdAt
      (filter (RideQueries.history_filter (User._id u) status) (rides w)) in
  let page_rides (p : positive) : list Ride.t :=
    match snd (RideQueries.history createdAt u p limit status w) with
    | inr pg => map fst (RideQueries.rides_of_page pg)
    | inl _ => []
    end in
  exists n : nat,
    (forall p : positive,
        exists pg, snd (RideQueries.history createdAt u p limit status w) = inr pg
                   /\ pages (RideQueries.pagination pg) = Z.of_nat n
                   /\ total (RideQueries.pagination pg) = List.length listing)
    /\ flat_map (fun k => page_rides (Pos.of_nat (S k))) (seq 0 n) = listing
    /\ Permutation listing
         (filter (RideQueries.history_filter (User._id u) status) (rides w))
    /\ newest_first createdAt listing
    /\ (forall p : positive, (n < Pos.to_nat p)%nat -> page_rides p = [])
    /\ (listing <> [] -> page_rides (Pos.of_nat n) <> []).
Proof.
  intros _. cbv zeta.
  set (matching := filter (RideQueries.history_filter (User._id u) status) (rides w)).
  set (listing := sort_newest createdAt matching).
  assert (Len : List.length listing = List.length matching)
    by (apply Permutation_length, sort_newest_perm).
  destruct (paging_cover limit listing) as [C1 [C2 C3]]. cbv zeta in C1, C2, C3.
  rewrite Len in C1, C2, C3.
  destruct (pages_enough limit (List.length matching)) as [P0 _]. cbv zeta in P0.
  set (pz := pages (pagination_of 1 limit (List.length matching))) in *.
  exists (Z.to_nat pz).
  assert (Run : forall p, snd (RideQueries.history createdAt u p limit status w)
                          = inr {| RideQueries.rides_of_page :=
                                     map (fun r => (r, populate w (Ride.driver r)))
                                         (page_of p limit listing);
                                   RideQueries.pagination :=
                                     pagination_of p limit (List.length matching) |})
    by (intro p; rewrite history_run; reflexivity).
  split; [| split; [| split; [| split; [| split]]]].
  - intro p. eexists. split; [apply Run |]. cbn. split.
    + rewrite Z2Nat.id by exact P0. reflexivity.
    + symmetry. exact Len.
  - rewrite (flat_map_ext _ (fun k => page_of (Pos.of_nat (S k)) limit listing)).
    + exact C1.
    + intro k. rewrite Run. cbn. apply map_fst_paired.
  - apply sort_newest_perm.
  - apply sort_newest_sorted.
  - intros p Hp. rewrite Run. cbn. rewrite map_fst_paired. apply C2. exact Hp.
  - intro NE. rewrite Run. cbn. rewrite map_fst_paired. apply C3. exact NE.
Qed.

(** Five rides of one requester, two to a page: three pages, the newest
    ride first. *)
Example history_of_five_rides :
  let w := Sample.world [Sample.ride 100 completed (Some 10%nat) None;
                         Sample.ride 101 cancelled None None;
                         Sample.ride 102 completed (Some 11%nat) None;
                         Sample.ride 103 completed (Some 10%nat) None;
                         Sample.ride 104 pending None None] in
  let ids p :=
    match snd (RideQueries.history Sample_createdAt Sample.rider p 2 None w) with
    | inr pg => (map (fun it => Ride._id (fst it)) (RideQueries.rides_of_page pg),
                 pages (RideQueries.pagination pg))
    | inl _ => ([], 0%Z)
    end in
  ids 1%positive = ([104; 103]%nat, 3%Z) /\
  ids 2%positive = ([102; 101]%nat, 3%Z) /\
  ids 3%positive = ([100]%nat, 3%Z) /\
  ids 4%positive = ([], 3%Z).
Proof. cbv zeta. repeat split. Qed.

Lemma history_pages_cover_witness :
  let w := Sample.world [Sample.ride 100 completed (Some 10%nat) None;
                         Sample.ride 101 cancelled None None;
                         Sample.ride 102 completed (Some 11%nat) None] in
  let listing :=
    sort_newest Sample_createdAt
      (filter (RideQueries.history_filter 1 None) (rides w)) in
  let page_rides (p : positive) : list Ride.t :=
    match snd (RideQueries.history Sample_createdAt Sample.rider p 2 None w) with
    | inr pg => map fst (RideQueries.rides_of_page pg)
    | inl _ => []
    end in
  exists n : nat,
    (forall p : positive,
        exists pg, snd (RideQueries.history Sample_createdAt Sample.rider p 2 None w) = inr pg
                   /\ pages (RideQueries.pagination pg) = Z.of_nat n
                   /\ total (RideQueries.pagination pg) = List.length listing)
    /\ flat_map (fun k => page_rides (Pos.of_nat (S k))) (seq 0 n) = listing
    /\ Permutation listing (filter (RideQueries.history_filter 1 None) (rides w))
    /\ newest_first Sample_createdAt listing
    /\ (forall p : positive, (n < Pos.to_nat p)%nat -> page_rides p = [])
    /\ (listing <> [] -> page_rides (Pos.of_nat n) <> []).
Proof.
  apply (history_pages_cover Sample_createdAt Sample.rider 2 None
           (Sample.world [Sample.ride 100 completed (Some 10%nat) None;
                          Sample.ride 101 cancelled None None;
                          Sample.ride 102 completed (Some 11%nat) None])).
  simpl. repeat constructor; simpl; intuition discriminate.
Defined.

(** ** The driver's listings *)

Lemma rides_history_run (c : Ride.t -> Time) (u : User.t) (p l : positive)
      (s : option string) (w : World) :
  DriverQueries.rides_history c u p l s w
  = (w, inr {| DriverQueries.rides_of_page :=
                 map (fun r => (r, populate w (Some (Ride.user r))))
                     (page_of p l
                        (sort_newest c
                           (filter (DriverQueries.rides_filter (User._id u) s) (rides w))));
               DriverQueries.pagination :=
                 pagination_of p l
                   (List.length
                      (filter (DriverQueries.rides_filter (User._id u) s) (rides w))) |}).
Proof. reflexivity. Qed.

(** The driver's history, [GET /rides], in a collection where no two rides
    carry the same [createdAt]: every ride on a page is assigned to the
    caller, a page holds at most [limit] rides, and the pages 1 to [pages],
    one after the other, are all the rides assigned to the caller (of the
    status asked for), newest first, each once. *)
Theorem rides_history_pages_cover
        (createdAt : Ride.t -> Time) (u : User.t) (limit : positive)
        (status : option string) (w : World) :
  NoDup (map createdAt (rides w)) ->
  let listing :=
    sort_newest createdAt
      (filter (DriverQueries.rides_filter (User._id u) status) (rides w)) in
  let page_rides (p : positive) : list Ride.t :=
    match snd (DriverQueries.rides_history createdAt u p limit status w) with
    | inr pg => map fst (DriverQueries.rides_of_page pg)
    | inl _ => []
    end in
  exists n : nat,
    (forall p : positive,
        exists pg, DriverQueries.rides_history createdAt u p limit status w = (w, inr pg)
                   /\ pages (DriverQueries.pagination pg) = Z.of_nat n
                   /\ total (DriverQueries.pagination pg) = List.length listing
                   /\ (List.length (DriverQueries.rides_of_page pg) <= Pos.to_nat limit)%nat)
    /\ (forall (p : positive) (r : Ride.t),
           In r (page_rides p) -> In r (rides w) /\ Ride.driver r = Some (User._id u))
    /\ flat_map (fun k => page_rides (Pos.of_nat (S k))) (seq 0 n) = listing
    /\ newest_first createdAt listing
    /\ (forall p : positive, (n < Pos.to_nat p)%nat -> page_rides p = []).
Proof.
  intros _. cbv zeta.
  set (matching := filter (DriverQueries.rides_filter (User._id u) status) (rides w)).
  set (listing := sort_newest createdAt matching).
  assert (Len : List.length listing = List.length matching)
    by (apply Permutation_length, sort_newest_perm).
  destruct (paging_cover limit listing) as [C1 [C2 _]]. cbv zeta in C1, C2.
  rewrite Len in C1, C2.
  destruct (pages_enough limit (List.length matching)) as [P0 _]. cbv zeta in P0.
  set (pz := pages (pagination_of 1 limit (List.length matching))) in *.
  exists (Z.to_nat pz).
  assert (Run : forall p, DriverQueries.rides_history createdAt u p limit status w
                          = (w, inr {| DriverQueries.rides_of_page :=
                                         map (fun r => (r, populate w (Some (Ride.user r))))
                                             (page_of p limit listing);
                                       DriverQueries.pagination :=
                                         pagination_of p limit (List.length matching) |}))
    by (intro p; apply rides_history_run).
  split; [| split; [| split; [| split]]].
  - intro p. eexists. split; [apply Run |]. cbn. split; [| split].
    + rewrite Z2Nat.id by exact P0. reflexivity.
    + symmetry. exact Len.
    + rewrite length_map. apply page_of_length.
  - intros p r. rewrite Run. cbn. rewrite map_fst_paired. intro H.
    apply page_of_In in H.
    apply (Permutation_in _ (sort_newest_perm createdAt _)) in H.
    apply filter_In in H. destruct H as [I F]. split; [exact I |].
    unfold DriverQueries.rides_filter in F. apply andb_true_iff in F.
    destruct F as [F _]. destruct (Ride.driver r) as [d |]; [| discriminate].
    apply Nat.eqb_eq in F. congruence.
  - rewrite (flat_map_ext _ (fun k => page_of (Pos.of_nat (S k)) limit listing)).
    + exact C1.
    + intro k. rewrite Run. cbn. apply map_fst_paired.
  - apply sort_newest_sorted.
  - intros p Hp. rewrite Run. cbn. rewrite map_fst_paired. apply C2. exact Hp.
Qed.

Lemma rides_history_pages_cover_witness :
  let w := Sample.world [Sample.ride 100 completed (Some 10%nat) None;
                         Sample.ride 101 cancelled None None;
                         Sample.ride 102 completed (Some 10%nat) None;
                         Sample.ride 103 started (Some 10%nat) None] in
  let listing :=
    sort_newest Sample_createdAt
      (filter (DriverQueries.rides_filter 10 None) (rides w)) in
  let page_rides (p : positive) : list Ride.t :=
    match snd (DriverQueries.rides_history Sample_createdAt Sample.dev p 2 None w) with
    | inr pg => map fst (DriverQueries.rides_of_page pg)
    | inl _ => []
    end in
  exists n : nat,
    (forall p : positive,
        exists pg, DriverQueries.rides_history Sample_createdAt Sample.dev p 2 None w
                   = (w, inr pg)
                   /\ pages (DriverQueries.pagination pg) = Z.of_nat n
                   /\ total (DriverQueries.pagination pg) = List.length listing
                   /\ (List.length (DriverQueries.rides_of_page pg) <= Pos.to_nat 2)%nat)
    /\ (forall (p : positive) (r : Ride.t),
           In r (page_rides p) -> In r (rides w) /\ Ride.driver r = Some 10%nat)
    /\ flat_map (fun k => page_rides (Pos.of_nat (S k))) (seq 0 n) = listing
    /\ newest_first Sample_createdAt listing
    /\ (forall p : positive, (n < Pos.to_nat p)%nat -> page_rides p = []).
Proof.
  apply (rides_history_pages_cover Sample_createdAt Sample.dev 2 None
           (Sample.world [Sample.ride 100 completed (Some 10%nat) None;
                          Sample.ride 101 cancelled None None;
                          Sample.ride 102 completed (Some 10%nat) None;
                          Sample.ride 103 started (Some 10%nat) None])).
  simpl. repeat constructor; simpl; intuition discriminate.
Defined.

Lemma ride_requests_run (c : Ride.t -> Time) (near : Q -> Q -> Q -> Ride.Place -> bool)
      (d : User.t) (la ln radius : Q) (w : World) :
  DriverQueries.ride_requests c near d (Some la) (Some ln) radius w
  = (w, inr {| DriverQueries.rideRequests :=
                 map (fun r => (r, populate w (Some (Ride.user r))))
                     (firstn 20
                        (sort_newest c
                           (filter (DriverQueries.open_request near d la ln radius)
                                   (rides w))));
               DriverQueries.count :=
                 List.length
                   (map (fun r => (r, populate w (Some (Ride.user r))))
                        (firstn 20
                           (sort_newest c
                              (filter (DriverQueries.open_request near d la ln radius)
                                      (rides w))))) |}).
Proof. reflexivity. Qed.

Lemma offered_is_open (c : Ride.t -> Time) (near : Q -> Q -> Q -> Ride.Place -> bool)
      (d : User.t) (la ln radius : Q) (w : World) (r : Ride.t) :
  In r (firstn 20
          (sort_newest c
             (filter (DriverQueries.open_request near d la ln radius) (rides w)))) ->
  In r (rides w)
  /\ Ride.status r = pending
  /\ Ride.rideType r = User.vehicleType (User.driverInfo d)
  /\ near la ln radius (Ride.pickup r) = true.
Proof.
  intro H.
  assert (H' : In r (sort_newest c
                       (filter (DriverQueries.open_request near d la ln radius) (rides w)))).
  { rewrite <- (firstn_skipn 20). apply in_or_app. left. exact H. }
  apply (Permutation_in _ (sort_newest_perm c _)) in H'.
  apply filter_In in H'. destruct H' as [I F].
  unfold DriverQueries.open_request in F.
  apply andb_true_iff in F. destruct F as [F N].
  apply andb_true_iff in F. destruct F as [S T].
  apply status_eqb_eq in S. apply String.eqb_eq in T. auto.
Qed.

(** What [GET /ride-requests] offers a driver: at most 20 rides, newest
    first, each of them stored, pending, of the driver's vehicle type and
    within the radius, with its requester looked up; [count] is their
    number.  Without a latitude or a longitude the answer is 400. *)
Theorem ride_requests_are_open
        (createdAt : Ride.t -> Time) (near : Q -> Q -> Q -> Ride.Place -> bool)
        (d : User.t) (lat lng : option Q) (radius : Q) (w : World) :
  fst (DriverQueries.ride_requests createdAt near d lat lng radius w) = w /\
  match lat, lng with
  | Some la, Some ln =>
      exists rr : DriverQueries.RideRequests,
        snd (DriverQueries.ride_requests createdAt near d lat lng radius w) = inr rr
        /\ DriverQueries.count rr = List.length (DriverQueries.rideRequests rr)
        /\ (DriverQueries.count rr <= 20)%nat
        /\ newest_first createdAt (map fst (DriverQueries.rideRequests rr))
        /\ forall (r : Ride.t) (ru : option User.t),
             In (r, ru) (DriverQueries.rideRequests rr) ->
             In r (rides w)
             /\ Ride.status r = pending
             /\ Ride.rideType r = User.vehicleType (User.driverInfo d)
             /\ near la ln radius (Ride.pickup r) = true
             /\ ru = populate w (Some (Ride.user r))
  | _, _ =>
      snd (DriverQueries.ride_requests createdAt near d lat lng radius w)
      = inl (error 400 "Current location is required")
  end.
Proof.
  destruct lat as [la |]; [destruct lng as [ln |] |]; try (split; reflexivity).
  rewrite ride_requests_run. cbn [fst snd]. split; [reflexivity |].
  eexists. split; [reflexivity |].
  cbn [DriverQueries.rideRequests DriverQueries.count].
  split; [reflexivity | split; [| split]].
  - rewrite length_map. apply firstn_le_length.
  - rewrite map_fst_paired. apply newest_first_firstn, sort_newest_sorted.
  - intros r ru H. apply in_map_iff in H. destruct H as [r' [E H]].
    injection E as -> <-.
    destruct (offered_is_open createdAt near d la ln radius w r H) as [I [S [T N]]].
    auto.
Qed.

Lemma unique_find (l : list Ride.t) (r : Ride.t) :
  NoDup (map Ride._id l) -> In r l -> find_doc Ride._id (Ride._id r) l = Some r.
Proof.
  induction l as [| y t IH]; simpl; [tauto |].
  intros N I. inversion N as [| a b NI ND]; subst.
  destruct I as [-> | I].
  - rewrite Nat.eqb_refl. reflexivity.
  - destruct (Nat.eqb (Ride._id y) (Ride._id r)) eqn:E.
    + apply Nat.eqb_eq in E. exfalso. apply NI. rewrite E. apply in_map. exact I.
    + apply IH; assumption.
Qed.

Lemma unique_update_In (i : ObjectId) (f : Ride.t -> Ride.t) (l : list Ride.t)
      (x : Ride.t) :
  (forall y, Ride._id (f y) = Ride._id y) ->
  NoDup (map Ride._id l) ->
  In x (update_doc Ride._id i f l) ->
  Ride._id x = i ->
  exists r, find_doc Ride._id i l = Some r /\ x = f r.
Proof.
  intros K. induction l as [| y t IH]; simpl; [tauto |].
  intros N I E. inversion N as [| a b NI ND]; subst.
  destruct (Nat.eqb (Ride._id y) (Ride._id x)) eqn:Ey.
  - destruct I as [<- | I]; [exists y; auto |].
    exfalso. apply NI. apply Nat.eqb_eq in Ey. rewrite Ey. apply in_map. exact I.
  - destruct I as [<- | I]; [rewrite Nat.eqb_refl in Ey; discriminate |].
    apply IH; auto.
Qed.

(** A ride that is offered to an available driver can be taken by that
    driver, and a ride that has been taken is offered to no one.  In a
    collection with one document per id: the accept call of the driver on a
    ride of the driver's [GET /ride-requests] answer goes through, and
    after it no [GET /ride-requests] answer, for any driver and any place,
    holds a ride of that id. *)
Theorem offered_ride_can_be_accepted
        (createdAt : Ride.t -> Time) (near : Q -> Q -> Q -> Ride.Place -> bool)
        (ctx : Ctx) (d : User.t) (la ln radius : Q) (w : World)
        (rr : DriverQueries.RideRequests) (r : Ride.t) (ru : option User.t) :
  unique_ids w ->
  User.isAvailable (User.driverInfo d) = true ->
  snd (DriverQueries.ride_requests createdAt near d (Some la) (Some ln) radius w) = inr rr ->
  In (r, ru) (DriverQueries.rideRequests rr) ->
  let w' := fst (DriverRoutes.accept_ride ctx d (Ride._id r) w) in
  snd (DriverRoutes.accept_ride ctx d (Ride._id r) w)
  = success 200 "Ride accepted successfully" (RideAccepted (Ride._id r))
  /\ forall (createdAt' : Ride.t -> Time) (near' : Q -> Q -> Q -> Ride.Place -> bool)
            (d' : User.t) (la' ln' radius' : Q) (rr' : DriverQueries.RideRequests)
            (x : Ride.t) (xu : option User.t),
       snd (DriverQueries.ride_requests createdAt' near' d' (Some la') (Some ln') radius' w')
       = inr rr' ->
       In (x, xu) (DriverQueries.rideRequests rr') ->
       Ride._id x <> Ride._id r.
Proof.
  intros U A Q I. cbv zeta.
  assert (Erq : DriverQueries.rideRequests rr
                = map (fun r => (r, populate w (Some (Ride.user r))))
                      (firstn 20
                         (sort_newest createdAt
                            (filter (DriverQueries.open_request near d la ln radius)
                                    (rides w)))))
    by (rewrite ride_requests_run in Q; cbn [snd] in Q; injection Q as <-; reflexivity).
  rewrite Erq in I. clear Erq Q.
  apply in_map_iff in I. destruct I as [r' [E I]]. injection E as -> _.
  destruct (offered_is_open createdAt near d la ln radius w r I) as [In_r [S [T _]]].
  assert (F : ride_of (Ride._id r) w = Some r) by (apply unique_find; assumption).
  assert (El : eligible d r) by (split; assumption).
  destruct (accept_writes ctx d (Ride._id r) w r F S El) as [R [_ [_ Resp]]].
  split; [exact Resp |].
  intros c' near' d' la' ln' radius' rr' x xu Q' I' Eid.
  assert (Erq : DriverQueries.rideRequests rr'
                = map (fun r0 => (r0, populate
                                        (fst (DriverRoutes.accept_ride ctx d (Ride._id r) w))
                                        (Some (Ride.user r0))))
                      (firstn 20
                         (sort_newest c'
                            (filter (DriverQueries.open_request near' d' la' ln' radius')
                                    (rides (fst (DriverRoutes.accept_ride ctx d (Ride._id r) w)))))))
    by (rewrite ride_requests_run in Q'; cbn [snd] in Q'; injection Q' as <-; reflexivity).
  rewrite Erq in I'. clear Erq Q'.
  apply in_map_iff in I'. destruct I' as [x' [E' I']]. injection E' as -> _.
  destruct (offered_is_open c' near' d' la' ln' radius' _ x I') as [In_x [Sx _]].
  rewrite R in In_x.
  destruct (unique_update_In (Ride._id r) (DriverRoutes.accept_changes ctx d) (rides w) x
              (fun y => eq_refl) U In_x Eid) as [r0 [F0 Ex]].
  subst x. simpl in Sx. discriminate Sx.
Qed.

Lemma offered_ride_can_be_accepted_witness :
  let w := Sample.world [Sample.ride 100 pending None None;
                         Sample.ride 101 accepted (Some 11%nat) None] in
  let near := fun (_ _ _ : Q) (_ : Ride.Place) => true in
  let w' := fst (DriverRoutes.accept_ride Sample.ctx Sample.dev 100 w) in
  snd (DriverRoutes.accept_ride Sample.ctx Sample.dev 100 w)
  = success 200 "Ride accepted successfully" (RideAccepted 100)
  /\ forall (createdAt' : Ride.t -> Time) (near' : Q -> Q -> Q -> Ride.Place -> bool)
            (d' : User.t) (la' ln' radius' : Q) (rr' : DriverQueries.RideRequests)
            (x : Ride.t) (xu : option User.t),
       snd (DriverQueries.ride_requests createdAt' near' d' (Some la') (Some ln') radius' w')
       = inr rr' ->
       In (x, xu) (DriverQueries.rideRequests rr') ->
       Ride._id x <> 100%nat.
Proof.
  cbv zeta.
  refine (offered_ride_can_be_accepted Sample_createdAt (fun _ _ _ _ => true)
            Sample.ctx Sample.dev 12.9 77.6 10000
            (Sample.world [Sample.ride 100 pending None None;
                           Sample.ride 101 accepted (Some 11%nat) None])
            _ (Sample.ride 100 pending None None) (Some Sample.rider) _ _ _ _).
  - unfold unique_ids. simpl. repeat constructor; simpl; intuition discriminate.
  - reflexivity.
  - reflexivity.
  - simpl. left. reflexivity.
Defined.

(** ** Availability over the socket *)

(** The socket and the accept route.  When the socket of a stored driver
    disconnects, the user is stored as offline since the time of the
    event, the driver is stored as not available, and every accept call of
    that driver is refused and changes nothing; after an
    [update-availability] event with [true] the driver's accept call on a
    pending ride of the right vehicle type goes through.  From a socket
    whose user is not a driver, a disconnect writes the offline mark of a
    stored user and nothing else, and [update-availability] changes
    nothing and is answered with an error to that socket alone. *)
Theorem socket_availability_governs_accept
        (ctx : Ctx) (d : User.t) (i : ObjectId) (t : Time)
        (st : Sockets.Store) (r : Ride.t) :
  User.role d = "Driver" ->
  find_doc User._id (User._id d) (users (Sockets.documents st)) = Some d ->
  ride_of i (Sockets.documents st) = Some r ->
  Ride.status r = pending ->
  Ride.rideType r = User.vehicleType (User.driverInfo d) ->
  let offline := {| Sockets.isOnline := false; Sockets.lastSeen := t |} in
  let s := {| Sockets.user := d |} in
  let st1 := fst (Sockets.on_disconnect s t st) in
  let w1 := Sockets.documents st1 in
  let w2 := fst (Sockets.on_update_availability s true w1) in
  Sockets.presence_of (User._id d) st1 = Some offline
  /\ (exists d1, find_doc User._id (User._id d) (users w1) = Some d1
                 /\ User.isAvailable (User.driverInfo d1) = false
                 /\ DriverRoutes.accept_ride ctx d1 i w1
                    = (w1, error 400 "Driver is not available"))
  /\ (exists d2, find_doc User._id (User._id d) (users w2) = Some d2
                 /\ User.isAvailable (User.driverInfo d2) = true
                 /\ snd (DriverRoutes.accept_ride ctx d2 i w2)
                    = success 200 "Ride accepted successfully" (RideAccepted i))
  /\ (forall (s' : Sockets.Socket) (b : bool),
         Sockets.is_driver s' = false ->
         Sockets.documents (fst (Sockets.on_disconnect s' t st)) = Sockets.documents st
         /\ snd (Sockets.on_disconnect s' t st) = []
         /\ (find_doc User._id (Sockets.userId s') (users (Sockets.documents st)) <> None ->
             Sockets.presence_of (Sockets.userId s') (fst (Sockets.on_disconnect s' t st))
             = Some offline)
         /\ (find_doc User._id (Sockets.userId s') (users (Sockets.documents st)) = None ->
             fst (Sockets.on_disconnect s' t st) = st)
         /\ Sockets.on_update_availability s' b (Sockets.documents st)
            = (Sockets.documents st,
               [{| Sockets.target := Sockets.ToSelf; Sockets.name := "error" |}])).
Proof.
  intros Role U F S T. cbv zeta.
  assert (Dr : Sockets.is_driver {| Sockets.user := d |} = true)
    by (unfold Sockets.is_driver; simpl; rewrite Role; reflexivity).
  unfold Sockets.on_disconnect, Sockets.on_update_availability.
  rewrite Dr. cbn [negb fst].
  unfold Sockets.User_update_presence, Sockets.userId. cbn [Sockets.user].
  rewrite U. cbn [Sockets.documents Sockets.presence].
  set (w := Sockets.documents st) in *.
  set (w1 := set_users (update_doc User._id (User._id d) (User.set_isAvailable false)
                                   (users w)) w).
  set (w2 := set_users (update_doc User._id (User._id d) (User.set_isAvailable true)
                                   (users w1)) w1).
  assert (F1 : find_doc User._id (User._id d) (users w1)
               = Some (User.set_isAvailable false d))
    by (apply find_update_same; [reflexivity | exact U]).
  assert (F2 : find_doc User._id (User._id d) (users w2)
               = Some (User.set_isAvailable true (User.set_isAvailable false d)))
    by (apply find_update_same; [reflexivity | exact F1]).
  split; [| split; [| split]].
  - unfold Sockets.presence_of. cbn [Sockets.presence find fst].
    rewrite Nat.eqb_refl. reflexivity.
  - exists (User.set_isAvailable false d).
    split; [exact F1 | split; [reflexivity |]].
    rewrite (accept_ride_found ctx _ i w1 r F).
    unfold DriverRoutes.accept_resume. run_handler.
    rewrite S. simpl status_eqb. cbn [negb].
    simpl User.vehicleType. rewrite T, String.eqb_refl. reflexivity.
  - exists (User.set_isAvailable true (User.set_isAvailable false d)).
    split; [exact F2 | split; [reflexivity |]].
    assert (Fr : ride_of i w2 = Some r) by exact F.
    assert (El : eligible (User.set_isAvailable true (User.set_isAvailable false d)) r)
      by (split; [exact T | reflexivity]).
    destruct (accept_writes ctx _ i w2 r Fr S El) as [_ [_ [_ Resp]]]. exact Resp.
  - intros s' b N. rewrite N. cbn [negb].
    destruct (find_doc User._id (User._id (Sockets.user s')) (users w)) eqn:G;
      cbn [fst snd Sockets.documents].
    + refine (conj eq_refl (conj eq_refl (conj _ (conj _ eq_refl)))).
      * intros _. unfold Sockets.presence_of. cbn [Sockets.presence find fst].
        rewrite Nat.eqb_refl. reflexivity.
      * discriminate.
    + refine (conj eq_refl (conj eq_refl (conj _ (conj _ eq_refl)))).
      * intro C. contradiction.
      * reflexivity.
Qed.

Lemma socket_availability_governs_accept_witness :
  let st :=
    {| Sockets.documents := Sample.world [Sample.ride 100 pending None None];
       Sockets.presence := [] |} in
  let offline := {| Sockets.isOnline := false; Sockets.lastSeen := 8%nat |} in
  let s := {| Sockets.user := Sample.dev |} in
  let st1 := fst (Sockets.on_disconnect s 8%nat st) in
  let w1 := Sockets.documents st1 in
  let w2 := fst (Sockets.on_update_availability s true w1) in
  Sockets.presence_of 10%nat st1 = Some offline
  /\ (exists d1, find_doc User._id 10%nat (users w1) = Some d1
                 /\ User.isAvailable (User.driverInfo d1) = false
                 /\ DriverRoutes.accept_ride Sample.ctx d1 100 w1
                    = (w1, error 400 "Driver is not available"))
  /\ (exists d2, find_doc User._id 10%nat (users w2) = Some d2
                 /\ User.isAvailable (User.driverInfo d2) = true
                 /\ snd (DriverRoutes.accept_ride Sample.ctx d2 100 w2)
                    = success 200 "Ride accepted successfully" (RideAccepted 100))
  /\ (forall (s' : Sockets.Socket) (b : bool),
         Sockets.is_driver s' = false ->
         Sockets.documents (fst (Sockets.on_disconnect s' 8%nat st)) = Sockets.documents st
         /\ snd (Sockets.on_disconnect s' 8%nat st) = []
         /\ (find_doc User._id (Sockets.userId s') (users (Sockets.documents st)) <> None ->
             Sockets.presence_of (Sockets.userId s') (fst (Sockets.on_disconnect s' 8%nat st))
             = Some offline)
         /\ (find_doc User._id (Sockets.userId s') (users (Sockets.documents st)) = None ->
             fst (Sockets.on_disconnect s' 8%nat st) = st)
         /\ Sockets.on_update_availability s' b (Sockets.documents st)
            = (Sockets.documents st,
               [{| Sockets.target := Sockets.ToSelf; Sockets.name := "error" |}])).
Proof.
  apply (socket_availability_governs_accept Sample.ctx Sample.dev 100 8%nat
           {| Sockets.documents := Sample.world [Sample.ride 100 pending None None];
              Sockets.presence := [] |}
           (Sample.ride 100 pending None None)).
  - reflexivity.
  - reflexivity.
  - reflexivity.
  - reflexivity.
  - reflexivity.
Defined.

(** The requester's socket disconnects: offline since 8, and the store of
    the routes is what it was. *)
Example rider_disconnects :
  let st :=
    {| Sockets.documents := Sample.world [Sample.ride 100 pending None None];
       Sockets.presence := [] |} in
  Sockets.on_disconnect {| Sockets.user := Sample.rider |} 8%nat st
  = ({| Sockets.documents := Sockets.documents st;
        Sockets.presence :=
          [(1%nat, {| Sockets.isOnline := false; Sockets.lastSeen := 8%nat |})] |},
     []).
Proof. reflexivity. Qed.

(** ** What a rating changes *)

Lemma rate_failure_unchanged (valid : option Q -> bool) (ctx : Ctx) (u : User.t)
      (i : ObjectId) (q : option Q) (fb : option string) (w : World) :
  http (snd (RideRoutes.rate valid ctx u i q fb w)) <> 200%nat ->
  fst (RideRoutes.rate valid ctx u i q fb w) = w.
Proof.
  unfold RideRoutes.rate, RideRoutes.rate_body. run_handler.
  destruct (find_doc Ride._id i (rides w)) as [x |]; [| reflexivity].
  destruct (differs (Ride.user x) (User._id u)); [reflexivity |].
  destruct (status_eqb (Ride.status x) completed); [| reflexivity]. cbn [negb].
  destruct (truthy (Ride.rating (Ride.userRating x))); [reflexivity |].
  destruct (valid q); cbn [negb]; [| reflexivity].
  match goal with
  | |- context [RideRoutes.update_driver_rating ?o ?v] =>
      destruct (update_driver_rating_returns o v) as [w2 E]; rewrite E
  end.
  simpl. intro H. contradiction H. reflexivity.
Qed.

Lemma update_driver_rating_users (od : option ObjectId) (w : World) :
  payments (fst (RideRoutes.update_driver_rating od w)) = payments w /\
  forall d' : ObjectId,
    od <> Some d' ->
    find_doc User._id d' (users (fst (RideRoutes.update_driver_rating od w)))
    = find_doc User._id d' (users w).
Proof.
  unfold RideRoutes.update_driver_rating. run_handler.
  destruct od as [d |]; [| split; reflexivity].
  destruct (find_doc User._id d (users w)); [| split; reflexivity].
  destruct (RideRoutes.aggregate_averageRating d (rides w)); [split; reflexivity |].
  simpl. split; [reflexivity |]. intros d' N.
  apply find_update_other; [reflexivity | congruence].
Qed.

(** A rate call reaches one ride and one profile.  Whatever its answer:
    every other ride is as it was, the ride named keeps its status, every
    user who is not the driver of that ride is as before, and no payment is
    recorded. *)
Theorem rate_touches_one_ride_and_one_profile
        (valid : option Q -> bool) (ctx : Ctx) (u : User.t) (i : ObjectId)
        (q : option Q) (fb : option string) (w : World) :
  let w' := fst (RideRoutes.rate valid ctx u i q fb w) in
  (forall j : ObjectId, j <> i -> ride_of j w' = ride_of j w)
  /\ status_of i w' = status_of i w
  /\ (forall d' : ObjectId,
         (forall r, ride_of i w = Some r -> Ride.driver r <> Some d') ->
         find_doc User._id d' (users w') = find_doc User._id d' (users w))
  /\ payments w' = payments w.
Proof.
  cbv zeta.
  destruct (http (snd (RideRoutes.rate valid ctx u i q fb w)) =? 200)%nat eqn:H.
  - apply Nat.eqb_eq in H.
    destruct (rate_success valid ctx u i q fb w H) as [x [F [_ [_ [_ [_ E]]]]]].
    rewrite E. set (w1 := set_rides _ w).
    destruct (update_driver_rating_users (Ride.driver x) w1) as [P Us].
    split; [| split; [| split]].
    + intros j N. unfold ride_of. rewrite update_driver_rating_rides. simpl.
      apply find_update_other; [reflexivity | exact N].
    + transitivity (status_of i w1).
      * unfold status_of, ride_of. rewrite update_driver_rating_rides. reflexivity.
      * unfold w1. rewrite (status_of_update i i _ w x); [| reflexivity | exact F | reflexivity].
        unfold status_of. rewrite F. reflexivity.
    + intros d' N. rewrite Us; [reflexivity |]. apply N. exact F.
    + rewrite P. reflexivity.
  - apply Nat.eqb_neq in H.
    rewrite (rate_failure_unchanged valid ctx u i q fb w H).
    repeat split; reflexivity.
Qed.

Lemma Qsum_bounds (l : list Q) :
  Forall (fun x => 1 <= x /\ x <= 5) l ->
  inject_Z (Z.of_nat (List.length l)) <= Qsum l
  /\ Qsum l <= 5 * inject_Z (Z.of_nat (List.length l)).
Proof.
  induction 1 as [| x t [Hx1 Hx2] _ [IH1 IH2]].
  - split; vm_compute; discriminate.
  - cbn [List.length Qsum]. rewrite Nat2Z.inj_succ. unfold Z.succ.
    rewrite inject_Z_plus. change (inject_Z 1) with 1. split; lra.
Qed.

Lemma mean_bounds (l : list Q) :
  l <> [] ->
  Forall (fun x => 1 <= x /\ x <= 5) l ->
  1 <= mean l /\ mean l <= 5.
Proof.
  intros N F. destruct (Qsum_bounds l F) as [L U].
  unfold mean.
  assert (P : 0 < inject_Z (Z.of_nat (List.length l))).
  { change 0 with (inject_Z 0). rewrite <- Zlt_Qlt.
    destruct l; [contradiction | simpl; lia]. }
  split.
  - apply Qle_shift_div_l; [exact P | lra].
  - apply Qle_shift_div_r; [exact P | lra].
Qed.

(** The profile rating after a rate call that went through, for a ride
    whose driver exists. *)
Lemma rate_profile_rating (valid : option Q -> bool) (ctx : Ctx) (u : User.t)
      (i : ObjectId) (q : Q) (fb : option string) (w : World) (ride : Ride.t)
      (d : ObjectId) (drv : User.t) :
  ride_of i w = Some ride ->
  Ride.driver ride = Some d ->
  find_doc User._id d (users w) = Some drv ->
  http (snd (RideRoutes.rate valid ctx u i (Some q) fb w)) = 200%nat ->
  let w' := fst (RideRoutes.rate valid ctx u i (Some q) fb w) in
  ratings_received d w' <> []
  /\ profile_rating d w' = Some (Math_round (mean (ratings_received d w') * 10) / 10).
Proof.
  intros F D U H. cbv zeta.
  destruct (rate_success valid ctx u i (Some q) fb w H)
    as [ride' [F' [_ [S [_ [_ E]]]]]].
  rewrite F in F'. injection F' as <-.
  rewrite D in E.
  set (w1 := set_rides _ w) in E.
  assert (F1 : find_doc Ride._id i (rides w1)
               = Some (Ride.set_userRating
                         {| Ride.rating := Some q; Ride.feedback := fb;
                            Ride.date := Some (now ctx) |} ride)).
  { unfold w1. simpl. apply find_update_same; [reflexivity | exact F]. }
  assert (I1 : In q (ratings_received d w1)).
  { unfold ratings_received. apply in_flat_map.
    eexists. split; [exact (proj1 (find_doc_In _ _ _ _ F1)) |].
    simpl. rewrite D, S, Nat.eqb_refl. left. reflexivity. }
  assert (N1 : ratings_received d w1 <> []).
  { intro Z. rewrite Z in I1. exact I1. }
  assert (U1 : find_doc User._id d (users w1) = Some drv) by exact U.
  rewrite (update_driver_rating_run d w1 drv U1 N1) in E.
  rewrite E. split; [exact N1 |].
  unfold profile_rating. simpl.
  rewrite (find_update_same User._id d _ (users w) drv); [| reflexivity | exact U].
  reflexivity.
Qed.

(** A driver's rating stays on the scale of the ratings: when every rating
    the driver has received lies between 1 and 5, the rating the rate call
    writes to the profile lies between 1 and 5. *)
Theorem profile_rating_stays_on_the_scale
        (valid : option Q -> bool) (ctx : Ctx) (u : User.t) (i : ObjectId)
        (q : Q) (fb : option string) (w : World) (ride : Ride.t)
        (d : ObjectId) (drv : User.t) :
  ride_of i w = Some ride ->
  Ride.driver ride = Some d ->
  find_doc User._id d (users w) = Some drv ->
  http (snd (RideRoutes.rate valid ctx u i (Some q) fb w)) = 200%nat ->
  let w' := fst (RideRoutes.rate valid ctx u i (Some q) fb w) in
  Forall (fun x => 1 <= x /\ x <= 5) (ratings_received d w') ->
  exists r : Q, profile_rating d w' = Some r /\ 1 <= r /\ r <= 5.
Proof.
  intros F D U H. cbv zeta. intro B.
  destruct (rate_profile_rating valid ctx u i q fb w ride d drv F D U H) as [N P].
  cbv zeta in N, P.
  eexists. split; [exact P |].
  destruct (mean_bounds _ N B) as [L Up].
  set (m := mean _) in *.
  assert (A1 : Math_round (1 * 10) <= Math_round (m * 10)) by (apply Math_round_mono; lra).
  assert (A2 : Math_round (m * 10) <= Math_round (5 * 10)) by (apply Math_round_mono; lra).
  assert (E1 : Math_round (1 * 10) == 10) by reflexivity.
  assert (E2 : Math_round (5 * 10) == 50) by reflexivity.
  rewrite E1 in A1. rewrite E2 in A2.
  revert A1 A2. generalize (Math_round (m * 10)). intros x A1 A2.
  qdiv. split; lra.
Qed.

Lemma profile_rating_stays_on_the_scale_witness :
  let w := Sample.world [Sample.ride 100 completed (Some 10%nat) None;
                         Sample.ride 101 completed (Some 10%nat) (Some 4)] in
  let w' := fst (RideRoutes.rate Sample.stars_1_to_5 Sample.ctx Sample.rider 100
                   (Some 5) None w) in
  exists r : Q, profile_rating 10 w' = Some r /\ 1 <= r /\ r <= 5.
Proof.
  refine (profile_rating_stays_on_the_scale Sample.stars_1_to_5 Sample.ctx
            Sample.rider 100 5 None
            (Sample.world [Sample.ride 100 completed (Some 10%nat) None;
                           Sample.ride 101 completed (Some 10%nat) (Some 4)])
            (Sample.ride 100 completed (Some 10%nat) None) 10%nat Sample.dev
            _ _ _ _ _).
  - reflexivity.
  - reflexivity.
  - reflexivity.
  - reflexivity.
  - vm_compute. repeat constructor; discriminate.
Defined.

(** ** Withdrawals that are refused *)

(** A withdrawal of an amount that is not positive is refused as invalid,
    and one of more than the driver has earned with completed rides as
    insufficient; neither records a payment or changes anything else.  A
    driver without a completed ride can withdraw nothing. *)
Theorem withdraw_refusals (ctx : Ctx) (u : User.t) (amount : Q) (w : World) :
  (amount <= 0 ->
   DriverRoutes.withdraw ctx u amount w = (w, error 400 "Invalid withdrawal amount"))
  /\ (0 < amount -> earnings (User._id u) w < amount ->
      DriverRoutes.withdraw ctx u amount w
      = (w, error 400 "Insufficient earnings for withdrawal"))
  /\ (filter (DriverRoutes.completed_by (User._id u)) (rides w) = [] ->
      fst (DriverRoutes.withdraw ctx u amount w) = w
      /\ http (snd (DriverRoutes.withdraw ctx u amount w)) = 400%nat).
Proof.
  assert (Inv : amount <= 0 ->
                DriverRoutes.withdraw ctx u amount w
                = (w, error 400 "Invalid withdrawal amount")).
  { intro H. unfold DriverRoutes.withdraw, DriverRoutes.withdraw_body. run_handler.
    apply Qle_bool_iff in H. rewrite H, orb_true_r. reflexivity. }
  assert (Ins : 0 < amount -> earnings (User._id u) w < amount ->
                DriverRoutes.withdraw ctx u amount w
                = (w, error 400 "Insufficient earnings for withdrawal")).
  { intros P L. unfold DriverRoutes.withdraw, DriverRoutes.withdraw_body. run_handler.
    assert (Z : Qeq_bool amount 0 = false).
    { destruct (Qeq_bool amount 0) eqn:E; [| reflexivity].
      apply Qeq_bool_iff in E. lra. }
    assert (N : Qle_bool amount 0 = false) by (apply Qle_bool_false; exact P).
    rewrite Z, N. cbn [orb].
    assert (G : Qgt_bool amount
                  (DriverRoutes.availableAmount
                     (DriverRoutes.aggregate_total (User._id u) (rides w))) = true).
    { unfold Qgt_bool. apply negb_true_iff, Qle_bool_false.
      rewrite availableAmount_earnings. exact L. }
    rewrite G. reflexivity. }
  split; [exact Inv | split; [exact Ins |]].
  intro E.
  assert (E0 : earnings (User._id u) w == 0) by (unfold earnings; rewrite E; reflexivity).
  destruct (Qlt_le_dec 0 amount) as [P | NP].
  - rewrite Ins; [split; reflexivity | exact P | rewrite E0; exact P].
  - rewrite Inv; [split; reflexivity | exact NP].
Qed.

Lemma withdraw_refusals_witness :
  DriverRoutes.withdraw Sample.ctx Sample.dev 600
    (Sample.world [Sample.ride 100 completed (Some 10%nat) None])
  = (Sample.world [Sample.ride 100 completed (Some 10%nat) None],
     error 400 "Insufficient earnings for withdrawal").
Proof.
  apply (withdraw_refusals Sample.ctx Sample.dev 600
           (Sample.world [Sample.ride 100 completed (Some 10%nat) None])).
  - reflexivity.
  - reflexivity.
Defined.

(** ** An accept call that resumes late *)

(** A driver loaded the ride while it was pending; by the time the handler
    resumes the requester has cancelled.  The driver is still told that the
    ride is theirs, and the stored ride, cancelled a moment ago, is written
    back as accepted. *)
Lemma accept_resume_ignores_store_witness :
  let loaded := Sample.ride 100 pending None None in
  let w := Sample.world [Sample.ride 100 cancelled None None] in
  snd (try_catch (DriverRoutes.accept_resume Sample.ctx Sample.dev (Some loaded))
                 (error 500 "Failed to accept ride") w)
  = success 200 "Ride accepted successfully" (RideAccepted 100)
  /\ forall stored : Ride.t,
       ride_of 100 w = Some stored ->
       ride_of 100
               (fst (try_catch (DriverRoutes.accept_resume Sample.ctx Sample.dev (Some loaded))
                               (error 500 "Failed to accept ride") w))
       = Some (DriverRoutes.accept_changes Sample.ctx Sample.dev stored).
Proof.
  apply (accept_resume_ignores_store Sample.ctx Sample.dev
           (Sample.ride 100 pending None None)
           (Sample.world [Sample.ride 100 cancelled None None])).
  - reflexivity.
  - split; reflexivity.
Defined.

Example late_accept_revives_cancelled_ride :
  let loaded := Sample.ride 100 pending None None in
  let w := Sample.world [Sample.ride 100 cancelled None None] in
  status_of 100 w = Some cancelled /\
  status_of 100
    (fst (try_catch (DriverRoutes.accept_resume Sample.ctx Sample.dev (Some loaded))
                    (error 500 "Failed to accept ride") w))
  = Some accepted.
Proof. cbv zeta. split; reflexivity. Qed.
